(** * node-pdf-processor: job lifecycle, task processor, queue manager and
      rate limiter, embedded in Rocq.

    The JavaScript sources are embedded shallowly.  Job objects are finite
    maps from property names to JavaScript values, so that object spread,
    absent properties and the coercions of [||], [<] and [+] behave as they
    do in the program.  [Date], [Math.random] and the collaborators'
    side effects are threaded through an explicit world. *)

From Stdlib Require Import ZArith QArith Qround Qminmax Qpower String Ascii List Bool Lia Lqa.
From Stdlib Require HexString.
From Stdlib Require Import Sorted.
From stdpp Require Import base option gmap strings list fin_maps pretty.

Set Warnings "-register-all".

Local Open Scope string_scope.
Local Open Scope list_scope.
Local Open Scope Z_scope.

(** ** JavaScript values *)

Module JS.

(** The values a job object can hold.  A number is a rational ([NaN] apart);
    a timestamp is the ISO-8601 string that [toISOString] prints. *)
Inductive value : Type :=
| VUndefined
| VNull
| VBool (b : bool)
| VNum (q : Q)
| VNaN
| VStr (s : string)
| VArr (items : list value)
| VObj (fields : gmap string value).

Abbreviation obj := (gmap string value).

(** The outcome of evaluating code that may throw. *)
Inductive result (A : Type) : Type :=
| Ok (a : A)
| Throw (e : value).
Arguments Ok {A} a.
Arguments Throw {A} e.

(** [new Error(msg)] and its subclasses, reduced to the two properties the
    program reads. *)
Definition mk_error (name msg : string) : value :=
  VObj (<["name" := VStr name]> {["message" := VStr msg]}).
Definition Error (msg : string) : value := mk_error "Error" msg.
Definition TypeError (msg : string) : value := mk_error "TypeError" msg.

(** *** Strings *)

(** The double-quote character, as a string. *)
Definition dquote : string := String (ascii_of_nat 34) EmptyString.

(** [hay.includes(needle)] *)
Fixpoint includes (needle hay : string) : bool :=
  String.prefix needle hay ||
  match hay with
  | EmptyString => false
  | String _ rest => includes needle rest
  end.

(** [s.split(sep)] for a one-character separator. *)
Fixpoint split (sep : ascii) (s : string) : list string :=
  match s with
  | EmptyString => [EmptyString]
  | String c rest =>
      if Ascii.eqb c sep then EmptyString :: split sep rest
      else match split sep rest with
           | [] => [String c EmptyString]
           | seg :: segs => String c seg :: segs
           end
  end.

Definition is_digit (c : ascii) : bool :=
  let n := nat_of_ascii c in (48 <=? n)%nat && (n <=? 57)%nat.

Definition digit_value (c : ascii) : Z := Z.of_nat (nat_of_ascii c) - 48.

(** The value of a non-empty string of decimal digits. *)
Fixpoint digits_value_from (acc : Z) (s : string) : option Z :=
  match s with
  | EmptyString => Some acc
  | String c rest =>
      if is_digit c then digits_value_from (10 * acc + digit_value c) rest else None
  end.

Definition digits_value (s : string) : option Z :=
  match s with
  | EmptyString => None
  | _ => digits_value_from 0 s
  end.

(** [Number(s)] on the empty string and on signed decimal integers; every
    other spelling (fractions, exponents, hexadecimal, surrounding blanks)
    reads as [NaN] here. *)
Definition string_to_number (s : string) : option Q :=
  match s with
  | EmptyString => Some 0%Q
  | String "-" rest => (fun z => inject_Z (- z)) <$> digits_value rest
  | String "+" rest => inject_Z <$> digits_value rest
  | _ => inject_Z <$> digits_value s
  end.

(** [String(n)]: an integer prints in decimal; a fraction prints as
    numerator/denominator, where JavaScript prints a decimal expansion. *)
Definition number_to_string (q : Q) : string :=
  let r := Qred q in
  if (Qden r =? 1)%positive then pretty (Qnum r)
  else pretty (Qnum r) +:+ "/" +:+ pretty (Zpos (Qden r)).

(** *** Coercions *)

(** [String(v)], as a template literal applies it. *)
Fixpoint to_string (v : value) : string :=
  match v with
  | VUndefined => "undefined"
  | VNull => "null"
  | VBool true => "true"
  | VBool false => "false"
  | VNum q => number_to_string q
  | VNaN => "NaN"
  | VStr s => s
  | VArr items =>
      String.concat ","
        (map (fun x => match x with
                       | VUndefined | VNull => EmptyString
                       | _ => to_string x
                       end) items)
  | VObj _ => "[object Object]"
  end.

(** [ToPrimitive]: arrays and plain objects turn into their strings. *)
Definition to_primitive (v : value) : value :=
  match v with
  | VArr _ | VObj _ => VStr (to_string v)
  | _ => v
  end.

(** [Number(v)]; [None] is [NaN]. *)
Definition to_number (v : value) : option Q :=
  match to_primitive v with
  | VUndefined | VNaN => None
  | VNull => Some 0%Q
  | VBool b => Some (if b then 1%Q else 0%Q)
  | VNum q => Some q
  | VStr s => string_to_number s
  | VArr _ | VObj _ => None
  end.

(** [Boolean(v)] *)
Definition truthy (v : value) : bool :=
  match v with
  | VUndefined | VNull | VNaN => false
  | VBool b => b
  | VNum q => negb (Qeq_bool q 0)
  | VStr s => negb (String.eqb s EmptyString)
  | VArr _ | VObj _ => true
  end.

(** [a || b] *)
Definition or (a b : value) : value := if truthy a then a else b.

Definition Qlt_bool (x y : Q) : bool := negb (Qle_bool y x).

(** [a < b]: two strings compare as strings, anything else as numbers, and
    a comparison with [NaN] is false. *)
Definition lt (a b : value) : bool :=
  match to_primitive a, to_primitive b with
  | VStr s, VStr t => String.ltb s t
  | pa, pb =>
      match to_number pa, to_number pb with
      | Some x, Some y => Qlt_bool x y
      | _, _ => false
      end
  end.

(** [a + b]: concatenation as soon as one side is a string. *)
Definition add (a b : value) : value :=
  match to_primitive a, to_primitive b with
  | VStr s, pb => VStr (s +:+ to_string pb)
  | pa, VStr t => VStr (to_string pa +:+ t)
  | pa, pb =>
      match to_number pa, to_number pb with
      | Some x, Some y => VNum (x + y)
      | _, _ => VNaN
      end
  end.

(** [a === b].  Objects and arrays compare by reference; the embedding has
    no references and answers [false] for them, also for an object and
    itself: what depends on a comparison is stated for values compared by
    content. *)
Definition strict_eq (a b : value) : bool :=
  match a, b with
  | VUndefined, VUndefined => true
  | VNull, VNull => true
  | VBool x, VBool y => Bool.eqb x y
  | VNum x, VNum y => Qeq_bool x y
  | VStr s, VStr t => String.eqb s t
  | _, _ => false
  end.

(** *** Property access *)

(** [o.k] on an object literal value. *)
Definition field (o : obj) (k : string) : value := default VUndefined (o !! k).

(** [v.k]: reading a property of [undefined] or [null] throws. *)
Definition get_prop (v : value) (k : string) : result value :=
  match v with
  | VUndefined | VNull =>
      Throw (TypeError ("Cannot read properties of " +:+ to_string v +:+
                        " (reading '" +:+ k +:+ "')"))
  | VObj o => Ok (field o k)
  | VStr s =>
      Ok (if String.eqb k "length" then VNum (inject_Z (Z.of_nat (String.length s)))
          else VUndefined)
  | VArr items =>
      Ok (if String.eqb k "length" then VNum (inject_Z (Z.of_nat (List.length items)))
          else VUndefined)
  | _ => Ok VUndefined
  end.

(** [v?.k] *)
Definition get_prop_opt (v : value) (k : string) : value :=
  match get_prop v k with
  | Ok x => x
  | Throw _ => VUndefined
  end.

(** The own enumerable properties [{...v}] copies. *)
Definition indexed (items : list value) : obj :=
  list_to_map (imap (fun i x => (pretty (Z.of_nat i), x)) items).

Definition spread (v : value) : obj :=
  match v with
  | VObj o => o
  | VArr items => indexed items
  | VStr s => indexed (map (fun c => VStr (String c EmptyString)) (list_ascii_of_string s))
  | _ => ∅
  end.

(** [m.includes(needle)] where [m] was read from property [what]: strings
    and arrays have the method, [undefined] and [null] have no properties,
    and on anything else [includes] is not a function. *)
Definition call_includes (what : string) (m : value) (needle : string) : result bool :=
  match m with
  | VStr s => Ok (includes needle s)
  | VArr items => Ok (existsb (strict_eq (VStr needle)) items)
  | VUndefined | VNull =>
      Throw (TypeError ("Cannot read properties of " +:+ to_string m +:+
                        " (reading 'includes')"))
  | _ => Throw (TypeError (what +:+ ".includes is not a function"))
  end.

End JS.
Export JS.

(** ** Dates *)

Module Date.

(** Zero-padded decimal of a non-negative number. *)
Definition pad (width : nat) (n : Z) : string :=
  let s := pretty n in
  string_of_list_ascii (replicate (width - String.length s) "0"%char) +:+ s.

(** Day number since 1970-01-01 to (year, month, day) and back, in the
    proleptic Gregorian calendar. *)
Definition civil_from_days (days : Z) : Z * Z * Z :=
  let z := days + 719468 in
  let era := z / 146097 in
  let doe := z - era * 146097 in
  let yoe := (doe - doe / 1460 + doe / 36524 - doe / 146096) / 365 in
  let doy := doe - (365 * yoe + yoe / 4 - yoe / 100) in
  let mp := (5 * doy + 2) / 153 in
  let d := doy - (153 * mp + 2) / 5 + 1 in
  let m := if mp <? 10 then mp + 3 else mp - 9 in
  ((yoe + era * 400) + (if m <=? 2 then 1 else 0), m, d).

Definition days_from_civil (y m d : Z) : Z :=
  let y := if m <=? 2 then y - 1 else y in
  let era := y / 400 in
  let yoe := y - era * 400 in
  let doy := (153 * (if 2 <? m then m - 3 else m + 9) + 2) / 5 + d - 1 in
  let doe := yoe * 365 + yoe / 4 - yoe / 100 + doy in
  era * 146097 + doe - 719468.

(** The largest time value a [Date] holds. *)
Definition max_time : Z := 8640000000000000.

(** [TimeClip]: [None] is the invalid date. *)
Definition time_clip (t : Z) : option Z :=
  if Z.abs t <=? max_time then Some t else None.

(** [date.toISOString()] for a valid time value. *)
Definition iso_text (ms : Z) : string :=
  let r := ms mod 86400000 in
  let '(y, m, d) := civil_from_days (ms / 86400000) in
  let year :=
    if (0 <=? y) && (y <=? 9999) then pad 4 y
    else (if y <? 0 then "-" else "+") +:+ pad 6 (Z.abs y) in
  year +:+ "-" +:+ pad 2 m +:+ "-" +:+ pad 2 d +:+ "T" +:+
  pad 2 (r / 3600000) +:+ ":" +:+ pad 2 (r / 60000 mod 60) +:+ ":" +:+
  pad 2 (r / 1000 mod 60) +:+ "." +:+ pad 3 (r mod 1000) +:+ "Z".

(** [toISOString] throws on the invalid date. *)
Definition toISOString (t : option Z) : result string :=
  match t with
  | Some ms => Ok (iso_text ms)
  | None => Throw (mk_error "RangeError" "Invalid time value")
  end.

(** Reading fixed-width fields off the front of a string. *)
Definition take_digits (n : nat) (s : string) : option (Z * string) :=
  let front := String.substring 0 n s in
  if (String.length front =? n)%nat then
    v ← digits_value front;
    Some (v, String.substring n (String.length s - n) s)
  else None.

Definition expect (c : ascii) (s : string) : option string :=
  match s with
  | String c' rest => if Ascii.eqb c c' then Some rest else None
  | EmptyString => None
  end.

(** [Date.parse] on the format [toISOString] prints, with the milliseconds
    optional (the year 0 is never written with a minus sign); every other
    spelling reads as the invalid date here, though an engine reads more
    of them (a date without a time, a numeric offset, a local time): what
    depends on a date is stated for dates read here. *)
Definition parse (s : string) : option Z :=
  '(sign, width, s) ← match s with
                      | String "+" rest => Some (1, 6%nat, rest)
                      | String "-" rest =>
                          if String.prefix "000000" rest then None
                          else Some (-1, 6%nat, rest)
                      | _ => Some (1, 4%nat, s)
                      end;
  '(y, s) ← take_digits width s;
  s ← expect "-" s;
  '(m, s) ← take_digits 2 s;
  s ← expect "-" s;
  '(d, s) ← take_digits 2 s;
  s ← expect "T" s;
  '(hh, s) ← take_digits 2 s;
  s ← expect ":" s;
  '(mm, s) ← take_digits 2 s;
  s ← expect ":" s;
  '(ss, s) ← take_digits 2 s;
  '(ms, s) ← match s with
             | String "." rest => take_digits 3 rest
             | _ => Some (0, s)
             end;
  let y := sign * y in
  let days := days_from_civil y m d in
  if String.eqb s "Z" && (1 <=? m) && (m <=? 12) && (1 <=? d) &&
     bool_decide (civil_from_days days = (y, m, d)) &&
     (hh <=? 23) && (mm <=? 59) && (ss <=? 59)
  then time_clip (days * 86400000 + hh * 3600000 + mm * 60000 + ss * 1000 + ms)
  else None.

(** Truncation towards zero, as [ToIntegerOrInfinity] does. *)
Definition truncate (q : Q) : Z :=
  if Qle_bool 0 q then Qfloor q else Qceiling q.

(** The time value of [new Date(v)]. *)
Definition of_value (v : value) : option Z :=
  match to_primitive v with
  | VStr s => parse s
  | p => q ← to_number p; time_clip (truncate q)
  end.

End Date.

(** ** Effects: a state and exception monad *)

(** A computation over state [S] that returns or throws. *)
Definition M (S A : Type) : Type := S -> result A * S.

#[global] Instance M_ret {S} : MRet (M S) := fun A a s => (Ok a, s).
#[global] Instance M_bind {S} : MBind (M S) := fun A B k m s =>
  match m s with
  | (Ok a, s') => k a s'
  | (Throw e, s') => (Throw e, s')
  end.

#[global] Instance result_ret : MRet result := fun A a => Ok a.
#[global] Instance result_bind : MBind result := fun A B k r =>
  match r with
  | Ok a => k a
  | Throw e => Throw e
  end.

Definition throw {S A} (e : value) : M S A := fun s => (Throw e, s).

(** An expression that may throw, evaluated inside a computation. *)
Definition eval {S A} (r : result A) : M S A := fun s => (r, s).

(** [try { body } catch (e) { handler e }] *)
Definition try_catch {S A} (body : M S A) (handler : value -> M S A) : M S A :=
  fun s =>
    match body s with
    | (Ok a, s') => (Ok a, s')
    | (Throw e, s') => handler e s'
    end.

(** [try { body } finally { cleanup }], for a cleanup that cannot throw. *)
Definition try_finally {S A} (body : M S A) (cleanup : S -> S) : M S A :=
  fun s => let '(r, s') := body s in (r, cleanup s').

Definition modify {S} (f : S -> S) : M S unit := fun s => (Ok tt, f s).
Definition gets {S A} (f : S -> A) : M S A := fun s => (Ok (f s), s).

(** Running a computation on the second component of a pair of states. *)
Definition on_snd {S T A} (m : M T A) : M (S * T) A :=
  fun st => let '(r, t') := m st.2 in (r, (st.1, t')).

(** ** The world outside the program *)

(** The system clock and [Math.random] are oracles read in order; the job
    store and the notification sink keep what they were sent. *)
Record world : Type := mkWorld {
  clock : nat -> Z;
  clock_reads : nat;
  random : nat -> Q;
  random_draws : nat;
  saved : list obj;
  notified : list obj
}.

(** The world after one more clock reading, one more random draw, one more
    saved snapshot and one more notification. *)
Definition clock_read (w : world) : world :=
  mkWorld (clock w) (S (clock_reads w)) (random w) (random_draws w) (saved w) (notified w).
Definition random_drawn (w : world) : world :=
  mkWorld (clock w) (clock_reads w) (random w) (S (random_draws w)) (saved w) (notified w).
Definition job_saved (job : obj) (w : world) : world :=
  mkWorld (clock w) (clock_reads w) (random w) (random_draws w) (saved w ++ [job]) (notified w).
Definition job_notified (job : obj) (w : world) : world :=
  mkWorld (clock w) (clock_reads w) (random w) (random_draws w) (saved w) (notified w ++ [job]).

(** [Date.now()] *)
Definition Date_now : M world Z := fun w => (Ok (clock w (clock_reads w)), clock_read w).

(** [new Date().toISOString()] *)
Definition now_iso : M world value :=
  t ← Date_now; mret (VStr (Date.iso_text t)).

(** [Math.random()] *)
Definition Math_random : M world Q := fun w =>
  (Ok (random w (random_draws w)), random_drawn w).

(** ** src/domain/jobManagement.js *)

Module JobManagement.

(** [v.toString(16)] for an integer. *)
Definition hex (v : Z) : string :=
  match v with
  | Z0 => "0"
  | Zpos p => HexString.Raw.of_pos p EmptyString
  | Zneg p => "-" +:+ HexString.Raw.of_pos p EmptyString
  end.

(** [x | 0] *)
Definition to_int32 (q : Q) : Z :=
  (Date.truncate q + 2147483648) mod 4294967296 - 2147483648.

(** The callback of [replace(/[xy]/g, ...)] and the replacement itself. *)
Definition replace_xy (c : ascii) : M world string :=
  u ← Math_random;
  let r := to_int32 (u * 16) in
  let v := if Ascii.eqb c "x" then r else Z.lor (Z.land r 3) 8 in
  mret (hex v).

Fixpoint replace_all_xy (template : string) : M world string :=
  match template with
  | EmptyString => mret EmptyString
  | String c rest =>
      here ← (if Ascii.eqb c "x" || Ascii.eqb c "y" then replace_xy c
              else mret (String c EmptyString));
      there ← replace_all_xy rest;
      mret (here +:+ there)
  end.

Definition generateId : M world string :=
  replace_all_xy "xxxxxxxx-xxxx-4xxx-yxxx-xxxxxxxxxxxx".

(** The object literal of [createJob]: the four defaults come first and the
    spread of [jobData] after them, so a property of [jobData] replaces the
    default of the same name. *)
Definition createJob (jobData : obj) : M world obj :=
  id ← generateId;
  createdAt ← now_iso;
  updatedAt ← now_iso;
  mret (jobData ∪ <["id" := VStr id]> (<["status" := VStr "pending"]>
          (<["createdAt" := createdAt]> {["updatedAt" := updatedAt]}))).

Definition updateJobStatus (job : obj) (newStatus : string) : M world obj :=
  updatedAt ← now_iso;
  mret (<["updatedAt" := updatedAt]> (<["status" := VStr newStatus]> job)).

End JobManagement.

(** ** src/integration/jobIntegration.js *)

Module JobIntegration.

(** Both versions of [saveJob] hand the job back whatever the store did; the
    store keeps what it was sent. *)
Definition saveJob (job : obj) : M world obj := fun w => (Ok job, job_saved job w).

Definition notifyJobStatusChange (job : obj) : M world bool := fun w =>
  (Ok true, job_notified job w).

(** The Firestore lookup is a stub that finds nothing. *)
Definition fetchJobFromFirebase (jobId : string) : M world value := mret VNull.

End JobIntegration.

(** ** src/domain/documentProcessing.js *)

Module DocumentProcessing.

(** [content.substring(0, n)] on a truthy [content]. *)
Definition call_substring (content : value) (n : nat) : result string :=
  match content with
  | VStr s => Ok (String.substring 0 n s)
  | _ => Throw (TypeError "document.content.substring is not a function")
  end.

Definition extractTextFromDocument (document : value) : M world obj :=
  content ← eval (get_prop document "content");
  extractedText ←
    (if truthy content then
       front ← eval (call_substring content 30);
       mret ("Simulated extraction from " +:+ front +:+ "...")
     else mret "No content available for extraction");
  extractedAt ← now_iso;
  format ← eval (get_prop document "format");
  mret (<["metadata" := VObj (<["extractedAt" := extractedAt]>
                              (<["charCount" := VNum (inject_Z (Z.of_nat (String.length extractedText)))]>
                               {["format" := or format (VStr "unknown")]}))]>
        (<["extractedText" := VStr extractedText]> (spread document))).

(** [items.filter(() => Math.random() > 0.5)] *)
Fixpoint filter_random (items : list value) : M world (list value) :=
  match items with
  | [] => mret []
  | x :: rest =>
      u ← Math_random;
      kept ← filter_random rest;
      mret (if Qlt_bool (1 # 2) u then x :: kept else kept)
  end.

(** [Math.round(x)] *)
Definition round (x : Q) : Z := Qfloor (x + (1 # 2)).

Definition analyzeDocument (documentWithText : obj) : M world obj :=
  if negb (truthy (field documentWithText "extractedText")) then
    mret (<["analysis" := VObj (<["error" := VStr "No extracted text available for analysis"]>
                                {["status" := VStr "failed"]})]> documentWithText)
  else
    let sampleKeywords := [VStr "important"; VStr "document"; VStr "analysis"; VStr "processing"] in
    u ← Math_random;
    let randomSentiment :=
      let i := Qfloor (u * 3) in
      if i <? 0 then VUndefined
      else default VUndefined ([VStr "positive"; VStr "neutral"; VStr "negative"] !! Z.to_nat i) in
    let format := or (get_prop_opt (field documentWithText "metadata") "format") (VStr "unknown") in
    keywords ← filter_random sampleKeywords;
    c ← Math_random;
    analyzedAt ← now_iso;
    let analysis :=
      <["summary" := VStr ("This document appears to be about " +:+ to_string format +:+ " processing.")]>
      (<["sentiment" := randomSentiment]>
       (<["keywords" := VArr keywords]>
        (<["confidence" := VNum (inject_Z (round (c * 100)) / 100)]>
         {["analyzedAt" := analyzedAt]}))) in
    mret (<["analysis" := VObj analysis]> documentWithText).

End DocumentProcessing.

(** ** src/integration/documentIntegration.js *)

Module RateLimiter.

(** The fields of a limiter instance; counts and milliseconds are integers. *)
Record t : Type := mk {
  maxTokens : Z;
  refillRate : Z;
  tokens : Z;
  lastRefill : Z
}.

(** [options.k || d] for an optional numeric option. *)
Definition option_or (o : option Z) (d : Z) : Z :=
  match o with
  | Some v => if v =? 0 then d else v
  | None => d
  end.

(** [new RateLimiter({maxRequests, perTimeWindow})] at time [now]. *)
Definition constructor (maxRequests perTimeWindow : option Z) (now : Z) : t :=
  let maxTokens := option_or maxRequests 10 in
  mk maxTokens (option_or perTimeWindow 60000) maxTokens now.

(** The refill step at the head of [execute]. *)
Definition refill (now : Z) (l : t) : t :=
  let elapsed := now - lastRefill l in
  if 0 <? elapsed then
    let tokensToAdd := elapsed / refillRate l * maxTokens l in
    mk (maxTokens l) (refillRate l) (Z.min (maxTokens l) (tokens l + tokensToAdd)) now
  else l.

(** [Math.ceil(x / 1000)] for an integer [x]. *)
Definition ceil_div_1000 (x : Z) : Z := - ((- x) / 1000).

Definition rate_limit_error (waitTime : Z) : value :=
  Error ("Rate limit exceeded. Try again in " +:+ pretty waitTime +:+ " seconds.").

(** [limiter.execute(fn)], where [now] is what [Date.now()] returns on entry.
    The limiter's fields are private to it: [fn] runs on the rest of the
    state. *)
Definition execute {S A} (fn : M S A) (now : Z) : M (t * S) A := fun st =>
  let l := st.1 in
  let elapsed := now - lastRefill l in
  let l1 := refill now l in
  if tokens l1 <? 1 then
    let waitTime := ceil_div_1000 (refillRate l1 - elapsed) in
    (Throw (rate_limit_error waitTime), (l1, st.2))
  else
    let l2 := mk (maxTokens l1) (refillRate l1) (tokens l1 - 1) (lastRefill l1) in
    let '(r, s') := fn st.2 in
    (r, (l2, s')).

End RateLimiter.

(** The state the task processor runs on: the Gemini limiter and the world. *)
Definition system : Type := RateLimiter.t * world.

Module DocumentIntegration.

(** [new RateLimiter({maxRequests: 5, perTimeWindow: 60000})] *)
Definition geminiApiLimiter (now : Z) : RateLimiter.t :=
  RateLimiter.constructor (Some 5) (Some 60000) now.

(** The text after the last dot and the text before it, both reversed. *)
Fixpoint last_dot (rev_chars : list ascii) : option (list ascii * list ascii) :=
  match rev_chars with
  | [] => None
  | c :: rest =>
      if Ascii.eqb c "." then Some ([], rest)
      else '(ext_rev, stem_rev) ← last_dot rest; Some (c :: ext_rev, stem_rev)
  end.

(** [name.replace(/\.[^/.]+$/, '')]: drop a last dot and what follows it,
    when something follows and holds no slash. *)
Definition strip_extension (name : string) : string :=
  match last_dot (rev (list_ascii_of_string name)) with
  | Some (c :: ext_rev, stem_rev) =>
      if existsb (fun c => Ascii.eqb c "/") (c :: ext_rev) then name
      else string_of_list_ascii (rev stem_rev)
  | _ => name
  end.

(** The simulated storage fetch. *)
Definition fetchDocument (documentUrl : value) : M world value :=
  _ ← Math_random;
  match documentUrl with
  | VStr url =>
      let documentId := strip_extension (List.last (split "/" url) EmptyString) in
      u ← Math_random;
      fetchedAt ← now_iso;
      mret (VObj
        (<["id" := VStr documentId]>
         (<["url" := VStr url]>
          (<["content" := VStr ("This is sample content for document " +:+ documentId +:+
                               ". It would normally contain the actual document text.")]>
           (<["format" := VStr (if includes ".pdf" url then "pdf"
                                else if includes ".docx" url then "docx" else "txt")]>
            (<["size" := VNum (inject_Z (Qfloor (u * 1000000) + 50000))]>
             {["fetchedAt" := fetchedAt]}))))))
  | VUndefined | VNull =>
      throw (TypeError ("Cannot read properties of " +:+ to_string documentUrl +:+
                        " (reading 'split')"))
  | _ => throw (TypeError "documentUrl.split is not a function")
  end.

(** The rate-limited analysis call.  The function passed to the limiter
    simulates the external analysis service and is the parameter [gemini]. *)
Definition callGeminiForAnalysis (gemini : value -> M world value)
    (documentText : value) : M system value :=
  try_catch
    (now ← on_snd Date_now;
     RateLimiter.execute (gemini documentText) now)
    (fun error =>
       _ ← eval (get_prop error "message");
       throw error).

End DocumentIntegration.

(** ** src/processor/taskProcessor.js *)

Module TaskProcessor.
Import JobManagement JobIntegration DocumentProcessing DocumentIntegration.

Definition isTransientError (error : value) : result bool :=
  message ← get_prop error "message";
  (if truthy message
   then call_includes "error.message" message "Rate limit exceeded"
   else Ok false) ≫= fun rate_limited : bool =>
  if rate_limited then Ok true
  else
    code ← get_prop error "code";
    if strict_eq code (VStr "ETIMEDOUT") || strict_eq code (VStr "ECONNRESET") ||
       strict_eq code (VStr "ECONNREFUSED")
    then Ok true
    else
      message ← get_prop error "message";
      call_includes "error.message" message "timeout" ≫= fun timed_out : bool =>
      if timed_out then Ok true else Ok false.

(** The processor is stated for any document fetcher and any analysis
    service; the repository wires in [DocumentIntegration.fetchDocument] and
    a simulated analysis. *)
Section Pipeline.

Variable fetchDocument : value -> M world value.
Variable gemini : value -> M world value.

Definition processPdfJob (job : obj) : M system obj :=
  if negb (truthy (field job "documentUrl")) then
    throw (Error "Missing documentUrl for PDF processing job")
  else
    document ← on_snd (fetchDocument (field job "documentUrl"));
    documentId ← eval (get_prop document "id");
    documentWithText ← on_snd (extractTextFromDocument document);
    processedDocument ←
      (if negb (strict_eq (field job "analyzeContent") (VBool false)) then
         try_catch
           (analysisResult ←
              callGeminiForAnalysis gemini (field documentWithText "extractedText");
            on_snd (analyzeDocument (<["geminiAnalysis" := analysisResult]> documentWithText)))
           (fun error =>
              _ ← eval (get_prop error "message");
              on_snd (analyzeDocument documentWithText))
       else mret documentWithText);
    processedAt ← on_snd now_iso;
    mret (<["result" := VObj
             (<["documentId" := documentId]>
              (<["extractedText" := field processedDocument "extractedText"]>
               (<["analysis" := field processedDocument "analysis"]>
                {["processedAt" := processedAt]})))]> job).

(** The [catch] block of [processJob]. *)
Definition handle_failure (job : obj) (error : value) : M system obj :=
  eval (isTransientError error) ≫= fun isTransient : bool =>
  let retryStatus := if isTransient then "retry" else "failed" in
  failedJob ← on_snd (updateJobStatus job retryStatus);
  message ← eval (get_prop error "message");
  code ← eval (get_prop error "code");
  timestamp ← on_snd now_iso;
  let jobWithError :=
    <["error" := VObj (<["message" := message]>
                       (<["code" := or code (VStr "UNKNOWN_ERROR")]>
                        (<["isTransient" := VBool isTransient]>
                         {["timestamp" := timestamp]})))]> failedJob in
  _ ← on_snd (saveJob jobWithError);
  _ ← on_snd (notifyJobStatusChange jobWithError);
  throw error.

(** The [try] block of [processJob]. *)
Definition process_steps (job : obj) : M system obj :=
  updatedJob ← on_snd (updateJobStatus job "processing");
  _ ← on_snd (saveJob updatedJob);
  _ ← on_snd (notifyJobStatusChange updatedJob);
  updatedJob ←
    (if strict_eq (field job "type") (VStr "pdf-processing")
     then processPdfJob updatedJob
     else throw (Error ("Unsupported job type: " +:+ to_string (field job "type"))));
  updatedJob ← on_snd (updateJobStatus updatedJob "completed");
  _ ← on_snd (saveJob updatedJob);
  _ ← on_snd (notifyJobStatusChange updatedJob);
  mret updatedJob.

Definition processJob (job : obj) : M system obj :=
  try_catch (process_steps job) (handle_failure job).

End Pipeline.

End TaskProcessor.

(** ** src/queue/jobQueueManager.js *)

Module QueueManager.

(** The module-level variables; [taskProcessor] is a function on the state
    below and is passed to the tick instead of being stored. *)
Record state : Type := mk {
  jobQueue : list obj;
  isProcessing : bool;
  checkInterval : bool
}.

Definition set_jobQueue (f : list obj -> list obj) : M (state * system) unit :=
  modify (fun st => (mk (f (jobQueue st.1)) (isProcessing st.1) (checkInterval st.1), st.2)).

Definition set_isProcessing (b : bool) (st : state * system) : state * system :=
  (mk (jobQueue st.1) b (checkInterval st.1), st.2).

Definition addJob (job : obj) : M (state * system) obj :=
  if negb (truthy (field job "id")) then
    throw (Error "Invalid job: must have an id property")
  else
    queuedAt ← on_snd (on_snd now_iso);
    scheduledFor ← (if truthy (field job "scheduledFor")
                    then mret (field job "scheduledFor")
                    else on_snd (on_snd now_iso));
    let queuedJob := <["scheduledFor" := scheduledFor]> (<["queuedAt" := queuedAt]> job) in
    _ ← set_jobQueue (fun q => q ++ [queuedJob]);
    mret queuedJob.

(** [Math.pow(2, x)] at an integer [x]; a fractional exponent gives an
    irrational that the rationals do not hold and is read at its floor. *)
Definition pow2 (x : Q) : Q := (2 ^ Qfloor x)%Q.

(** [calculateBackoff(retryCount)], where [u] is what [Math.random()]
    returns.  The arithmetic is exact, where a double rounds each product
    and sum to the nearest number it holds; rounding keeps the order and
    keeps the whole numbers that occur here, so what is proved of the delay
    are bounds by whole numbers and comparisons of delays. *)
Definition calculateBackoff (retryCount : Q) (u : Q) : Q :=
  let baseDelay := 1000%Q in
  let maxDelay := 60000%Q in
  Qmin maxDelay (pow2 retryCount * baseDelay + u * 1000)%Q.

(** The comparator [new Date(a.scheduledFor) - new Date(b.scheduledFor)] is
    not positive; a [NaN] difference counts as zero. *)
Definition before (a b : obj) : bool :=
  match Date.of_value (field a "scheduledFor"), Date.of_value (field b "scheduledFor") with
  | Some x, Some y => x <=? y
  | _, _ => true
  end.

(** [Array.prototype.sort] is stable: with a comparator that is a total
    preorder, as [before] is on entries that all carry a valid date, what
    it leaves is the stable insertion sort below.  With an invalid date
    among the entries the comparator answers [NaN] and the order an engine
    leaves depends on its algorithm. *)
Fixpoint insert_sorted (a : obj) (l : list obj) : list obj :=
  match l with
  | [] => [a]
  | b :: rest => if before a b then a :: l else b :: insert_sorted a rest
  end.

Definition sort (l : list obj) : list obj := foldr insert_sorted [] l.

(** [new Date(job.scheduledFor) <= now] *)
Definition due (job : obj) (now : Z) : bool :=
  match Date.of_value (field job "scheduledFor") with
  | Some t => t <=? now
  | None => false
  end.

(** The [catch] block of [processNextJob]. *)
Definition reschedule (nextJob : obj) (error : value) : M (state * system) unit :=
  let retries := field nextJob "retries" in
  if lt retries (or (field nextJob "maxRetries") (VNum 3)) then
    u ← on_snd (on_snd Math_random);
    let retryDelay := (fun q => calculateBackoff q u) <$> to_number (or retries (VNum 0)) in
    now ← on_snd (on_snd Date_now);
    let retryTime := d ← retryDelay; Date.time_clip (Date.truncate (inject_Z now + d)) in
    scheduledFor ← eval (Date.toISOString retryTime);
    lastError ← eval (get_prop error "message");
    _ ← addJob (<["lastError" := lastError]>
                (<["scheduledFor" := VStr scheduledFor]>
                 (<["retries" := add (or retries (VNum 0)) (VNum 1)]> nextJob)));
    mret tt
  else mret tt.

(** One firing of the timer. *)
Definition processNextJob (taskProcessor : option (obj -> M system obj))
    : M (state * system) unit := fun st =>
  match taskProcessor with
  | Some processor =>
      if isProcessing st.1 || (List.length (jobQueue st.1) =? 0)%nat then (Ok tt, st)
      else
        (_ ← set_jobQueue sort;
         now ← on_snd (on_snd Date_now);
         gets (fun st => jobQueue st.1) ≫= fun queue : list obj =>
         match queue with
         | nextJob :: _ =>
             if due nextJob now then
               _ ← modify (set_isProcessing true);
               try_finally
                 (try_catch
                    (_ ← set_jobQueue
                           (List.filter (fun job =>
                              negb (strict_eq (field job "id") (field nextJob "id"))));
                     _ ← on_snd (processor nextJob);
                     mret tt)
                    (reschedule nextJob))
                 (set_isProcessing false)
             else mret tt
         | [] => mret tt
         end) st
  | None => (Ok tt, st)
  end.

(** [initialize] starts the timer once; [shutdown] stops it. *)
Definition initialize (st : state) : state := mk (jobQueue st) (isProcessing st) true.
Definition shutdown (st : state) : state := mk (jobQueue st) (isProcessing st) false.

End QueueManager.

(** ** src/api/jobRoutes.js *)

Module JobRoutes.
Import JobManagement JobIntegration.

(** What the cancellation handler reads off the request. *)
Record request : Type := mkRequest {
  jobId : string;
  user : value;
  body : value
}.

Record response : Type := mkResponse {
  status : Z;
  json : obj
}.

(** The in-memory [jobStore] and the world. *)
Definition app : Type := gmap string obj * world.

Definition jobStore_get (jobId : string) : M app value :=
  gets (fun st => match st.1 !! jobId with
                  | Some job => VObj job
                  | None => VUndefined
                  end).

Definition findJobById (jobId : string) : M app value :=
  try_catch
    (firebaseJob ← on_snd (fetchJobFromFirebase jobId);
     if truthy firebaseJob then mret firebaseJob
     else found ← jobStore_get jobId; mret (or found VNull))
    (fun _ => found ← jobStore_get jobId; mret (or found VNull)).

(** [router.delete('/api/v1/jobs/:jobId', ...)] *)
Definition cancelJob (req : request) : M app response :=
  try_catch
    (job ← findJobById (jobId req);
     if negb (truthy job) then
       mret (mkResponse 404
               (<["error" := VStr "Job not found"]>
                {["message" := VStr ("No job found with ID: " +:+ jobId req)]}))
     else
       status ← eval (get_prop job "status");
       if negb (strict_eq status (VStr "pending")) then
         mret (mkResponse 400
                 (<["error" := VStr "Cannot cancel job"]>
                  {["message" := VStr ("Job with status " +:+ dquote +:+ to_string status +:+
                       dquote +:+ " cannot be cancelled. Only pending jobs can be cancelled.")]}))
       else
         cancelledJob ← on_snd (updateJobStatus (spread job) "cancelled");
         cancelledAt ← on_snd now_iso;
         reason ← eval (get_prop (body req) "reason");
         let jobWithCancellationInfo :=
           <["cancellation" := VObj
               (<["cancelledAt" := cancelledAt]>
                (<["cancelledBy" := or (get_prop_opt (user req) "id") (VStr "unknown")]>
                 {["reason" := or reason (VStr "User cancelled")]}))]> cancelledJob in
         _ ← on_snd (saveJob jobWithCancellationInfo);
         _ ← on_snd (notifyJobStatusChange jobWithCancellationInfo);
         _ ← modify (fun st : app => (<[jobId req := jobWithCancellationInfo]> st.1, st.2));
         mret (mkResponse 200
                 (<["id" := VStr (jobId req)]>
                  (<["status" := VStr "cancelled"]>
                   (<["message" := VStr "Job cancelled successfully"]>
                    {["cancelledAt" := cancelledAt]})))))
    (fun error =>
       message ← eval (get_prop error "message");
       mret (mkResponse 500
               (<["error" := VStr "Failed to cancel job"]> {["message" := message]}))).

(** [router.post('/api/v1/jobs', ...)].  [jobStore] is keyed by the job's
    [id]; the string keys are the ones a route can look up, so an [id] that
    is not a string leaves the store, as the routes see it, unchanged. *)
Definition jobStore_set (key : value) (job : obj) : M app unit :=
  modify (fun st : app =>
            match key with
            | VStr k => (<[k := job]> st.1, st.2)
            | _ => st
            end).

Definition submitJob (req : request) : M app response :=
  try_catch
    (newJob ← on_snd (createJob (spread (body req)));
     _ ← on_snd (saveJob newJob);
     _ ← jobStore_set (field newJob "id") newJob;
     mret (mkResponse 201
             (<["id" := field newJob "id"]>
              (<["status" := field newJob "status"]>
               {["statusUrl" := VStr ("/api/v1/jobs/" +:+ to_string (field newJob "id")
                                      +:+ "/status")]}))))
    (fun error =>
       message ← eval (get_prop error "message");
       mret (mkResponse 500
               (<["error" := VStr "Failed to create job"]> {["message" := message]}))).

Definition not_found (jobId : string) : response :=
  mkResponse 404
    (<["error" := VStr "Job not found"]>
     {["message" := VStr ("No job found with ID: " +:+ jobId)]}).

(** [router.get('/api/v1/jobs/:jobId', ...)] *)
Definition getJob (req : request) : M app response :=
  try_catch
    (job ← findJobById (jobId req);
     if negb (truthy job) then mret (not_found (jobId req))
     else mret (mkResponse 200 (spread job)))
    (fun error =>
       message ← eval (get_prop error "message");
       mret (mkResponse 500
               (<["error" := VStr "Failed to retrieve job"]> {["message" := message]}))).

Definition calculateJobProgress (job : value) : result value :=
  status ← get_prop job "status";
  if strict_eq status (VStr "pending") then Ok (VNum 0)
  else if strict_eq status (VStr "processing") then Ok (VNum 50)
  else if strict_eq status (VStr "completed") then Ok (VNum 100)
  else if strict_eq status (VStr "failed") || strict_eq status (VStr "cancelled") then
    progress ← get_prop job "progress"; Ok (or progress (VNum 0))
  else Ok (VNum 0).

(** [router.get('/api/v1/jobs/:jobId/status', ...)] *)
Definition getJobStatus (req : request) : M app response :=
  try_catch
    (job ← findJobById (jobId req);
     if negb (truthy job) then mret (not_found (jobId req))
     else
       id ← eval (get_prop job "id");
       status ← eval (get_prop job "status");
       type ← eval (get_prop job "type");
       progress ← eval (calculateJobProgress job);
       createdAt ← eval (get_prop job "createdAt");
       updatedAt ← eval (get_prop job "updatedAt");
       let statusResponse : obj :=
         <["id" := id]> (<["status" := status]> (<["type" := type]>
           (<["progress" := progress]> (<["createdAt" := createdAt]>
             {["updatedAt" := updatedAt]})))) in
       result ← eval (get_prop job "result");
       statusResponse ←
         (if strict_eq status (VStr "completed") && truthy result then
            analysis ← eval (get_prop result "analysis");
            processedAt ← eval (get_prop result "processedAt");
            mret (<["result" := VObj (<["summary" := get_prop_opt analysis "summary"]>
                                      {["processedAt" := processedAt]})]> statusResponse)
          else mret statusResponse);
       error ← eval (get_prop job "error");
       statusResponse ←
         (if strict_eq status (VStr "failed") && truthy error then
            message ← eval (get_prop error "message");
            timestamp ← eval (get_prop error "timestamp");
            mret (<["error" := VObj (<["message" := message]>
                                     {["timestamp" := timestamp]})]> statusResponse)
          else mret statusResponse);
       mret (mkResponse 200 statusResponse))
    (fun error =>
       message ← eval (get_prop error "message");
       mret (mkResponse 500
               (<["error" := VStr "Failed to retrieve job status"]>
                {["message" := message]}))).

(** The state the retry route runs on: the store, and the queue manager
    with the system it schedules on. *)
Definition server : Type := gmap string obj * (QueueManager.state * system).

Definition on_app {A} (m : M app A) : M server A := fun st =>
  let '(r, (store, w)) := m (st.1, st.2.2.2) in
  (r, (store, (st.2.1, (st.2.2.1, w)))).

(** [router.put('/api/v1/jobs/:jobId/retry', ...)]; [queueManager] tells
    whether [req.app.locals.jobQueueManager] is set. *)
Definition retryJob (queueManager : bool) (req : request) : M server response :=
  try_catch
    (job ← on_app (findJobById (jobId req));
     if negb (truthy job) then mret (not_found (jobId req))
     else
       status ← eval (get_prop job "status");
       if negb (strict_eq status (VStr "failed") || strict_eq status (VStr "retry")) then
         mret (mkResponse 400
                 (<["error" := VStr "Cannot retry job"]>
                  {["message" := VStr ("Job with status " +:+ dquote +:+ to_string status +:+
                       dquote +:+ " cannot be retried. Only jobs with status failed, retry" +:+
                       " can be retried.")]}))
       else
         updatedAt ← on_app (on_snd now_iso);
         retriedAt ← on_app (on_snd now_iso);
         error ← eval (get_prop job "error");
         let previousErrors :=
           if truthy error then VArr [error]
           else or (get_prop_opt (get_prop_opt job "retryInfo") "previousErrors") (VArr []) in
         let resetJob : obj :=
           <["retryInfo" := VObj
               (<["originalStatus" := status]>
                (<["retriedAt" := retriedAt]>
                 (<["retriedBy" := or (get_prop_opt (user req) "id") (VStr "unknown")]>
                  {["previousErrors" := previousErrors]})))]>
           (<["updatedAt" := updatedAt]>
            (<["progress" := VNum 0]>
             (<["error" := VUndefined]>
              (<["retries" := VNum 0]>
               (<["status" := VStr "pending"]> (spread job)))))) in
         retriedJob ← on_app (on_snd (updateJobStatus resetJob "pending"));
         _ ← on_app (on_snd (saveJob retriedJob));
         _ ← on_app (on_snd (notifyJobStatusChange retriedJob));
         _ ← on_app (modify (fun st : app => (<[jobId req := retriedJob]> st.1, st.2)));
         _ ← (if queueManager
              then on_snd (_ ← QueueManager.addJob retriedJob; mret tt)
              else mret tt);
         mret (mkResponse 200
                 (<["id" := VStr (jobId req)]>
                  (<["status" := VStr "pending"]>
                   (<["message" := VStr "Job scheduled for retry"]>
                    {["retriedAt" := retriedAt]})))))
    (fun error =>
       message ← eval (get_prop error "message");
       mret (mkResponse 500
               (<["error" := VStr "Failed to retry job"]> {["message" := message]}))).

End JobRoutes.

(** ** src/api/authMiddleware.js, the simulated validation *)

Module AuthMiddleware.

Definition VALID_TEST_TOKEN : string := "valid-test-token-123".

(** What the middleware reads off the request: [req.path] and
    [req.headers.authorization], a string when the header was sent. *)
Record request : Type := mkRequest {
  path : string;
  authorization : option string
}.

(** The middleware either calls [next()], with the user it put on the
    request if any, or answers itself. *)
Inductive outcome : Type :=
| Next (user : option obj)
| Respond (status : Z) (json : obj).

Definition isValidSimulatedToken (token : string) : bool :=
  let parts := split "." token in
  (List.length parts =? 3)%nat &&
  forallb (fun part => (0 <? String.length part)%nat) parts.

Definition test_user : obj :=
  <["id" := VStr "user-123"]>
  (<["name" := VStr "Test User"]>
   (<["email" := VStr "test@example.com"]>
    {["roles" := VArr [VStr "user"]]})).

Definition authenticate (req : request) : outcome :=
  if String.eqb (path req) "/health" then Next None
  else
    match authorization req with
    | None =>
        Respond 401 (<["error" := VStr "Authentication required"]>
                     {["message" := VStr "Missing Authorization header"]})
    | Some authHeader =>
        if String.eqb authHeader EmptyString then
          Respond 401 (<["error" := VStr "Authentication required"]>
                       {["message" := VStr "Missing Authorization header"]})
        else if negb (String.prefix "Bearer " authHeader) then
          Respond 401 (<["error" := VStr "Invalid authentication"]>
                       {["message" := VStr "Authorization header must be Bearer token"]})
        else
          let token := String.substring 7 (String.length authHeader - 7) authHeader in
          if String.eqb token VALID_TEST_TOKEN || isValidSimulatedToken token then
            Next (Some test_user)
          else
            Respond 403 (<["error" := VStr "Authentication failed"]>
                         {["message" := VStr "Invalid or expired token"]})
    end.

End AuthMiddleware.

(** * Vocabulary of the properties *)

(** The limiter as its constructor builds it from positive options and as
    [execute] keeps it: a positive capacity and window, and a token count
    within the capacity. *)
Definition limiter_wf (l : RateLimiter.t) : Prop :=
  1 <= RateLimiter.maxTokens l /\ 0 < RateLimiter.refillRate l /\
  0 <= RateLimiter.tokens l <= RateLimiter.maxTokens l.

(** A sequence of [execute] calls, each with the time it is made at. *)
Fixpoint execute_all {S A} (calls : list (Z * M S A)) (st : RateLimiter.t * S)
    : RateLimiter.t * S :=
  match calls with
  | [] => st
  | (now, fn) :: rest => execute_all rest (RateLimiter.execute fn now st).2
  end.

(** Every call comes less than [window] after the one before it, the first
    one less than [window] after [prev]. *)
Fixpoint spaced {S A} (window prev : Z) (calls : list (Z * M S A)) : Prop :=
  match calls with
  | [] => True
  | (now, _) :: rest => now - prev < window /\ spaced window now rest
  end.

(** A world for worked examples: the clock starts on 2025-03-01 at noon and
    advances a second per reading, and every random draw is one half. *)
Definition sample_world : world :=
  mkWorld (fun n => Z.of_nat n * 1000 + 1740830400000) 0 (fun _ => (1 # 2)%Q) 0 [] [].

(** The error message of [processJob] for a type it has no pipeline for. *)
Definition unsupported_type_error (job : obj) : value :=
  Error ("Unsupported job type: " +:+ to_string (field job "type")).

(** The statuses of a list of snapshots. *)
Definition statuses (jobs : list obj) : list value :=
  map (fun job => field job "status") jobs.

(** The snapshot the [catch] block of [processJob] saves: [job] with the
    status of the classification [isTransient], the time [t1] of the status
    change, and the structured error stamped at [t2]. *)
Definition failure_snapshot (job : obj) (isTransient : bool) (message code : value)
    (t1 t2 : Z) : obj :=
  <["error" := VObj (<["message" := message]>
                     (<["code" := or code (VStr "UNKNOWN_ERROR")]>
                      (<["isTransient" := VBool isTransient]>
                       {["timestamp" := VStr (Date.iso_text t2)]})))]>
  (<["updatedAt" := VStr (Date.iso_text t1)]>
   (<["status" := VStr (if isTransient then "retry" else "failed")]> job)).

(** A fetcher that always fails with [error], and an analysis service that
    always answers. *)
Definition failing_fetch (error : value) : value -> M world value :=
  fun _ => throw error.
Definition sample_gemini : value -> M world value :=
  fun _ => mret (VObj {["summary" := VStr "An insight."]}).

(** A PDF job with optional retry counters. *)
Definition sample_pdf_job (counters : obj) : obj :=
  counters ∪ <["id" := VStr "j1"]> (<["type" := VStr "pdf-processing"]>
                {["documentUrl" := VStr "gs://bucket/folder/doc-1.pdf"]}).

(** The [TypeError] of calling [includes] on an absent [message]. *)
Definition includes_crash : value :=
  TypeError "Cannot read properties of undefined (reading 'includes')".

(** Reading off the outcome of a run. *)
Definition is_ok {A} (r : result A) : bool :=
  match r with Ok _ => true | Throw _ => false end.
Definition returned {A} (d : A) (r : result A) : A :=
  match r with Ok a => a | Throw _ => d end.
Definition thrown {A} (r : result A) : value :=
  match r with Ok _ => VUndefined | Throw e => e end.

(** The job [reschedule] hands to [addJob], and the entry [addJob] queues
    for it at [queuedAt]. *)
Definition retry_job (nextJob : obj) (scheduledFor : Z) (lastError : value) : obj :=
  <["lastError" := lastError]>
  (<["scheduledFor" := VStr (Date.iso_text scheduledFor)]>
   (<["retries" := add (or (field nextJob "retries") (VNum 0)) (VNum 1)]> nextJob)).

Definition requeued_job (nextJob : obj) (scheduledFor : Z) (lastError : value)
    (queuedAt : Z) : obj :=
  <["scheduledFor" := VStr (Date.iso_text scheduledFor)]>
  (<["queuedAt" := VStr (Date.iso_text queuedAt)]>
   (retry_job nextJob scheduledFor lastError)).

(** An idle queue manager with its timer running, and a job of a type the
    processor has no pipeline for. *)
Definition idle_queue : QueueManager.state := QueueManager.mk [] false true.

Definition sample_unknown_job (counters : obj) : obj :=
  counters ∪ <["id" := VStr "j2"]> {["type" := VStr "unknown-type"]}.

(** An error as a timed-out connection raises it. *)
Definition timeout_error : value :=
  VObj (<["code" := VStr "ETIMEDOUT"]> {["message" := VStr "connect ETIMEDOUT"]}).

(** The time a queue entry is scheduled for, [None] for an invalid date;
    the entries scheduled for a given time; the entries that share the id
    of the job being processed. *)
Definition scheduled_time (job : obj) : option Z :=
  Date.of_value (field job "scheduledFor").

Definition scheduled_at (t : Z) (job : obj) : bool :=
  match scheduled_time job with
  | Some t' => t' =? t
  | None => false
  end.

Definition other_id (nextJob job : obj) : bool :=
  negb (strict_eq (field job "id") (field nextJob "id")).

(** Every entry carries a date that is read, and so a place in time. *)
Definition well_scheduled (queue : list obj) : Prop :=
  Forall (fun job => is_Some (scheduled_time job)) queue.

(** One entry is scheduled no later than the other. *)
Definition not_later (a b : obj) : Prop :=
  exists x y, scheduled_time a = Some x /\ scheduled_time b = Some y /\ x <= y.

(** A value that [===] compares by content and finds equal to itself: a
    string, a number, a boolean, [null] or [undefined]. *)
Definition compared_by_value (v : value) : Prop :=
  match v with
  | VArr _ | VObj _ | VNaN => False
  | _ => True
  end.

(** A queue entry for worked examples. *)
Definition sample_entry (id : string) (scheduledFor : Z) : obj :=
  <["id" := VStr id]> {["scheduledFor" := VStr (Date.iso_text scheduledFor)]}.

(** A processor that hands every job back, and one that always fails. *)
Definition returning_processor : obj -> M system obj := fun job => mret job.
Definition failing_processor (error : value) : obj -> M system obj := fun _ => throw error.

(** The system the worked examples start from. *)
Definition sample_system : system := (DocumentIntegration.geminiApiLimiter 0, sample_world).

(** The property names of the [result] that [processPdfJob] assembles. *)
Definition result_keys : gset string :=
  {[ "documentId"; "extractedText"; "analysis"; "processedAt" ]}.

(** The keywords [analyzeDocument] samples from, and its sentiments. *)
Definition sampleKeywords : list value :=
  [VStr "important"; VStr "document"; VStr "analysis"; VStr "processing"].
Definition sentiments : list value :=
  [VStr "positive"; VStr "neutral"; VStr "negative"].

(** Every draw of [Math.random] lies in [[0, 1)]. *)
Definition random_in_unit (w : world) : Prop :=
  forall n, (0 <= random w n)%Q /\ (random w n < 1)%Q.

(** No character of the string is one of the two given. *)
Definition free_of (c1 c2 : ascii) (s : string) : bool :=
  forallb (fun c => negb (Ascii.eqb c c1 || Ascii.eqb c c2)) (list_ascii_of_string s).

(** A character of the given alphabet. *)
Definition one_of (chars : string) (c : ascii) : bool :=
  existsb (Ascii.eqb c) (list_ascii_of_string chars).

(** A string follows a template when it has the template's length, a
    hexadecimal digit for every [x], one of [8], [9], [a], [b] for every
    [y], and the template's own character elsewhere. *)
Fixpoint follows_template (template s : string) : bool :=
  match template, s with
  | EmptyString, EmptyString => true
  | String t template', String c s' =>
      (if Ascii.eqb t "x" then one_of "0123456789abcdef" c
       else if Ascii.eqb t "y" then one_of "89ab" c
       else Ascii.eqb c t) && follows_template template' s'
  | _, _ => false
  end.

(** The computation reads nothing but random draws, [n] of them, and writes
    nothing. *)
Definition draws_only (n : nat) (w w' : world) : Prop :=
  w' = mkWorld (clock w) (clock_reads w) (random w) (random_draws w + n) (saved w) (notified w).

(** The number of placeholders of a template. *)
Fixpoint count_xy (template : string) : nat :=
  match template with
  | EmptyString => 0
  | String c rest => (if Ascii.eqb c "x" || Ascii.eqb c "y" then 1 else 0) + count_xy rest
  end.

(** The property names [createJob] gives a default for. *)
Definition default_names : gset string := {[ "id"; "status"; "createdAt"; "updatedAt" ]}.

(** The answer of the cancellation route for a job that is not pending. *)
Definition cancel_refused (status : value) : JobRoutes.response :=
  JobRoutes.mkResponse 400
    (<["error" := VStr "Cannot cancel job"]>
     {["message" := VStr ("Job with status " +:+ dquote +:+ to_string status +:+
          dquote +:+ " cannot be cancelled. Only pending jobs can be cancelled.")]}).

(** The string does not hold the character. *)
Definition lacks (c : ascii) (s : string) : bool :=
  forallb (fun c' => negb (Ascii.eqb c' c)) (list_ascii_of_string s).

(** A non-empty string without a dot. *)
Definition jwt_part (s : string) : Prop := s <> EmptyString /\ lacks "." s = true.

(** * Properties *)

(** ** Worked values of the date and string primitives *)

Example iso_text_epoch : Date.iso_text 0 = "1970-01-01T00:00:00.000Z".
Proof. vm_compute. reflexivity. Qed.
Example iso_text_2025 : Date.iso_text 1740830400000 = "2025-03-01T12:00:00.000Z".
Proof. vm_compute. reflexivity. Qed.
Example parse_2025 : Date.parse "2025-03-01T12:00:00Z" = Some 1740830400000.
Proof. vm_compute. reflexivity. Qed.
Example parse_iso_text : Date.parse (Date.iso_text (-86400001)) = Some (-86400001).
Proof. vm_compute. reflexivity. Qed.
Example parse_feb30 : Date.parse "2025-02-30T12:00:00Z" = None.
Proof. vm_compute. reflexivity. Qed.
Example split_slashes : split "/" "a//b/" = ["a"; EmptyString; "b"; EmptyString].
Proof. vm_compute. reflexivity. Qed.
Example strip_extension_pdf :
  DocumentIntegration.strip_extension "doc-1.tar.pdf" = "doc-1.tar" /\
  DocumentIntegration.strip_extension "doc." = "doc." /\
  DocumentIntegration.strip_extension ".bashrc" = EmptyString.
Proof. vm_compute. repeat split. Qed.
Example hex_digits : map JobManagement.hex [0; 9; 10; 15; 255] = ["0"; "9"; "a"; "f"; "ff"].
Proof. vm_compute. reflexivity. Qed.
Example lt_coercions :
  lt VUndefined (VNum 3) = false /\ lt (VNum 0) (VNum 3) = true /\
  lt (VStr "2") (VNum 3) = true /\ lt VNull (VNum 3) = true.
Proof. vm_compute. repeat split. Qed.

Section RateLimiterFacts.
Import RateLimiter.

Lemma refill_keeps_config now l :
  maxTokens (refill now l) = maxTokens l /\ refillRate (refill now l) = refillRate l.
Proof. unfold refill. destruct (0 <? now - lastRefill l); auto. Qed.

Lemma refill_lastRefill now l :
  lastRefill (refill now l) = if 0 <? now - lastRefill l then now else lastRefill l.
Proof. unfold refill. destruct (0 <? now - lastRefill l); reflexivity. Qed.

(** A refill that leaves the bucket empty added nothing. *)
Lemma refill_empty_keeps_tokens now l :
  limiter_wf l -> tokens (refill now l) < 1 -> tokens (refill now l) = tokens l.
Proof.
  intros (Hmax & Hrate & Hlo & Hhi). unfold refill.
  destruct (0 <? now - lastRefill l) eqn:Helapsed; simpl; [|reflexivity].
  apply Z.ltb_lt in Helapsed.
  pose proof (Z.div_pos (now - lastRefill l) (refillRate l)) as Hk.
  destruct (Z.eq_dec ((now - lastRefill l) / refillRate l) 0) as [Hz|Hnz].
  - rewrite Hz. lia.
  - intros Hlt. exfalso.
    assert (maxTokens l <= (now - lastRefill l) / refillRate l * maxTokens l) by nia.
    lia.
Qed.

(** Within a window of the last refill nothing is added. *)
Lemma refill_within_window now l :
  now - lastRefill l < refillRate l -> tokens (refill now l) <= tokens l.
Proof.
  intros Hgap. unfold refill.
  destruct (0 <? now - lastRefill l) eqn:Helapsed; simpl; [|lia].
  apply Z.ltb_lt in Helapsed.
  rewrite Z.div_small by lia. lia.
Qed.

Lemma execute_limiter {S A} (fn : M S A) now l s :
  let l' := (execute fn now (l, s)).2.1 in
  maxTokens l' = maxTokens l /\ refillRate l' = refillRate l /\
  lastRefill l' = lastRefill (refill now l) /\
  tokens l' <= tokens (refill now l).
Proof.
  unfold execute; simpl.
  destruct (refill_keeps_config now l) as [Hm Hr].
  destruct (tokens (refill now l) <? 1); simpl.
  - repeat split; auto. lia.
  - destruct (fn s) as [r s']; simpl. repeat split; auto. lia.
Qed.

(** The constructor builds a well-formed limiter from positive options, and
    [execute] keeps it well formed. *)
Lemma constructor_wf (maxRequests perTimeWindow now : Z) :
  0 < maxRequests -> 0 < perTimeWindow ->
  limiter_wf (constructor (Some maxRequests) (Some perTimeWindow) now).
Proof.
  intros Hm Hw. unfold limiter_wf, constructor, option_or. simpl.
  destruct (maxRequests =? 0) eqn:E1; [apply Z.eqb_eq in E1; lia|].
  destruct (perTimeWindow =? 0) eqn:E2; [apply Z.eqb_eq in E2; lia|].
  lia.
Qed.

Lemma refill_wf now l : limiter_wf l -> limiter_wf (refill now l).
Proof.
  intros (Hmax & Hrate & Hlo & Hhi). unfold limiter_wf, refill.
  destruct (0 <? now - lastRefill l) eqn:Helapsed; simpl; [|lia].
  apply Z.ltb_lt in Helapsed.
  pose proof (Z.div_pos (now - lastRefill l) (refillRate l)) as Hk.
  assert (0 <= (now - lastRefill l) / refillRate l * maxTokens l) by nia.
  lia.
Qed.

Lemma execute_wf {S A} (fn : M S A) now l s :
  limiter_wf l -> limiter_wf (execute fn now (l, s)).2.1.
Proof.
  intros Hwf. pose proof (refill_wf now l Hwf) as (Hmax & Hrate & Hlo & Hhi).
  unfold execute; simpl.
  destruct (tokens (refill now l) <? 1) eqn:E; simpl.
  - unfold limiter_wf. lia.
  - apply Z.ltb_ge in E. destruct (fn s) as [r s']; simpl.
    unfold limiter_wf; simpl. lia.
Qed.


(** One call of a closely spaced sequence: the last refill is not older
    than the call, and no token comes back. *)
Lemma execute_spaced_step {S A} (fn : M S A) now prev l s :
  prev <= lastRefill l ->
  now - prev < refillRate l ->
  let l' := (execute fn now (l, s)).2.1 in
  tokens l' <= tokens l /\ refillRate l' = refillRate l /\ now <= lastRefill l'.
Proof.
  intros Hprev Hgap.
  pose proof (execute_limiter fn now l s) as (Hm & Hr & Hl & Ht).
  pose proof (refill_within_window now l ltac:(lia)).
  simpl in *. repeat split; [lia|assumption|].
  rewrite Hl, refill_lastRefill.
  destruct (0 <? now - lastRefill l) eqn:E; [lia|]. apply Z.ltb_ge in E. lia.
Qed.

Lemma execute_all_spaced {S A} (calls : list (Z * M S A)) : forall l s prev,
  prev <= lastRefill l ->
  spaced (refillRate l) prev calls ->
  tokens (execute_all calls (l, s)).1 <= tokens l.
Proof.
  induction calls as [|[now fn] rest IH]; intros l s prev Hprev Hsp; simpl in *.
  - lia.
  - destruct Hsp as [Hgap Hrest].
    pose proof (execute_spaced_step fn now prev l s Hprev Hgap) as (Ht & Hr & Hnow).
    destruct (execute fn now (l, s)) as [r [l1 s1]]. simpl in *.
    rewrite <- Hr in Hrest.
    specialize (IH l1 s1 now Hnow Hrest). lia.
Qed.

Lemma execute_all_spaced_prefix {S A} (pre post : list (Z * M S A)) : forall l s prev,
  prev <= lastRefill l ->
  spaced (refillRate l) prev (pre ++ post) ->
  tokens (execute_all (pre ++ post) (l, s)).1 <= tokens (execute_all pre (l, s)).1.
Proof.
  induction pre as [|[now fn] pre IH]; intros l s prev Hprev Hsp; simpl in *.
  - eapply execute_all_spaced; eauto.
  - destruct Hsp as [Hgap Hrest].
    pose proof (execute_spaced_step fn now prev l s Hprev Hgap) as (Ht & Hr & Hnow).
    destruct (execute fn now (l, s)) as [r [l1 s1]]. simpl in *.
    rewrite <- Hr in Hrest. eapply IH; eauto.
Qed.

End RateLimiterFacts.

Section RateLimiterClaims.
Import RateLimiter.


(** C2, as the code has it: when the refill leaves no token, [execute] fails
    with the rate-limit error and does not invoke the operation (the outside
    state [s] is untouched, whatever [fn] is); the token count and the
    configuration stay as they were, but [lastRefill] is advanced to the
    current time as soon as time has passed since the last refill. *)
Theorem execute_rejects_without_invoking {S A} (fn : M S A) (now : Z) (l : t) (s : S) :
  limiter_wf l ->
  tokens (refill now l) < 1 ->
  execute fn now (l, s) =
    (Throw (rate_limit_error (ceil_div_1000 (refillRate l - (now - lastRefill l)))),
     (mk (maxTokens l) (refillRate l) (tokens l)
         (if 0 <? now - lastRefill l then now else lastRefill l), s)).
Proof.
  intros Hwf Hempty. unfold execute. simpl.
  pose proof (refill_empty_keeps_tokens now l Hwf Hempty) as Htok.
  destruct (refill_keeps_config now l) as [Hm Hr].
  pose proof (refill_lastRefill now l) as Hl.
  destruct (tokens (refill now l) <? 1) eqn:E; [|apply Z.ltb_ge in E; lia].
  rewrite Hr. do 2 f_equal.
  destruct (refill now l) as [m r k t0]. simpl in *. congruence.
Qed.

(** A drained five-per-minute limiter asked again one second later. *)
Lemma execute_rejects_without_invoking_witness :
  execute (S := list nat) (fun s => (Ok tt, 1%nat :: s)) 1000 (mk 5 60000 0 0, []) =
    (Throw (rate_limit_error 59), (mk 5 60000 0 1000, [])).
Proof.
  apply (execute_rejects_without_invoking (fun s => (Ok tt, 1%nat :: s)) 1000 (mk 5 60000 0 0) []).
  - unfold limiter_wf. simpl. lia.
  - vm_compute. reflexivity.
Defined.

(** C2 as stated fails: the rejected call leaves a different [lastRefill]
    behind. *)
Lemma execute_rejection_moves_lastRefill :
  tokens (refill 1000 (mk 5 60000 0 0)) < 1 /\
  (execute (S := unit) (fun s => (Ok tt, s)) 1000 (mk 5 60000 0 0, tt)).2.1 <> mk 5 60000 0 0.
Proof.
  split; [vm_compute; reflexivity|].
  vm_compute. intros H. discriminate H.
Qed.



End RateLimiterClaims.

Section BackoffClaims.
Import QueueManager.
Local Open Scope Q_scope.

Lemma pow2_inject (n : Z) : pow2 (inject_Z n) = 2 ^ n.
Proof. unfold pow2. rewrite Qfloor_Z. reflexivity. Qed.

Lemma calculateBackoff_inject (n : Z) (u : Q) :
  calculateBackoff (inject_Z n) u = Qmin 60000 (2 ^ n * 1000 + u * 1000).
Proof. unfold calculateBackoff. rewrite pow2_inject. reflexivity. Qed.

Lemma calculateBackoff_cap (x u : Q) : calculateBackoff x u <= 60000.
Proof. unfold calculateBackoff. apply Q.le_min_l. Qed.




End BackoffClaims.

(** ** Running computations *)

Lemma bind_ok {S A B} (m : M S A) (k : A -> M S B) s a s' :
  m s = (Ok a, s') -> (m ≫= k) s = k a s'.
Proof. intros H. unfold mbind, M_bind. rewrite H. reflexivity. Qed.

Lemma bind_throw {S A B} (m : M S A) (k : A -> M S B) s e s' :
  m s = (Throw e, s') -> (m ≫= k) s = (Throw e, s').
Proof. intros H. unfold mbind, M_bind. rewrite H. reflexivity. Qed.

Lemma run_returned {S A} (c : result A * S) (d : A) :
  is_ok c.1 = true -> c = (Ok (returned d c.1), c.2).
Proof. destruct c as [[a|e] s]; simpl; [reflexivity|discriminate]. Qed.

Lemma run_thrown {S A} (c : result A * S) :
  is_ok c.1 = false -> c = (Throw (thrown c.1), c.2).
Proof. destruct c as [[a|e] s]; simpl; [discriminate|reflexivity]. Qed.

Lemma bind_eval_ok {S A B} (r : result A) (k : A -> M S B) s a :
  r = Ok a -> (eval r ≫= k) s = k a s.
Proof. intros ->. reflexivity. Qed.

Lemma strict_eq_str v s : strict_eq v (VStr s) = true <-> v = VStr s.
Proof.
  destruct v; simpl; try (split; [discriminate|intros H; discriminate H]).
  rewrite String.eqb_eq. split; [intros ->; reflexivity|intros H; injection H; auto].
Qed.

Section JobManagementClaims.
Import JobManagement.

(** The identifier generator always returns. *)
Lemma replace_all_xy_total template : forall w,
  exists s w', replace_all_xy template w = (Ok s, w').
Proof.
  induction template as [|c rest IH]; intros w; simpl.
  - eexists _, _. reflexivity.
  - destruct (Ascii.eqb c "x" || Ascii.eqb c "y").
    + unfold replace_xy, Math_random, mbind, M_bind, mret, M_ret. simpl.
      match goal with |- context [replace_all_xy rest ?w1] =>
        destruct (IH w1) as (s & w' & ->) end.
      eexists _, _. reflexivity.
    + unfold mbind, M_bind, mret, M_ret. simpl.
      destruct (IH w) as (s & w' & ->).
      eexists _, _. reflexivity.
Qed.

(** C8, as the code has it: [createJob] always returns a job; its status is
    ['pending'] and its id the generated identifier unless [jobData] carries
    a property of that name, whose value then replaces the default. *)
Theorem createJob_defaults_yield_to_jobData (jobData : obj) (w : world) :
  exists id w1 job w',
    generateId w = (Ok id, w1) /\
    createJob jobData w = (Ok job, w') /\
    job !! "status" = Some (default (VStr "pending") (jobData !! "status")) /\
    job !! "id" = Some (default (VStr id) (jobData !! "id")).
Proof.
  destruct (replace_all_xy_total "xxxxxxxx-xxxx-4xxx-yxxx-xxxxxxxxxxxx" w) as (id & w1 & Hid).
  exists id, w1. unfold createJob.
  rewrite (bind_ok _ _ _ _ _ Hid).
  unfold now_iso, Date_now, mbind, M_bind, mret, M_ret. simpl.
  eexists _, _. split; [exact Hid|]. split; [reflexivity|].
  split; rewrite lookup_union.
  - destruct (jobData !! "status"); reflexivity.
  - destruct (jobData !! "id"); reflexivity.
Qed.

(** C8 as stated fails: a payload with its own [id] and [status] keeps
    them. *)
Lemma createJob_payload_overrides :
  let jobData : obj := <["id" := VStr "mine"]> {["status" := VStr "completed"]} in
  (generateId sample_world).1 = Ok "88888888-8888-4888-8888-888888888888" /\
  match (createJob jobData sample_world).1 with
  | Ok job => job !! "status" = Some (VStr "completed") /\ job !! "id" = Some (VStr "mine")
  | Throw _ => False
  end.
Proof. vm_compute. split; [reflexivity|split; reflexivity]. Qed.

End JobManagementClaims.

Section JobRoutesClaims.
Import JobRoutes.

Lemma findJobById_stored jobId store w job :
  store !! jobId = Some job ->
  findJobById jobId (store, w) = (Ok (VObj job), (store, w)).
Proof.
  intros H. unfold findJobById, try_catch, jobStore_get, gets, on_snd,
    JobIntegration.fetchJobFromFirebase, mbind, M_bind, mret, M_ret.
  simpl. rewrite H. reflexivity.
Qed.

(** C6: for a stored job whose status is not ['pending'] the cancellation
    answers with the error "Cannot cancel job" (HTTP 400) and leaves the
    store, the saved snapshots and the notifications as they were; and a
    cancellation that succeeds found the job ['pending']. *)
Theorem cancelJob_only_from_pending (req : request) (store : gmap string obj)
    (w : world) (job : obj) :
  store !! jobId req = Some job ->
  (field job "status" <> VStr "pending" ->
   cancelJob req (store, w) =
     (Ok (mkResponse 400
            (<["error" := VStr "Cannot cancel job"]>
             {["message" := VStr ("Job with status " +:+ dquote +:+
                  to_string (field job "status") +:+ dquote +:+
                  " cannot be cancelled. Only pending jobs can be cancelled.")]})),
      (store, w))) /\
  (forall resp st', cancelJob req (store, w) = (Ok resp, st') ->
     status resp = 200 -> field job "status" = VStr "pending").
Proof.
  intros Hstored.
  assert (Hrun : strict_eq (field job "status") (VStr "pending") = false ->
    cancelJob req (store, w) =
     (Ok (mkResponse 400
            (<["error" := VStr "Cannot cancel job"]>
             {["message" := VStr ("Job with status " +:+ dquote +:+
                  to_string (field job "status") +:+ dquote +:+
                  " cannot be cancelled. Only pending jobs can be cancelled.")]})),
      (store, w))).
  { intros Hne. unfold cancelJob, try_catch.
    rewrite (bind_ok _ _ _ _ _ (findJobById_stored _ _ _ _ Hstored)).
    unfold eval, mbind, M_bind, mret, M_ret. simpl. rewrite Hne. reflexivity. }
  split.
  - intros Hne. apply Hrun.
    destruct (strict_eq (field job "status") (VStr "pending")) eqn:E; [|reflexivity].
    apply strict_eq_str in E. contradiction.
  - intros resp st' Hok H200.
    destruct (strict_eq (field job "status") (VStr "pending")) eqn:E.
    + apply strict_eq_str. exact E.
    + rewrite (Hrun eq_refl) in Hok. injection Hok as <- _. simpl in H200. discriminate.
Qed.

Lemma cancelJob_only_from_pending_witness :
  let job : obj := <["id" := VStr "j7"]> {["status" := VStr "processing"]} in
  let store : gmap string obj := {["j7" := job]} in
  let req := mkRequest "j7" VUndefined (VObj ∅) in
  store !! jobId req = Some job /\
  field job "status" <> VStr "pending" /\
  (cancelJob req (store, sample_world)).2 = (store, sample_world) /\
  status <$> (match (cancelJob req (store, sample_world)).1 with
              | Ok r => Some r | Throw _ => None end) = Some 400.
Proof.
  intros job store req.
  assert (Hstored : store !! jobId req = Some job) by reflexivity.
  assert (Hne : field job "status" <> VStr "pending") by (vm_compute; discriminate).
  destruct (cancelJob_only_from_pending req store sample_world job Hstored) as [Hrej _].
  split; [exact Hstored|]. split; [exact Hne|].
  rewrite (Hrej Hne). split; reflexivity.
Defined.

End JobRoutesClaims.

Section TaskProcessorClaims.
Import TaskProcessor.

(** A classified error is not [undefined] or [null]: its properties can be
    read. *)
Lemma classified_error_readable error b k :
  isTransientError error = Ok b -> exists v, get_prop error k = Ok v.
Proof.
  destruct error; simpl; intros H; try discriminate H; eexists; reflexivity.
Qed.

(** The [catch] block on a classified error: one more snapshot saved and
    notified, and the error thrown again. *)
Lemma handle_failure_classified job error b (l : RateLimiter.t) (w : world) :
  isTransientError error = Ok b ->
  exists message code,
    get_prop error "message" = Ok message /\ get_prop error "code" = Ok code /\
    let snapshot := failure_snapshot job b message code
                      (clock w (clock_reads w)) (clock w (S (clock_reads w))) in
    handle_failure job error (l, w) =
      (Throw error,
       (l, job_notified snapshot (job_saved snapshot (clock_read (clock_read w))))).
Proof.
  intros Hb.
  destruct (classified_error_readable error b "message" Hb) as [message Hm].
  destruct (classified_error_readable error b "code" Hb) as [code Hc].
  exists message, code. split; [exact Hm|]. split; [exact Hc|].
  unfold handle_failure, eval, mbind, M_bind. rewrite Hb, Hm, Hc. reflexivity.
Qed.

Lemma isTransientError_without_message (o : obj) :
  o !! "message" = None ->
  field o "code" <> VStr "ETIMEDOUT" ->
  field o "code" <> VStr "ECONNRESET" ->
  field o "code" <> VStr "ECONNREFUSED" ->
  isTransientError (VObj o) = Throw includes_crash.
Proof.
  intros Hm H1 H2 H3. unfold isTransientError. simpl.
  unfold field. rewrite Hm. simpl.
  destruct (strict_eq (default VUndefined (o !! "code")) (VStr "ETIMEDOUT")) eqn:E1;
    [apply strict_eq_str in E1; contradiction|].
  destruct (strict_eq (default VUndefined (o !! "code")) (VStr "ECONNRESET")) eqn:E2;
    [apply strict_eq_str in E2; contradiction|].
  destruct (strict_eq (default VUndefined (o !! "code")) (VStr "ECONNREFUSED")) eqn:E3;
    [apply strict_eq_str in E3; contradiction|].
  reflexivity.
Qed.

(** C9: on an error object with no [message] property and a [code] that is
    none of the three network codes, [isTransientError] throws a [TypeError]
    (it calls [includes] on [undefined]) instead of answering [false]; the
    [catch] block of [processJob] then ends with that [TypeError] and the
    state it started from, and [processJob] as a whole throws it with
    nothing saved or notified after the pipeline failed. *)
Theorem isTransientError_crashes_without_message (o : obj) (job : obj) (st : system) :
  o !! "message" = None ->
  field o "code" <> VStr "ETIMEDOUT" ->
  field o "code" <> VStr "ECONNRESET" ->
  field o "code" <> VStr "ECONNREFUSED" ->
  isTransientError (VObj o) = Throw includes_crash /\
  handle_failure job (VObj o) st = (Throw includes_crash, st) /\
  forall fetchDocument gemini st1,
    process_steps fetchDocument gemini job st = (Throw (VObj o), st1) ->
    processJob fetchDocument gemini job st = (Throw includes_crash, st1).
Proof.
  intros Hm H1 H2 H3.
  pose proof (isTransientError_without_message o Hm H1 H2 H3) as Hcrash.
  assert (Hhandler : forall st', handle_failure job (VObj o) st' = (Throw includes_crash, st')).
  { intros st'. unfold handle_failure, eval, mbind, M_bind. rewrite Hcrash. reflexivity. }
  split; [exact Hcrash|]. split; [apply Hhandler|].
  intros fetchDocument gemini st1 Hsteps.
  unfold processJob, try_catch. rewrite Hsteps. apply Hhandler.
Qed.

(** A fetcher failing with [{code: 'EOTHER'}]: the job is left recorded as
    ['processing']. *)
Lemma isTransientError_crashes_without_message_witness :
  let error : obj := {["code" := VStr "EOTHER"]} in
  let job := sample_pdf_job ∅ in
  let st := (DocumentIntegration.geminiApiLimiter 0, sample_world) in
  let out := processJob (failing_fetch (VObj error)) sample_gemini job st in
  isTransientError (VObj error) = Throw includes_crash /\
  out.1 = Throw includes_crash /\
  statuses (saved out.2.2) = [VStr "processing"] /\
  statuses (notified out.2.2) = [VStr "processing"].
Proof.
  intros error job st out.
  assert (Hm : error !! "message" = None) by reflexivity.
  assert (H1 : field error "code" <> VStr "ETIMEDOUT") by (vm_compute; discriminate).
  assert (H2 : field error "code" <> VStr "ECONNRESET") by (vm_compute; discriminate).
  assert (H3 : field error "code" <> VStr "ECONNREFUSED") by (vm_compute; discriminate).
  destruct (isTransientError_crashes_without_message error job st Hm H1 H2 H3)
    as (Hcrash & _ & Hprocess).
  split; [exact Hcrash|].
  assert (Hsteps : exists st1,
            process_steps (failing_fetch (VObj error)) sample_gemini job st
              = (Throw (VObj error), st1) /\
            statuses (saved st1.2) = [VStr "processing"] /\
            statuses (notified st1.2) = [VStr "processing"]).
  { eexists. split; [vm_compute; reflexivity|]. split; vm_compute; reflexivity. }
  destruct Hsteps as (st1 & Hsteps & Hsaved & Hnotified).
  subst out. rewrite (Hprocess _ _ _ Hsteps). simpl.
  split; [reflexivity|]. split; assumption.
Defined.

(** C1, as the code has it: when the pipeline fails with an error that
    [isTransientError] classifies, [processJob] saves one more snapshot and
    throws the error again; the snapshot's status is ['retry'] for a
    transient error and ['failed'] for any other, whatever the job's
    [retries] and [maxRetries] are, and both counters are left as they
    were. *)
Theorem processJob_failure_status_ignores_retries
    (fetchDocument gemini : value -> M world value)
    (job : obj) (st st1 : system) (error : value) (isTransient : bool) :
  process_steps fetchDocument gemini job st = (Throw error, st1) ->
  isTransientError error = Ok isTransient ->
  exists snapshot st2,
    processJob fetchDocument gemini job st = (Throw error, st2) /\
    saved st2.2 = saved st1.2 ++ [snapshot] /\
    snapshot !! "status" = Some (VStr (if isTransient then "retry" else "failed")) /\
    snapshot !! "retries" = job !! "retries" /\
    snapshot !! "maxRetries" = job !! "maxRetries".
Proof.
  intros Hsteps Hclass. destruct st1 as [l w].
  destruct (handle_failure_classified job error isTransient l w Hclass)
    as (message & code & _ & _ & Hhandler).
  eexists _, _. split.
  { unfold processJob, try_catch. rewrite Hsteps. exact Hhandler. }
  split; [reflexivity|]. unfold failure_snapshot.
  split; [|split].
  - rewrite lookup_insert_ne by done. rewrite lookup_insert_ne by done.
    apply lookup_insert_eq.
  - rewrite !lookup_insert_ne by done. reflexivity.
  - rewrite !lookup_insert_ne by done. reflexivity.
Qed.

(** A job at [retries = maxRetries = 3] whose fetch fails with ETIMEDOUT. *)
Lemma processJob_failure_status_ignores_retries_witness :
  let job := sample_pdf_job (<["retries" := VNum 3]> {["maxRetries" := VNum 3]}) in
  let error := VObj (<["code" := VStr "ETIMEDOUT"]> {["message" := VStr "connect ETIMEDOUT"]}) in
  let st := (DocumentIntegration.geminiApiLimiter 0, sample_world) in
  exists (snapshot : obj) st2,
    processJob (failing_fetch error) sample_gemini job st = (Throw error, st2) /\
    last (saved st2.2) = Some snapshot /\
    snapshot !! "status" = Some (VStr "retry") /\
    snapshot !! "retries" = Some (VNum 3) /\
    snapshot !! "maxRetries" = Some (VNum 3).
Proof.
  intros job error st.
  assert (Hsteps : exists st1,
            process_steps (failing_fetch error) sample_gemini job st = (Throw error, st1)).
  { eexists. vm_compute. reflexivity. }
  destruct Hsteps as (st1 & Hsteps).
  assert (Hclass : isTransientError error = Ok true) by (vm_compute; reflexivity).
  destruct (processJob_failure_status_ignores_retries _ _ _ _ _ _ _ Hsteps Hclass)
    as (snapshot & st2 & Hrun & Hsaved & Hstatus & Hretries & Hmax).
  exists snapshot, st2. split; [exact Hrun|].
  split; [rewrite Hsaved; apply last_snoc|]. split; [exact Hstatus|].
  split; [rewrite Hretries|rewrite Hmax]; reflexivity.
Defined.

(** C1 as stated fails: with [retries = maxRetries = 3] a fetch that fails
    with ETIMEDOUT is recorded as ['retry'], and so is an unsupported type
    whose name holds the word "timeout". *)
Lemma processJob_records_retry_at_maxRetries :
  let counters : obj := <["retries" := VNum 3]> {["maxRetries" := VNum 3]} in
  let error := VObj (<["code" := VStr "ETIMEDOUT"]> {["message" := VStr "connect ETIMEDOUT"]}) in
  let st := (DocumentIntegration.geminiApiLimiter 0, sample_world) in
  let out := processJob (failing_fetch error) sample_gemini (sample_pdf_job counters) st in
  let out' := processJob DocumentIntegration.fetchDocument sample_gemini
                (<["type" := VStr "pdf-timeout"]> (sample_pdf_job counters)) st in
  isTransientError error = Ok true /\
  out.1 = Throw error /\
  statuses (saved out.2.2) = [VStr "processing"; VStr "retry"] /\
  statuses (saved out'.2.2) = [VStr "processing"; VStr "retry"].
Proof.
  vm_compute. split; [reflexivity|]. split; [reflexivity|]. split; reflexivity.
Qed.

(** ** The analysis stage *)

Lemma on_snd_run {S T A} (m : M T A) (s : S) (t : T) r t' :
  m t = (r, t') -> on_snd m (s, t) = (r, (s, t')).
Proof. intros H. unfold on_snd. simpl. rewrite H. reflexivity. Qed.

Lemma filter_random_total items : forall w,
  exists kept w', DocumentProcessing.filter_random items w = (Ok kept, w').
Proof.
  induction items as [|x rest IH]; intros w; simpl.
  - eexists _, _. reflexivity.
  - unfold Math_random, mbind, M_bind, mret, M_ret. simpl.
    destruct (IH (random_drawn w)) as (kept & w' & ->).
    eexists _, _. reflexivity.
Qed.

(** [analyzeDocument] always returns its argument with an [analysis] object
    added, and that object holds no Gemini insight. *)
Lemma analyzeDocument_total (documentWithText : obj) (w : world) :
  exists analysis w',
    DocumentProcessing.analyzeDocument documentWithText w =
      (Ok (<["analysis" := VObj analysis]> documentWithText), w') /\
    analysis !! "geminiAnalysis" = None /\ analysis !! "insight" = None.
Proof.
  unfold DocumentProcessing.analyzeDocument.
  destruct (negb (truthy (field documentWithText "extractedText"))).
  - eexists _, _. split; [reflexivity|]. split; reflexivity.
  - unfold mbind, M_bind.
    destruct (Math_random w) as [[u|e] w1] eqn:Hu; [|discriminate Hu].
    match goal with |- context [DocumentProcessing.filter_random ?l w1] =>
      destruct (filter_random_total l w1) as (kept & w2 & ->) end.
    unfold Math_random, now_iso, Date_now, mbind, M_bind, mret, M_ret.
    eexists _, _. split; [reflexivity|]. split; reflexivity.
Qed.

(** What [callGeminiForAnalysis] throws has a readable [message]: its own
    [catch] block read it already. *)
Lemma callGeminiForAnalysis_error_readable gemini text st error st' :
  DocumentIntegration.callGeminiForAnalysis gemini text st = (Throw error, st') ->
  exists v, get_prop error "message" = Ok v.
Proof.
  unfold DocumentIntegration.callGeminiForAnalysis, try_catch.
  match goal with |- context [match ?body st with _ => _ end] =>
    destruct (body st) as [[a|e0] s0] end.
  - discriminate.
  - unfold eval, throw, mbind, M_bind.
    destruct (get_prop e0 "message") as [v|te] eqn:E.
    + intros H. injection H as <- _. eauto.
    + intros H. injection H as <- _.
      destruct e0; simpl in E; try discriminate E; injection E as <-;
        eexists; reflexivity.
Qed.

(** The text [extractTextFromDocument] puts on the document. *)
Lemma extractTextFromDocument_text document w documentWithText w' :
  DocumentProcessing.extractTextFromDocument document w = (Ok documentWithText, w') ->
  exists text, documentWithText !! "extractedText" = Some (VStr text).
Proof.
  unfold DocumentProcessing.extractTextFromDocument, eval, now_iso, Date_now,
    mbind, M_bind, mret, M_ret.
  destruct (get_prop document "content") as [content|e]; [|discriminate].
  destruct (truthy content).
  - destruct (DocumentProcessing.call_substring content 30) as [front|e]; [|discriminate].
    destruct (get_prop document "format") as [format|e]; [|discriminate].
    intros H. injection H as <- _. eexists.
    rewrite lookup_insert_ne by done. apply lookup_insert_eq.
  - destruct (get_prop document "format") as [format|e]; [|discriminate].
    intros H. injection H as <- _. eexists.
    rewrite lookup_insert_ne by done. apply lookup_insert_eq.
Qed.

(** When the PDF pipeline returns, [processJob] records ['completed'] and
    returns the job with the pipeline's result on it. *)
Lemma processJob_completes_after_pipeline
    (fetchDocument gemini : value -> M world value)
    (job job' : obj) (l l' : RateLimiter.t) (w w' : world) :
  strict_eq (field job "type") (VStr "pdf-processing") = true ->
  let processing := <["updatedAt" := VStr (Date.iso_text (clock w (clock_reads w)))]>
                    (<["status" := VStr "processing"]> job) in
  processPdfJob fetchDocument gemini processing
    (l, job_notified processing (job_saved processing (clock_read w))) = (Ok job', (l', w')) ->
  let completed := <["updatedAt" := VStr (Date.iso_text (clock w' (clock_reads w')))]>
                   (<["status" := VStr "completed"]> job') in
  processJob fetchDocument gemini job (l, w) =
    (Ok completed, (l', job_notified completed (job_saved completed (clock_read w')))) /\
  completed !! "result" = job' !! "result".
Proof.
  intros Htype processing Hpipeline completed. split.
  - unfold processJob, try_catch, process_steps. rewrite Htype.
    unfold JobManagement.updateJobStatus, JobIntegration.saveJob,
      JobIntegration.notifyJobStatusChange, now_iso, Date_now, on_snd,
      mbind, M_bind, mret, M_ret. simpl.
    fold processing. rewrite Hpipeline. reflexivity.
  - unfold completed. rewrite !lookup_insert_ne by done. reflexivity.
Qed.

(** C5: for a PDF job that reaches the analysis stage (the document was
    fetched and its text extracted, and the job did not opt out of the
    analysis), a failing analysis call, whatever it throws, does not fail
    [processPdfJob]: it returns the job with a [result] that holds the
    extracted text and neither a [geminiAnalysis] nor an [insight]
    property, in the result or in its [analysis]. *)
Theorem processPdfJob_survives_analysis_failure
    (fetchDocument gemini : value -> M world value)
    (job : obj) (l : RateLimiter.t) (w w1 w2 : world)
    (document documentId : value) (documentWithText : obj)
    (error : value) (st3 : system) :
  truthy (field job "documentUrl") = true ->
  strict_eq (field job "analyzeContent") (VBool false) = false ->
  fetchDocument (field job "documentUrl") w = (Ok document, w1) ->
  get_prop document "id" = Ok documentId ->
  DocumentProcessing.extractTextFromDocument document w1 = (Ok documentWithText, w2) ->
  DocumentIntegration.callGeminiForAnalysis gemini
    (field documentWithText "extractedText") (l, w2) = (Throw error, st3) ->
  exists job' st4 (result analysis : obj) text,
    processPdfJob fetchDocument gemini job (l, w) = (Ok job', st4) /\
    job' !! "result" = Some (VObj result) /\
    documentWithText !! "extractedText" = Some (VStr text) /\
    result !! "extractedText" = Some (VStr text) /\
    result !! "geminiAnalysis" = None /\
    result !! "insight" = None /\
    result !! "analysis" = Some (VObj analysis) /\
    analysis !! "geminiAnalysis" = None /\
    analysis !! "insight" = None.
Proof.
  intros Hurl Hopt Hfetch Hid Hextract Hcall.
  destruct (extractTextFromDocument_text _ _ _ _ Hextract) as [text Htext].
  destruct (callGeminiForAnalysis_error_readable _ _ _ _ _ Hcall) as [message Hmessage].
  destruct st3 as [l3 w3].
  destruct (analyzeDocument_total documentWithText w3) as (analysis & w4 & Hanalyze & Hg & Hi).
  exists (<["result" := VObj
             (<["documentId" := documentId]>
              (<["extractedText" := VStr text]>
               (<["analysis" := VObj analysis]>
                {["processedAt" := VStr (Date.iso_text (clock w4 (clock_reads w4)))]})))]> job),
    (l3, clock_read w4).
  eexists _, analysis, text.
  split.
  - unfold processPdfJob. rewrite Hurl. simpl.
    rewrite (bind_ok _ _ _ _ _ (on_snd_run _ _ _ _ _ Hfetch)).
    rewrite (bind_eval_ok _ _ _ _ Hid).
    rewrite (bind_ok _ _ _ _ _ (on_snd_run _ _ _ _ _ Hextract)).
    rewrite Hopt. simpl.
    erewrite bind_ok; cycle 1.
    { unfold try_catch. erewrite bind_throw by exact Hcall.
      unfold eval, mbind, M_bind. rewrite Hmessage.
      apply on_snd_run. exact Hanalyze. }
    unfold now_iso, Date_now, on_snd, mbind, M_bind, mret, M_ret. simpl.
    unfold field. rewrite lookup_insert_eq.
    rewrite lookup_insert_ne by done. rewrite Htext. reflexivity.
  - split; [apply lookup_insert_eq|]. split; [exact Htext|].
    split; [rewrite lookup_insert_ne by done; apply lookup_insert_eq|].
    split; [reflexivity|]. split; [reflexivity|].
    split; [|split; assumption].
    rewrite !lookup_insert_ne by done. apply lookup_insert_eq.
Qed.

(** The sample job against a drained limiter: the analysis call is refused
    with the rate-limit error and the job keeps its extracted text. *)
Lemma processPdfJob_survives_analysis_failure_witness :
  let job := sample_pdf_job ∅ in
  let drained := RateLimiter.mk 5 60000 0 1740830400000 in
  exists job' st4 (result : obj),
    processPdfJob DocumentIntegration.fetchDocument sample_gemini job
      (drained, sample_world) = (Ok job', st4) /\
    job' !! "result" = Some (VObj result) /\
    result !! "extractedText" =
      Some (VStr "Simulated extraction from This is sample content for doc...") /\
    result !! "geminiAnalysis" = None /\
    result !! "insight" = None /\
    statuses (saved (processJob DocumentIntegration.fetchDocument sample_gemini job
                       (drained, sample_world)).2.2)
      = [VStr "processing"; VStr "completed"].
Proof.
  intros job drained.
  set (fetched := DocumentIntegration.fetchDocument (field job "documentUrl") sample_world).
  set (document := returned VUndefined fetched.1).
  set (extracted := DocumentProcessing.extractTextFromDocument document fetched.2).
  set (documentWithText := returned (∅ : obj) extracted.1).
  set (called := DocumentIntegration.callGeminiForAnalysis sample_gemini
                   (field documentWithText "extractedText") (drained, extracted.2)).
  assert (Hfetch : fetched = (Ok document, fetched.2))
    by (apply run_returned; vm_compute; reflexivity).
  assert (Hid : get_prop document "id" = Ok (VStr "doc-1")) by (vm_compute; reflexivity).
  assert (Hextract : extracted = (Ok documentWithText, extracted.2))
    by (apply run_returned; vm_compute; reflexivity).
  assert (Htext : documentWithText !! "extractedText" =
            Some (VStr "Simulated extraction from This is sample content for doc..."))
    by (vm_compute; reflexivity).
  assert (Hcall : called = (Throw (thrown called.1), called.2))
    by (apply run_thrown; vm_compute; reflexivity).
  assert (Hurl : truthy (field job "documentUrl") = true) by (vm_compute; reflexivity).
  assert (Hopt : strict_eq (field job "analyzeContent") (VBool false) = false)
    by (vm_compute; reflexivity).
  destruct (processPdfJob_survives_analysis_failure
              DocumentIntegration.fetchDocument sample_gemini job drained
              sample_world fetched.2 extracted.2 document (VStr "doc-1") documentWithText
              (thrown called.1) called.2
              Hurl Hopt Hfetch Hid Hextract Hcall)
    as (job' & st4 & result & analysis & text & Hrun & Hresult & Htext' & Hkept & Hg & Hi & _).
  exists job', st4, result.
  split; [exact Hrun|]. split; [exact Hresult|].
  split; [rewrite Hkept; rewrite <- Htext', Htext; reflexivity|].
  split; [assumption|]. split; [assumption|].
  vm_compute. reflexivity.
Defined.

End TaskProcessorClaims.

Section QueueManagerClaims.
Import QueueManager.
Local Open Scope Q_scope.

Lemma Qlt_bool_iff (x y : Q) : Qlt_bool x y = true <-> x < y.
Proof.
  unfold Qlt_bool. rewrite negb_true_iff. split.
  - intros H. apply Qnot_le_lt. intros Hle. apply Qle_bool_iff in Hle. congruence.
  - intros H. destruct (Qle_bool y x) eqn:E; [|reflexivity].
    apply Qle_bool_iff in E. exfalso. apply (Qlt_not_le _ _ H E).
Qed.

(** Nothing compares below anything when it is [undefined]. *)
Lemma lt_undefined (v : value) : lt VUndefined v = false.
Proof. unfold lt. simpl. destruct (to_primitive v); reflexivity. Qed.

(** The slip behind C3: a job with no [retries] property is never put back,
    whatever the error and whatever its [maxRetries]. *)
Lemma reschedule_without_retries (nextJob : obj) (error : value) (st : state * system) :
  nextJob !! "retries" = None ->
  reschedule nextJob error st = (Ok tt, st).
Proof.
  intros H. unfold reschedule.
  replace (field nextJob "retries") with VUndefined
    by (unfold field; rewrite H; reflexivity).
  rewrite lt_undefined. reflexivity.
Qed.

(** With the comparison false the [catch] block only logs. *)
Lemma reschedule_exhausted (nextJob : obj) (error : value) (st : state * system) :
  lt (field nextJob "retries") (or (field nextJob "maxRetries") (VNum 3)) = false ->
  reschedule nextJob error st = (Ok tt, st).
Proof. intros H. unfold reschedule. rewrite H. reflexivity. Qed.

Lemma iso_text_truthy (t : Z) : truthy (VStr (Date.iso_text t)) = true.
Proof.
  unfold Date.iso_text. destruct (Date.civil_from_days (t / 86400000)%Z) as [[y m] d].
  simpl. match goal with |- context [String.eqb (?a +:+ ?b) EmptyString] =>
    destruct a; reflexivity end.
Qed.

(** With the comparison true the job goes back on the queue, one retry
    further and scheduled at the backoff delay from now. *)
Lemma reschedule_requeues (nextJob : obj) (error message : value)
    (q : state) (l : RateLimiter.t) (w : world) (count : Q) (t : Z) :
  lt (field nextJob "retries") (or (field nextJob "maxRetries") (VNum 3)) = true ->
  to_number (or (field nextJob "retries") (VNum 0)) = Some count ->
  Date.time_clip (Date.truncate
    (inject_Z (clock w (clock_reads w)) +
     calculateBackoff count (random w (random_draws w)))) = Some t ->
  get_prop error "message" = Ok message ->
  truthy (field nextJob "id") = true ->
  reschedule nextJob error (q, (l, w)) =
    (Ok tt,
     (mk (jobQueue q ++ [requeued_job nextJob t message (clock w (S (clock_reads w)))])
         (isProcessing q) (checkInterval q),
      (l, clock_read (clock_read (random_drawn w))))).
Proof.
  intros Hlt Hcount Hclip Hmessage Hid.
  unfold reschedule. rewrite Hlt.
  unfold on_snd, Math_random, Date_now, eval, mbind, M_bind, mret, M_ret. simpl.
  rewrite Hcount. simpl. rewrite Hclip. simpl. rewrite Hmessage.
  unfold addJob, field.
  rewrite lookup_insert_ne by done. rewrite lookup_insert_ne by done.
  rewrite lookup_insert_ne by done.
  unfold field in Hid. rewrite Hid. simpl.
  unfold on_snd, now_iso, Date_now, set_jobQueue, modify, mbind, M_bind, mret, M_ret. simpl.
  rewrite lookup_insert_ne by done. rewrite lookup_insert_eq. simpl.
  pose proof (iso_text_truthy t) as Htruthy. simpl in Htruthy.
  rewrite Htruthy. reflexivity.
Qed.

Lemma pow2_pos (x : Q) : 0 < pow2 x.
Proof. unfold pow2. apply Qpower_0_lt. reflexivity. Qed.

(** A non-negative jitter gives a non-negative delay, and the retry time is
    a valid date within a minute of a valid now. *)
Lemma retry_time_valid (now : Z) (count u : Q) :
  0 <= u ->
  (Z.abs now <= Date.max_time - 60000)%Z ->
  exists t,
    Date.time_clip (Date.truncate (inject_Z now + calculateBackoff count u)) = Some t /\
    (now <= t <= now + 60000)%Z.
Proof.
  intros Hu Hnow.
  set (d := calculateBackoff count u).
  assert (Hd : 0 <= d /\ d <= 60000).
  { split; [|apply calculateBackoff_cap].
    unfold d, calculateBackoff. apply Q.min_glb; [discriminate|].
    pose proof (pow2_pos count). nra. }
  assert (Hlo : inject_Z now <= inject_Z now + d) by lra.
  assert (Hhi : inject_Z now + d <= inject_Z (now + 60000)).
  { rewrite inject_Z_plus. change (inject_Z 60000) with 60000. lra. }
  assert (Hbounds : (now <= Date.truncate (inject_Z now + d) <= now + 60000)%Z).
  { pose proof (Qfloor_resp_le _ _ Hlo) as Hf1. rewrite Qfloor_Z in Hf1.
    pose proof (Qfloor_resp_le _ _ Hhi) as Hf2. rewrite Qfloor_Z in Hf2.
    pose proof (Qceiling_resp_le _ _ Hlo) as Hc1. rewrite Qceiling_Z in Hc1.
    pose proof (Qceiling_resp_le _ _ Hhi) as Hc2. rewrite Qceiling_Z in Hc2.
    unfold Date.truncate. destruct (Qle_bool 0 (inject_Z now + d)); lia. }
  exists (Date.truncate (inject_Z now + d)). split; [|exact Hbounds].
  unfold Date.time_clip.
  destruct (Z.abs (Date.truncate (inject_Z now + d)) <=? Date.max_time)%Z eqn:E;
    [reflexivity|].
  apply Z.leb_gt in E. unfold Date.max_time in *. lia.
Qed.

(** The [try] block on a type without a pipeline: the ['processing']
    snapshot is saved and notified, then the error is thrown. *)
Lemma process_steps_unsupported fetchDocument gemini (job : obj)
    (l : RateLimiter.t) (w : world) :
  strict_eq (field job "type") (VStr "pdf-processing") = false ->
  let processing := <["updatedAt" := VStr (Date.iso_text (clock w (clock_reads w)))]>
                    (<["status" := VStr "processing"]> job) in
  TaskProcessor.process_steps fetchDocument gemini job (l, w) =
    (Throw (unsupported_type_error job),
     (l, job_notified processing (job_saved processing (clock_read w)))).
Proof.
  intros Htype. unfold TaskProcessor.process_steps. rewrite Htype.
  reflexivity.
Qed.

Lemma or_number_count (retries : Q) :
  exists count,
    to_number (or (VNum retries) (VNum 0)) = Some count /\
    add (or (VNum retries) (VNum 0)) (VNum 1) = VNum (count + 1) /\
    count == retries.
Proof.
  unfold or. simpl. destruct (Qeq_bool retries 0) eqn:E; simpl.
  - exists 0. split; [reflexivity|]. split; [reflexivity|].
    apply Qeq_bool_iff in E. symmetry. exact E.
  - exists retries. split; [reflexivity|]. split; reflexivity.
Qed.

(** C4 at the failing input: the unknown-type job submitted with
    [retries: 0] is recorded as ['failed'], the classifier having answered
    that its error is not transient, and the tick then puts it back on the
    queue with [retries: 1] all the same: the [catch] block of
    [processNextJob] goes by the counters alone and never reads the
    classification. *)
Theorem unsupported_type_is_requeued :
  let job := sample_unknown_job {["retries" := VNum 0]} in
  let processor := TaskProcessor.processJob DocumentIntegration.fetchDocument sample_gemini in
  let queued := (addJob job (idle_queue, (DocumentIntegration.geminiApiLimiter 0, sample_world))).2 in
  let after := (processNextJob (Some processor) queued).2 in
  statuses (saved after.2.2) = [VStr "processing"; VStr "failed"] /\
  map (fun entry : obj => (entry !! "id", entry !! "retries")) (jobQueue after.1)
    = [(Some (VStr "j2"), Some (VNum 1))].
Proof. vm_compute. split; reflexivity. Qed.

(** C3 at the failing input: a PDF job with no [retries] property whose
    fetch times out is recorded as ['retry'] and dropped from the queue,
    although it never was retried; the same job with [retries: 0] goes back
    on the queue. *)
Theorem processNextJob_drops_job_without_retries :
  let processor := TaskProcessor.processJob (failing_fetch timeout_error) sample_gemini in
  let st := (DocumentIntegration.geminiApiLimiter 0, sample_world) in
  let run (job : obj) := (processNextJob (Some processor) (addJob job (idle_queue, st)).2).2 in
  sample_pdf_job ∅ !! "retries" = None /\
  statuses (saved (run (sample_pdf_job ∅)).2.2) = [VStr "processing"; VStr "retry"] /\
  jobQueue (run (sample_pdf_job ∅)).1 = [] /\
  map (fun entry : obj => (entry !! "id", entry !! "retries"))
      (jobQueue (run (sample_pdf_job {["retries" := VNum 0]})).1)
    = [(Some (VStr "j1"), Some (VNum 1))].
Proof. vm_compute. split; [reflexivity|]. split; [reflexivity|]. split; reflexivity. Qed.

End QueueManagerClaims.

(** * Further properties of the code *)

Section RateLimiterMore.
Import RateLimiter.

(** Inside the window of the last refill the refill step changes no token
    count. *)
Lemma refill_in_window now l :
  limiter_wf l -> now - lastRefill l < refillRate l ->
  tokens (refill now l) = tokens l.
Proof.
  intros (Hmax & Hrate & Hlo & Hhi) Hgap. unfold refill.
  destruct (0 <? now - lastRefill l) eqn:Helapsed; simpl; [|reflexivity].
  apply Z.ltb_lt in Helapsed. rewrite Z.div_small by lia. lia.
Qed.

Lemma execute_all_wf_state {S A} (calls : list (Z * M S A)) : forall l s,
  limiter_wf l -> limiter_wf (execute_all calls (l, s)).1.
Proof.
  induction calls as [|[now fn] rest IH]; intros l s Hwf; simpl; [exact Hwf|].
  pose proof (execute_wf fn now l s Hwf) as Hwf'.
  destruct (execute fn now (l, s)) as [r [l1 s1]]. simpl in *. apply IH. exact Hwf'.
Qed.

(** The limiter keeps its invariant over any sequence of calls, whatever
    their times and whatever the operations do: the token count never goes
    below zero or above the capacity, and capacity and window stay fixed. *)
Theorem execute_all_keeps_tokens_in_range {S A}
    (calls : list (Z * M S A)) (l : t) (s : S) :
  limiter_wf l ->
  let l' := (execute_all calls (l, s)).1 in
  0 <= tokens l' <= maxTokens l /\ maxTokens l' = maxTokens l /\
  refillRate l' = refillRate l.
Proof.
  intros Hwf.
  assert (Hconfig : forall (cs : list (Z * M S A)) l0 s0,
            maxTokens (execute_all cs (l0, s0)).1 = maxTokens l0 /\
            refillRate (execute_all cs (l0, s0)).1 = refillRate l0).
  { induction cs as [|[now fn] rest IH]; intros l0 s0; simpl; [auto|].
    pose proof (execute_limiter fn now l0 s0) as (Hm & Hr & _).
    destruct (execute fn now (l0, s0)) as [r [l1 s1]]. simpl in *.
    destruct (IH l1 s1) as [Hm' Hr']. split; congruence. }
  destruct (Hconfig calls l s) as [Hm Hr].
  pose proof (execute_all_wf_state calls l s Hwf) as (_ & _ & Hrange).
  cbv zeta. rewrite Hm in Hrange. auto.
Qed.

Lemma execute_all_keeps_tokens_in_range_witness :
  let calls : list (Z * M unit unit) :=
    [(5, fun s => (Ok tt, s)); (70000, fun s => (Throw VNull, s)); (3, fun s => (Ok tt, s))] in
  let l' := (execute_all calls (mk 2 60000 2 0, tt)).1 in
  0 <= tokens l' <= 2 /\ maxTokens l' = 2 /\ refillRate l' = 60000.
Proof.
  apply (execute_all_keeps_tokens_in_range
           [(5, fun s => (Ok tt, s)); (70000, fun s => (Throw VNull, s));
            (3, fun s => (Ok tt, s))] (mk 2 60000 2 0) tt).
  unfold limiter_wf. simpl. lia.
Defined.

(** Calls made within the window of the last refill: the state after them. *)
Lemma execute_all_in_window {S A} (calls : list (Z * M S A)) : forall l s start,
  limiter_wf l -> start <= lastRefill l ->
  Forall (fun call => call.1 - start < refillRate l) calls ->
  let l' := (execute_all calls (l, s)).1 in
  limiter_wf l' /\ start <= lastRefill l' /\ refillRate l' = refillRate l /\
  tokens l' = Z.max 0 (tokens l - Z.of_nat (List.length calls)).
Proof.
  induction calls as [|[now fn] rest IH]; intros l s start Hwf Hstart Hall; simpl.
  - destruct Hwf as (? & ? & ? & ?). repeat split; auto; lia.
  - apply Forall_cons in Hall as [Hnow Hrest]. simpl in Hnow.
    pose proof (refill_in_window now l Hwf ltac:(lia)) as Hkeep.
    pose proof (execute_wf fn now l s Hwf) as Hwf1.
    pose proof (execute_limiter fn now l s) as (Hm & Hr & Hl & _).
    assert (Htok : tokens (execute fn now (l, s)).2.1 = Z.max 0 (tokens l - 1)).
    { destruct Hwf as (_ & _ & Hlo & _).
      unfold execute; simpl. rewrite Hkeep.
      destruct (tokens l <? 1) eqn:E; simpl.
      - apply Z.ltb_lt in E. rewrite Hkeep. lia.
      - apply Z.ltb_ge in E. destruct (fn s); simpl. lia. }
    assert (Hstart1 : start <= lastRefill (execute fn now (l, s)).2.1).
    { simpl in Hl. rewrite Hl, refill_lastRefill.
      destruct (0 <? now - lastRefill l) eqn:E; [apply Z.ltb_lt in E|]; lia. }
    destruct (execute fn now (l, s)) as [r [l1 s1]]. simpl in *.
    rewrite <- Hr in Hrest.
    destruct (IH l1 s1 start Hwf1 Hstart1 Hrest) as (Hwf' & Hs' & Hr' & Ht').
    split; [exact Hwf'|]. split; [exact Hs'|]. split; [congruence|].
    rewrite Ht', Htok. lia.
Qed.

(** Burst capacity: of the calls made within one window of the last refill,
    the first [tokens] ones run their operation and hand back its outcome,
    each for one token, and every later one is refused with the rate-limit
    error without running its operation. *)
Theorem execute_burst_within_window {S A}
    (calls : list (Z * M S A)) (l : t) (s : S) :
  limiter_wf l ->
  Forall (fun call => call.1 - lastRefill l < refillRate l) calls ->
  forall pre now fn post, calls = pre ++ (now, fn) :: post ->
    let before := execute_all pre (l, s) in
    let out := execute fn now before in
    if Z.of_nat (List.length pre) <? tokens l
    then out.1 = (fn before.2).1 /\ out.2.2 = (fn before.2).2 /\
         tokens out.2.1 = tokens l - Z.of_nat (List.length pre) - 1
    else (exists waitTime, out.1 = Throw (rate_limit_error waitTime)) /\
         out.2.2 = before.2 /\ tokens out.2.1 = 0.
Proof.
  intros Hwf Hall pre now fn post ->.
  apply Forall_app in Hall as [Hpre Hcall].
  apply Forall_cons in Hcall as [Hnow _]. simpl in Hnow.
  destruct (execute_all_in_window pre l s (lastRefill l) Hwf ltac:(lia) Hpre)
    as (Hwf' & Hstart & Hr & Htok).
  cbv zeta. destruct (execute_all pre (l, s)) as [l1 s1]. simpl in *.
  pose proof (refill_in_window now l1 Hwf' ltac:(lia)) as Hkeep.
  destruct Hwf as (_ & _ & Hlo & _).
  unfold execute; simpl. rewrite Hkeep.
  destruct (Z.of_nat (List.length pre) <? tokens l) eqn:E.
  - apply Z.ltb_lt in E.
    destruct (tokens l1 <? 1) eqn:E1; [apply Z.ltb_lt in E1; lia|].
    destruct (fn s1) as [r s2]; simpl. repeat split; lia.
  - apply Z.ltb_ge in E.
    destruct (tokens l1 <? 1) eqn:E1; [|apply Z.ltb_ge in E1; lia].
    simpl. split; [eexists; reflexivity|]. split; [reflexivity|]. rewrite Hkeep. lia.
Qed.

(** A full bucket of two and three calls within the window: the third is
    refused. *)
Lemma execute_burst_within_window_witness :
  let op : M (list nat) unit := fun s => (Ok tt, 1%nat :: s) in
  let l := mk 2 60000 2 0 in
  let before := execute_all [(10, op); (20, op)] (l, []) in
  let out := execute op 30 before in
  before.2 = [1%nat; 1%nat] /\
  if Z.of_nat (List.length [(10, op); (20, op)]) <? tokens l
  then out.1 = (op before.2).1 /\ out.2.2 = (op before.2).2 /\
       tokens out.2.1 = tokens l - Z.of_nat (List.length [(10, op); (20, op)]) - 1
  else (exists waitTime, out.1 = Throw (rate_limit_error waitTime)) /\
       out.2.2 = before.2 /\ tokens out.2.1 = 0.
Proof.
  intros op l before out. split; [reflexivity|].
  apply (execute_burst_within_window [(10, op); (20, op); (30, op)] l []
           ltac:(unfold limiter_wf; simpl; lia)
           ltac:(repeat constructor; simpl; lia)
           [(10, op); (20, op)] 30 op [] eq_refl).
Defined.

(** Once a whole window has passed since the last refill the bucket is
    back at capacity, however many windows it was: the call runs its
    operation, hands back its outcome, and leaves capacity minus one. *)
Theorem execute_after_idle_window {S A} (fn : M S A) (now : Z) (l : t) (s : S) :
  limiter_wf l ->
  refillRate l <= now - lastRefill l ->
  execute fn now (l, s) =
    ((fn s).1, (mk (maxTokens l) (refillRate l) (maxTokens l - 1) now, (fn s).2)).
Proof.
  intros (Hmax & Hrate & Hlo & Hhi) Hidle.
  assert (Hk : 1 <= (now - lastRefill l) / refillRate l).
  { apply Z.div_le_lower_bound; lia. }
  unfold execute, refill; simpl.
  destruct (0 <? now - lastRefill l) eqn:E; [|apply Z.ltb_ge in E; lia]. simpl.
  assert (Hfull : Z.min (maxTokens l)
                    (tokens l + (now - lastRefill l) / refillRate l * maxTokens l)
                  = maxTokens l) by nia.
  rewrite Hfull.
  destruct (maxTokens l <? 1) eqn:E1; [apply Z.ltb_lt in E1; lia|].
  destruct (fn s) as [r s']. reflexivity.
Qed.

(** The drained limiter one window and a bit later. *)
Lemma execute_after_idle_window_witness :
  execute (S := list nat) (fun s => (Ok tt, 1%nat :: s)) 60001 (mk 5 60000 0 0, []) =
    (Ok tt, (mk 5 60000 4 60001, [1%nat])).
Proof.
  apply (execute_after_idle_window (fun s => (Ok tt, 1%nat :: s)) 60001 (mk 5 60000 0 0) []).
  - unfold limiter_wf. simpl. lia.
  - simpl. lia.
Defined.

End RateLimiterMore.

Section BackoffMore.
Import QueueManager.
Local Open Scope Q_scope.

(** The backoff delay never decreases as the retry count grows, and for a
    non-negative count and jitter it is at least the base delay of one
    second. *)
Theorem calculateBackoff_monotone (n m : Z) (u : Q) :
  (0 <= n <= m)%Z -> 0 <= u ->
  1000 <= calculateBackoff (inject_Z n) u /\
  calculateBackoff (inject_Z n) u <= calculateBackoff (inject_Z m) u.
Proof.
  intros [Hn Hnm] Hu. rewrite !calculateBackoff_inject.
  assert (H1 : 1 <= 2 ^ n).
  { change 1 with (2 ^ 0). apply Qpower_le_compat_l; [lia|lra]. }
  assert (H2 : 2 ^ n <= 2 ^ m) by (apply Qpower_le_compat_l; [lia|lra]).
  split.
  - apply Q.min_glb; [discriminate|lra].
  - apply Q.min_le_compat_l. lra.
Qed.

Lemma calculateBackoff_monotone_witness :
  1000 <= calculateBackoff (inject_Z 1) (1 # 4) /\
  calculateBackoff (inject_Z 1) (1 # 4) <= calculateBackoff (inject_Z 4) (1 # 4).
Proof.
  apply (calculateBackoff_monotone 1 4 (1 # 4)).
  - lia.
  - discriminate.
Defined.

End BackoffMore.

Section QueueOrder.
Import QueueManager.

Lemma insert_sorted_perm a l : insert_sorted a l ≡ₚ a :: l.
Proof.
  induction l as [|b rest IH]; simpl; [reflexivity|].
  destruct (before a b); [reflexivity|].
  rewrite IH. apply perm_swap.
Qed.

Lemma sort_perm l : sort l ≡ₚ l.
Proof.
  induction l as [|a rest IH]; simpl; [reflexivity|].
  rewrite insert_sorted_perm. rewrite IH. reflexivity.
Qed.

Lemma before_valid a b x y :
  scheduled_time a = Some x -> scheduled_time b = Some y ->
  before a b = (x <=? y).
Proof. unfold before, scheduled_time. intros -> ->. reflexivity. Qed.

(** Inserting keeps the order among the entries scheduled for one time: the
    new entry goes in front of them only if it was in front before. *)
Lemma insert_sorted_scheduled_at t a l :
  List.filter (scheduled_at t) (insert_sorted a l) =
  List.filter (scheduled_at t) (a :: l).
Proof.
  induction l as [|b rest IH]; [reflexivity|].
  simpl insert_sorted. destruct (before a b) eqn:Hab; [reflexivity|].
  simpl. simpl in IH. rewrite IH.
  destruct (scheduled_at t a) eqn:Ha; [|reflexivity].
  destruct (scheduled_at t b) eqn:Hb; [|reflexivity].
  exfalso. unfold scheduled_at in Ha, Hb.
  destruct (scheduled_time a) as [x|] eqn:Hx; [|discriminate].
  destruct (scheduled_time b) as [y|] eqn:Hy; [|discriminate].
  apply Z.eqb_eq in Ha, Hb. subst x y.
  rewrite (before_valid a b t t Hx Hy) in Hab. apply Z.leb_gt in Hab. lia.
Qed.

(** The sort is stable: the entries scheduled for one time keep their
    insertion order. *)
Lemma sort_stable t l :
  List.filter (scheduled_at t) (sort l) = List.filter (scheduled_at t) l.
Proof.
  induction l as [|a rest IH]; [reflexivity|].
  simpl sort. rewrite insert_sorted_scheduled_at. simpl. rewrite IH. reflexivity.
Qed.

Lemma insert_sorted_ordered a l :
  is_Some (scheduled_time a) ->
  Forall (fun job => is_Some (scheduled_time job)) l ->
  StronglySorted (fun x y => before x y = true) l ->
  StronglySorted (fun x y => before x y = true) (insert_sorted a l).
Proof.
  intros [ta Ha] Hvalid Hsorted.
  induction l as [|b rest IH]; simpl.
  - constructor; constructor.
  - apply Forall_cons in Hvalid as [[tb Hb] Hvalid].
    apply StronglySorted_inv in Hsorted as [Hrest Hb_first].
    destruct (before a b) eqn:Hab.
    + constructor; [constructor; assumption|].
      constructor; [exact Hab|].
      rewrite Forall_forall in Hb_first, Hvalid |- *.
      intros c Hc. destruct (Hvalid c Hc) as [tc Htc].
      specialize (Hb_first c Hc).
      rewrite (before_valid a b _ _ Ha Hb) in Hab.
      rewrite (before_valid b c _ _ Hb Htc) in Hb_first.
      rewrite (before_valid a c _ _ Ha Htc).
      apply Z.leb_le in Hab, Hb_first. apply Z.leb_le. lia.
    + constructor; [apply IH; assumption|].
      rewrite Forall_forall. intros c Hc.
      rewrite insert_sorted_perm in Hc. apply elem_of_cons in Hc as [->|Hc].
      * rewrite (before_valid a b _ _ Ha Hb) in Hab.
        rewrite (before_valid b a _ _ Hb Ha).
        apply Z.leb_gt in Hab. apply Z.leb_le. lia.
      * rewrite Forall_forall in Hb_first. apply Hb_first. exact Hc.
Qed.

Lemma sort_ordered (queue : list obj) :
  Forall (fun job => is_Some (scheduled_time job)) queue ->
  StronglySorted (fun x y => before x y = true) (sort queue).
Proof.
  intros Hvalid.
  induction queue as [|a rest IH]; simpl; [constructor|].
  apply Forall_cons in Hvalid as [Ha Hvalid].
  apply insert_sorted_ordered; [exact Ha| |apply IH; exact Hvalid].
  rewrite Forall_forall in Hvalid |- *. intros c Hc.
  rewrite sort_perm in Hc. apply Hvalid. exact Hc.
Qed.

(** The sort at the head of every tick, on entries that all carry a date:
    it keeps every entry, leaves no entry in front of one scheduled
    earlier, and keeps the entries scheduled for one time in the order
    they had. *)
Theorem sort_orders_by_scheduled_time (queue : list obj) :
  well_scheduled queue ->
  sort queue ≡ₚ queue /\
  StronglySorted not_later (sort queue) /\
  forall t, List.filter (scheduled_at t) (sort queue) = List.filter (scheduled_at t) queue.
Proof.
  intros Hvalid. split; [apply sort_perm|]. split; [|intros t; apply sort_stable].
  assert (Hsub : forall l : list obj,
            well_scheduled l ->
            StronglySorted (fun x y => before x y = true) l ->
            StronglySorted not_later l).
  { induction l as [|a rest IH]; intros Hl Hs; [constructor|].
    apply Forall_cons in Hl as [[x Hx] Hrest].
    apply StronglySorted_inv in Hs as [Hs Hfirst].
    constructor; [apply IH; assumption|].
    unfold well_scheduled in Hrest. rewrite Forall_forall in Hfirst, Hrest |- *.
    intros c Hc. destruct (Hrest c Hc) as [y Hy].
    specialize (Hfirst c Hc). rewrite (before_valid a c x y Hx Hy) in Hfirst.
    apply Z.leb_le in Hfirst. exists x, y. auto. }
  apply Hsub; [|apply sort_ordered; exact Hvalid].
  unfold well_scheduled in *. rewrite Forall_forall in Hvalid |- *.
  intros c Hc. rewrite sort_perm in Hc. apply Hvalid. exact Hc.
Qed.

(** Which entry a tick takes: one with the earliest scheduled time, and
    among the entries scheduled for that same time the one that was put on
    the queue first. *)
Theorem sort_head_is_earliest_first_in (queue : list obj) (nextJob : obj) (rest : list obj) :
  Forall (fun job => is_Some (scheduled_time job)) queue ->
  sort queue = nextJob :: rest ->
  exists t,
    scheduled_time nextJob = Some t /\
    (forall job, job ∈ queue ->
       exists t', scheduled_time job = Some t' /\ t <= t') /\
    head (List.filter (scheduled_at t) queue) = Some nextJob.
Proof.
  intros Hvalid Hsort.
  pose proof (sort_perm queue) as Hperm.
  pose proof (sort_ordered queue Hvalid) as Hsorted.
  rewrite Hsort in Hperm, Hsorted.
  apply StronglySorted_inv in Hsorted as [_ Hfirst].
  rewrite Forall_forall in Hvalid, Hfirst.
  assert (Hnext : nextJob ∈ queue) by (rewrite <- Hperm; left).
  destruct (Hvalid nextJob Hnext) as [t Ht].
  exists t. split; [exact Ht|]. split.
  - intros job Hjob. destruct (Hvalid job Hjob) as [t' Ht'].
    exists t'. split; [exact Ht'|].
    rewrite <- Hperm in Hjob. apply elem_of_cons in Hjob as [->|Hjob].
    + rewrite Ht in Ht'. injection Ht' as <-. lia.
    + specialize (Hfirst job Hjob).
      rewrite (before_valid nextJob job _ _ Ht Ht') in Hfirst.
      apply Z.leb_le in Hfirst. exact Hfirst.
  - rewrite <- (sort_stable t queue), Hsort. simpl.
    unfold scheduled_at at 1. rewrite Ht, Z.eqb_refl. reflexivity.
Qed.

Lemma sample_entry_valid id t :
  Date.parse (Date.iso_text t) = Some t -> scheduled_time (sample_entry id t) = Some t.
Proof.
  intros H. unfold scheduled_time, sample_entry, field.
  rewrite lookup_insert_ne by done. rewrite lookup_singleton_eq.
  unfold default, Date.of_value, to_primitive. exact H.
Qed.

(** Three entries, the last one put on the queue scheduled earliest. *)
Lemma sort_orders_by_scheduled_time_witness :
  let queue := [sample_entry "j3" 1740830400000; sample_entry "j4" 1740830400000;
                sample_entry "j5" 1740830399000] in
  well_scheduled queue /\
  sort queue ≡ₚ queue /\
  StronglySorted not_later (sort queue) /\
  forall t, List.filter (scheduled_at t) (sort queue) = List.filter (scheduled_at t) queue.
Proof.
  intros queue.
  assert (Hvalid : well_scheduled queue).
  { repeat constructor; eexists; apply sample_entry_valid; vm_compute; reflexivity. }
  split; [exact Hvalid|]. exact (sort_orders_by_scheduled_time queue Hvalid).
Defined.

(** Two jobs scheduled for the same time are taken in insertion order. *)
Lemma sort_head_is_earliest_first_in_witness :
  let queue := [sample_entry "j3" 1740830400000; sample_entry "j4" 1740830400000] in
  exists t,
    scheduled_time (sample_entry "j3" 1740830400000) = Some t /\
    (forall job, job ∈ queue -> exists t', scheduled_time job = Some t' /\ t <= t') /\
    head (List.filter (scheduled_at t) queue) = Some (sample_entry "j3" 1740830400000).
Proof.
  apply (sort_head_is_earliest_first_in
           [sample_entry "j3" 1740830400000; sample_entry "j4" 1740830400000]
           (sample_entry "j3" 1740830400000) [sample_entry "j4" 1740830400000]).
  - repeat constructor; eexists; apply sample_entry_valid; vm_compute; reflexivity.
  - assert (H : before (sample_entry "j4" 1740830400000) (sample_entry "j3" 1740830400000)
                = true) by (vm_compute; reflexivity).
    assert (H' : before (sample_entry "j3" 1740830400000) (sample_entry "j4" 1740830400000)
                = true) by (vm_compute; reflexivity).
    unfold sort. simpl. rewrite H'. reflexivity.
Defined.

End QueueOrder.

Section QueueTick.
Import QueueManager.

Lemma sort_nonempty (queue : list obj) nextJob rest :
  sort queue = nextJob :: rest -> (List.length queue =? 0)%nat = false.
Proof. destruct queue; [discriminate|reflexivity]. Qed.

(** The tick once it has found the queue busy with [nextJob] in front. *)
Lemma processNextJob_run (processor : obj -> M system obj)
    (q : state) (sys : system) nextJob rest :
  isProcessing q = false ->
  sort (jobQueue q) = nextJob :: rest ->
  processNextJob (Some processor) (q, sys) =
    if due nextJob (clock sys.2 (clock_reads sys.2)) then
      try_finally
        (try_catch
           (_ ← set_jobQueue (List.filter (other_id nextJob));
            _ ← on_snd (processor nextJob);
            mret tt)
           (reschedule nextJob))
        (set_isProcessing false)
        (mk (nextJob :: rest) true (checkInterval q), (sys.1, clock_read sys.2))
    else (Ok tt, (mk (nextJob :: rest) false (checkInterval q), (sys.1, clock_read sys.2))).
Proof.
  intros Hidle Hsort. unfold processNextJob. simpl.
  rewrite Hidle, (sort_nonempty _ _ _ Hsort). simpl.
  unfold set_jobQueue at 1, modify at 1, on_snd at 1, Date_now, gets.
  unfold mbind at 1 2 3, M_bind at 1 2 3. simpl. rewrite Hsort.
  destruct (due nextJob (clock sys.2 (clock_reads sys.2))); [|rewrite Hidle; reflexivity].
  reflexivity.
Qed.

(** Single flight: a tick that finds the in-flight flag set changes
    nothing, and a tick that finds it clear leaves it clear, whatever the
    processor did and even when the [catch] block itself throws. *)
Theorem processNextJob_single_flight
    (taskProcessor : option (obj -> M system obj)) (st : state * system) :
  isProcessing (processNextJob taskProcessor st).2.1 = isProcessing st.1 /\
  (if isProcessing st.1 then processNextJob taskProcessor st = (Ok tt, st) else True).
Proof.
  destruct st as [q sys]. destruct taskProcessor as [processor|].
  - destruct (isProcessing q) eqn:Hflag.
    + unfold processNextJob. simpl. rewrite Hflag. simpl. rewrite Hflag. auto.
    + split; [|simpl; rewrite Hflag; exact I].
      destruct (sort (jobQueue q)) as [|nextJob rest] eqn:Hsort.
      * unfold processNextJob. simpl. rewrite Hflag. simpl.
        destruct (List.length (jobQueue q) =? 0)%nat; [exact Hflag|].
        unfold set_jobQueue, modify, on_snd, Date_now, gets, mbind, M_bind, mret, M_ret.
        simpl. rewrite Hsort. exact Hflag.
      * rewrite (processNextJob_run processor q sys nextJob rest Hflag Hsort).
        destruct (due nextJob (clock sys.2 (clock_reads sys.2)));
          [|simpl; symmetry; exact Hflag].
        unfold try_finally.
        match goal with |- context [try_catch ?b ?h ?s0] =>
          destruct (try_catch b h s0) as [r st'] end.
        simpl. symmetry. exact Hflag.
  - unfold processNextJob. simpl. split; [reflexivity|].
    destruct (isProcessing q); auto.
Qed.

Lemma strict_eq_refl (v : value) : compared_by_value v -> strict_eq v v = true.
Proof.
  destruct v; simpl; try contradiction; intros _; try reflexivity.
  - apply Bool.eqb_reflx.
  - apply Qeq_bool_iff. reflexivity.
  - apply String.eqb_refl.
Qed.

Lemma due_scheduled (job : obj) (t now : Z) :
  scheduled_time job = Some t -> due job now = (t <=? now).
Proof. unfold due, scheduled_time. intros ->. reflexivity. Qed.

Lemma sort_head (queue : list obj) :
  queue <> [] -> exists nextJob rest, sort queue = nextJob :: rest /\ nextJob ∈ queue.
Proof.
  intros Hne. destruct (sort queue) as [|nextJob rest] eqn:Hsort.
  - exfalso. apply Hne. pose proof (sort_perm queue) as Hperm.
    rewrite Hsort in Hperm. apply Permutation.Permutation_nil. exact Hperm.
  - exists nextJob, rest. split; [reflexivity|].
    rewrite <- (sort_perm queue), Hsort. left.
Qed.

(** The processed entry is not among the entries the tick keeps. *)
Lemma processed_entry_removed (nextJob : obj) (queue : list obj) :
  compared_by_value (field nextJob "id") ->
  nextJob ∉ List.filter (other_id nextJob) queue.
Proof.
  intros Hid Hin. apply list_elem_of_In, filter_In in Hin as [_ Hother].
  unfold other_id in Hother. rewrite (strict_eq_refl _ Hid) in Hother. discriminate.
Qed.

(** A tick runs no job before its time: on a queue whose entries are all
    scheduled after the time the tick reads, the processor is not invoked;
    the queue is only put in order and the clock was read once. *)
Theorem processNextJob_waits_until_due
    (processor : obj -> M system obj) (q : state) (sys : system) :
  isProcessing q = false ->
  jobQueue q <> [] ->
  Forall (fun job => exists t, scheduled_time job = Some t /\
                               clock sys.2 (clock_reads sys.2) < t) (jobQueue q) ->
  processNextJob (Some processor) (q, sys) =
    (Ok tt, (mk (sort (jobQueue q)) false (checkInterval q), (sys.1, clock_read sys.2))).
Proof.
  intros Hflag Hne Hlater.
  destruct (sort_head (jobQueue q) Hne) as (nextJob & rest & Hsort & Hin).
  rewrite Forall_forall in Hlater. destruct (Hlater nextJob Hin) as (t & Ht & Hnow).
  rewrite (processNextJob_run processor q sys nextJob rest Hflag Hsort).
  rewrite (due_scheduled nextJob t _ Ht).
  replace (t <=? clock sys.2 (clock_reads sys.2)) with false
    by (symmetry; apply Z.leb_gt; exact Hnow).
  rewrite Hsort. reflexivity.
Qed.

(** When the processor returns: on a queue whose entries all carry a date,
    with the entry in front due and its id compared by value, the tick
    leaves the queue in order without the processed entry and without any
    other entry that carries the same id; nothing is put back. *)
Theorem processNextJob_removes_processed_id
    (processor : obj -> M system obj) (q : state) (sys sys' : system)
    (nextJob returned : obj) (rest : list obj) (t : Z) :
  isProcessing q = false ->
  well_scheduled (jobQueue q) ->
  sort (jobQueue q) = nextJob :: rest ->
  scheduled_time nextJob = Some t ->
  t <= clock sys.2 (clock_reads sys.2) ->
  compared_by_value (field nextJob "id") ->
  processor nextJob (sys.1, clock_read sys.2) = (Ok returned, sys') ->
  processNextJob (Some processor) (q, sys) =
    (Ok tt, (mk (List.filter (other_id nextJob) (sort (jobQueue q))) false (checkInterval q),
             sys')) /\
  (nextJob ∉ List.filter (other_id nextJob) (sort (jobQueue q))) /\
  forall job, job ∈ List.filter (other_id nextJob) (sort (jobQueue q)) <->
              job ∈ jobQueue q /\ other_id nextJob job = true.
Proof.
  intros Hflag _ Hsort Ht Hnow Hid Hrun.
  assert (Hdue : due nextJob (clock sys.2 (clock_reads sys.2)) = true).
  { rewrite (due_scheduled nextJob t _ Ht). apply Z.leb_le. exact Hnow. }
  split; [|split].
  - rewrite (processNextJob_run processor q sys nextJob rest Hflag Hsort), Hdue, Hsort.
    unfold try_finally, try_catch, set_jobQueue, modify, on_snd.
    unfold mbind, M_bind, mret, M_ret. simpl. rewrite Hrun. reflexivity.
  - apply processed_entry_removed. exact Hid.
  - intros job. rewrite list_elem_of_In, filter_In, <- list_elem_of_In, sort_perm.
    reflexivity.
Qed.

(** An entry scheduled a minute after the clock's first reading. *)
Lemma processNextJob_waits_until_due_witness :
  let q := mk [sample_entry "j9" 1740830460000] false true in
  processNextJob (Some returning_processor) (q, sample_system) =
    (Ok tt, (mk (sort (jobQueue q)) false (checkInterval q),
             (sample_system.1, clock_read sample_system.2))).
Proof.
  apply (processNextJob_waits_until_due returning_processor
           (mk [sample_entry "j9" 1740830460000] false true) sample_system).
  - reflexivity.
  - discriminate.
  - repeat constructor. exists 1740830460000. split.
    + apply sample_entry_valid. vm_compute. reflexivity.
    + reflexivity.
Defined.

(** Two entries with the id [j3] and one with [j4], all due: processing the
    first [j3] drops the second as well. *)
Lemma processNextJob_removes_processed_id_witness :
  let j3 := sample_entry "j3" 1740830400000 in
  let j4 := sample_entry "j4" 1740830400000 in
  let j3' := <["attempt" := VNum 2]> j3 in
  let q := mk [j3; j4; j3'] false true in
  well_scheduled (jobQueue q) /\
  List.filter (other_id j3) (sort (jobQueue q)) = [j4] /\
  processNextJob (Some returning_processor) (q, sample_system) =
    (Ok tt, (mk (List.filter (other_id j3) (sort (jobQueue q))) false (checkInterval q),
             (sample_system.1, clock_read sample_system.2))).
Proof.
  intros j3 j4 j3' q.
  assert (Hparse : Date.parse (Date.iso_text 1740830400000) = Some 1740830400000)
    by (vm_compute; reflexivity).
  assert (Hj3 : scheduled_time j3 = Some 1740830400000)
    by (apply sample_entry_valid; exact Hparse).
  assert (Hj3' : scheduled_time j3' = Some 1740830400000).
  { unfold scheduled_time, j3', field. rewrite lookup_insert_ne by done. exact Hj3. }
  assert (Hvalid : well_scheduled (jobQueue q)).
  { repeat constructor; eexists; [exact Hj3| |exact Hj3'].
    apply sample_entry_valid. exact Hparse. }
  assert (Hsort : sort (jobQueue q) = j3 :: [j4; j3']).
  { assert (H1 : before j4 j3' = true) by (vm_compute; reflexivity).
    assert (H2 : before j3 j4 = true) by (vm_compute; reflexivity).
    unfold q, sort. cbn [jobQueue foldr insert_sorted].
    rewrite H1. cbn [insert_sorted]. rewrite H2. reflexivity. }
  split; [exact Hvalid|]. split.
  - rewrite Hsort.
    assert (H3 : other_id j3 j3 = false) by (vm_compute; reflexivity).
    assert (H4 : other_id j3 j4 = true) by (vm_compute; reflexivity).
    assert (H5 : other_id j3 j3' = false) by (vm_compute; reflexivity).
    cbn [List.filter]. rewrite H3, H4, H5. reflexivity.
  - apply (processNextJob_removes_processed_id returning_processor q sample_system
             (sample_system.1, clock_read sample_system.2) j3 j3 [j4; j3'] 1740830400000).
    + reflexivity.
    + exact Hvalid.
    + exact Hsort.
    + exact Hj3.
    + vm_compute. discriminate.
    + unfold j3, sample_entry. unfold field. rewrite lookup_insert_eq. exact I.
    + reflexivity.
Defined.

End QueueTick.

Section ProcessorFailures.
Import TaskProcessor.

Lemma get_prop_throws v k te :
  get_prop v k = Throw te -> exists msg, te = TypeError msg.
Proof.
  destruct v; simpl; intros H; try discriminate H; injection H as <-; eexists; reflexivity.
Qed.

Lemma call_includes_throws what m needle te :
  call_includes what m needle = Throw te -> exists msg, te = TypeError msg.
Proof.
  destruct m; simpl; intros H; try discriminate H; injection H as <-; eexists; reflexivity.
Qed.

(** Whatever the classifier throws is a [TypeError] object. *)
Lemma isTransientError_throws_TypeError error te :
  isTransientError error = Throw te -> exists msg, te = TypeError msg.
Proof.
  unfold isTransientError, mbind, result_bind.
  destruct (get_prop error "message") as [message|e0] eqn:Hm;
    [|intros H; injection H as <-; eapply get_prop_throws; exact Hm].
  destruct (if truthy message
            then call_includes "error.message" message "Rate limit exceeded"
            else Ok false) as [[|]|e1] eqn:Hfirst.
  - discriminate.
  - destruct (get_prop error "code") as [code|e2] eqn:Hc;
      [|intros H; injection H as <-; eapply get_prop_throws; exact Hc].
    destruct (strict_eq code (VStr "ETIMEDOUT") || strict_eq code (VStr "ECONNRESET") ||
              strict_eq code (VStr "ECONNREFUSED")); [discriminate|].
    destruct (call_includes "error.message" message "timeout") as [[|]|e3] eqn:Hlast;
      try discriminate.
    intros H; injection H as <-. eapply call_includes_throws. exact Hlast.
  - intros H; injection H as <-.
    destruct (truthy message); [|discriminate].
    eapply call_includes_throws. exact Hfirst.
Qed.

(** [processJob] never swallows a failure: when its [try] block throws,
    [processJob] throws as well.  What it throws is the error itself as
    soon as the classifier could classify it, and in every case a value
    whose [message] can be read, which is what the queue manager's [catch]
    block does with it next. *)
Theorem processJob_never_swallows_failure
    (fetchDocument gemini : value -> M world value)
    (job : obj) (st st1 : system) (error : value) :
  process_steps fetchDocument gemini job st = (Throw error, st1) ->
  exists error' st',
    processJob fetchDocument gemini job st = (Throw error', st') /\
    (exists message, get_prop error' "message" = Ok message) /\
    (forall isTransient, isTransientError error = Ok isTransient -> error' = error).
Proof.
  intros Hsteps. unfold processJob, try_catch. rewrite Hsteps.
  destruct (isTransientError error) as [b|te] eqn:Hclass.
  - destruct st1 as [l w].
    destruct (handle_failure_classified job error b l w Hclass)
      as (message & code & Hm & _ & Hhandler).
    eexists _, _. split; [exact Hhandler|]. split; [eauto|]. intros; reflexivity.
  - destruct (isTransientError_throws_TypeError error te Hclass) as [msg ->].
    exists (TypeError msg), st1. split.
    + unfold handle_failure, eval, mbind, M_bind. rewrite Hclass. reflexivity.
    + split; [eexists; reflexivity|]. intros b Hb. discriminate Hb.
Qed.

(** A fetch that throws [undefined]: [processJob] throws the [TypeError]
    of reading its [message]. *)
Lemma processJob_never_swallows_failure_witness :
  let st := sample_system in
  let steps := process_steps (failing_fetch VUndefined) sample_gemini (sample_pdf_job ∅) st in
  exists error' st',
    processJob (failing_fetch VUndefined) sample_gemini (sample_pdf_job ∅) st
      = (Throw error', st') /\
    (exists message, get_prop error' "message" = Ok message) /\
    (forall isTransient, isTransientError (thrown steps.1) = Ok isTransient ->
       error' = thrown steps.1).
Proof.
  intros st steps.
  apply (processJob_never_swallows_failure (failing_fetch VUndefined) sample_gemini
           (sample_pdf_job ∅) st steps.2 (thrown steps.1)).
  apply run_thrown. vm_compute. reflexivity.
Defined.

End ProcessorFailures.

Section QueueRetry.
Import QueueManager.
Local Open Scope Q_scope.

(** The tick up to the [catch] block, for a processor that throws. *)
Lemma processNextJob_failure (processor : obj -> M system obj)
    (q : state) (sys sys' : system) nextJob rest error :
  isProcessing q = false ->
  sort (jobQueue q) = nextJob :: rest ->
  due nextJob (clock sys.2 (clock_reads sys.2)) = true ->
  processor nextJob (sys.1, clock_read sys.2) = (Throw error, sys') ->
  processNextJob (Some processor) (q, sys) =
    let out := reschedule nextJob error
                 (mk (List.filter (other_id nextJob) (sort (jobQueue q))) true
                     (checkInterval q), sys') in
    (out.1, set_isProcessing false out.2).
Proof.
  intros Hflag Hsort Hdue Hrun.
  rewrite (processNextJob_run processor q sys nextJob rest Hflag Hsort), Hdue, Hsort.
  unfold try_finally, try_catch, set_jobQueue, modify, on_snd.
  unfold mbind at 1 2, M_bind at 1 2. simpl. rewrite Hrun.
  match goal with |- context [reschedule nextJob error ?s0] =>
    destruct (reschedule nextJob error s0) as [r st'] end.
  reflexivity.
Qed.

(** The counter of a job that is a whole number a double holds exactly,
    and stays one after a step. *)
Lemma or_whole_count (retries : Q) (k : Z) :
  retries == inject_Z k ->
  exists count,
    to_number (or (VNum retries) (VNum 0)) = Some count /\
    add (or (VNum retries) (VNum 0)) (VNum 1) = VNum (count + 1) /\
    count + 1 == inject_Z (k + 1).
Proof.
  intros Hk. destruct (or_number_count retries) as (count & Hcount & Hadd & Heq).
  exists count. split; [exact Hcount|]. split; [exact Hadd|].
  rewrite Heq, Hk, inject_Z_plus. reflexivity.
Qed.

(** Bounded retry at work, on a queue whose entries all carry a date, with
    the entry in front due and its id compared by value: when the processor
    throws on a job whose [retries] is a whole number below [maxRetries]
    (3 when absent or 0), the tick takes the job off the queue and puts it
    back at the end with [retries] one higher, the error's message as
    [lastError], and a [scheduledFor] within a minute after the failure;
    the in-flight flag is clear again. *)
Theorem processNextJob_requeues_failed_job
    (processor : obj -> M system obj) (q : state) (sys : system)
    (l' : RateLimiter.t) (w' : world) (nextJob : obj) (rest : list obj)
    (error message : value) (retries maxRetries : Q) (scheduled k : Z) :
  isProcessing q = false ->
  well_scheduled (jobQueue q) ->
  sort (jobQueue q) = nextJob :: rest ->
  scheduled_time nextJob = Some scheduled ->
  (scheduled <= clock sys.2 (clock_reads sys.2))%Z ->
  compared_by_value (field nextJob "id") ->
  truthy (field nextJob "id") = true ->
  processor nextJob (sys.1, clock_read sys.2) = (Throw error, (l', w')) ->
  get_prop error "message" = Ok message ->
  field nextJob "retries" = VNum retries ->
  retries == inject_Z k -> (Z.abs k < 2 ^ 53)%Z ->
  or (field nextJob "maxRetries") (VNum 3) = VNum maxRetries ->
  retries < maxRetries ->
  0 <= random w' (random_draws w') ->
  (Z.abs (clock w' (clock_reads w')) <= Date.max_time - 60000)%Z ->
  exists t count,
    let requeued := requeued_job nextJob t message (clock w' (S (clock_reads w'))) in
    processNextJob (Some processor) (q, sys) =
      (Ok tt,
       (mk (List.filter (other_id nextJob) (sort (jobQueue q)) ++ [requeued])
           false (checkInterval q),
        (l', clock_read (clock_read (random_drawn w'))))) /\
    (nextJob ∉ List.filter (other_id nextJob) (sort (jobQueue q))) /\
    (clock w' (clock_reads w') <= t <= clock w' (clock_reads w') + 60000)%Z /\
    requeued !! "scheduledFor" = Some (VStr (Date.iso_text t)) /\
    requeued !! "retries" = Some (VNum (count + 1)) /\
    count + 1 == inject_Z (k + 1) /\
    requeued !! "lastError" = Some message /\
    requeued !! "id" = nextJob !! "id".
Proof.
  intros Hflag _ Hsort Hscheduled Hpast Hcmp Hid Hrun Hmessage Hretries Hk _ Hmax Hbelow
         Hu Hnow.
  assert (Hdue : due nextJob (clock sys.2 (clock_reads sys.2)) = true).
  { rewrite (due_scheduled nextJob scheduled _ Hscheduled). apply Z.leb_le. exact Hpast. }
  destruct (or_whole_count retries k Hk) as (count & Hcount & Hadd & Hnext).
  destruct (retry_time_valid (clock w' (clock_reads w')) count
              (random w' (random_draws w')) Hu Hnow) as (t & Hclip & Hbounds).
  exists t, count. cbv zeta.
  split; [|split; [|split; [exact Hbounds|split; [|split; [|split; [exact Hnext|split]]]]]].
  - rewrite (processNextJob_failure processor q sys (l', w') nextJob rest error
               Hflag Hsort Hdue Hrun).
    rewrite (reschedule_requeues nextJob error message _ l' w' count t); auto.
    + rewrite Hretries, Hmax. apply Qlt_bool_iff. exact Hbelow.
    + rewrite Hretries. exact Hcount.
  - apply processed_entry_removed. exact Hcmp.
  - unfold requeued_job. apply lookup_insert_eq.
  - unfold requeued_job, retry_job.
    rewrite !lookup_insert_ne by done. rewrite lookup_insert_eq.
    rewrite Hretries, Hadd. reflexivity.
  - unfold requeued_job, retry_job.
    rewrite !lookup_insert_ne by done. apply lookup_insert_eq.
  - unfold requeued_job, retry_job.
    rewrite !lookup_insert_ne by done. reflexivity.
Qed.

(** The other side of the bound, on such a queue: when the processor throws
    on a job that has no [retries], or whose numeric [retries] is not below
    [maxRetries] (3 when absent or 0), the job is off the queue after the
    tick and nothing was put back, whatever the error was. *)
Theorem processNextJob_drops_exhausted_job
    (processor : obj -> M system obj) (q : state) (sys sys' : system)
    (nextJob : obj) (rest : list obj) (error : value) (maxRetries : Q) (scheduled : Z) :
  isProcessing q = false ->
  well_scheduled (jobQueue q) ->
  sort (jobQueue q) = nextJob :: rest ->
  scheduled_time nextJob = Some scheduled ->
  (scheduled <= clock sys.2 (clock_reads sys.2))%Z ->
  compared_by_value (field nextJob "id") ->
  processor nextJob (sys.1, clock_read sys.2) = (Throw error, sys') ->
  or (field nextJob "maxRetries") (VNum 3) = VNum maxRetries ->
  field nextJob "retries" = VUndefined \/
    (exists retries, field nextJob "retries" = VNum retries /\ ~ retries < maxRetries) ->
  processNextJob (Some processor) (q, sys) =
    (Ok tt, (mk (List.filter (other_id nextJob) (sort (jobQueue q))) false (checkInterval q),
             sys')) /\
  (nextJob ∉ List.filter (other_id nextJob) (sort (jobQueue q))).
Proof.
  intros Hflag _ Hsort Hscheduled Hpast Hcmp Hrun Hmax Hcount.
  assert (Hdue : due nextJob (clock sys.2 (clock_reads sys.2)) = true).
  { rewrite (due_scheduled nextJob scheduled _ Hscheduled). apply Z.leb_le. exact Hpast. }
  assert (Hlt : lt (field nextJob "retries") (or (field nextJob "maxRetries") (VNum 3))
                = false).
  { destruct Hcount as [-> | (retries & -> & Hge)]; [apply lt_undefined|].
    rewrite Hmax. change (lt (VNum retries) (VNum maxRetries))
      with (Qlt_bool retries maxRetries).
    destruct (Qlt_bool retries maxRetries) eqn:E; [|reflexivity].
    apply Qlt_bool_iff in E. contradiction. }
  split.
  - rewrite (processNextJob_failure processor q sys sys' nextJob rest error
               Hflag Hsort Hdue Hrun).
    rewrite reschedule_exhausted by exact Hlt. reflexivity.
  - apply processed_entry_removed. exact Hcmp.
Qed.

(** A due job with [retries: 0] whose processor times out. *)
Lemma processNextJob_requeues_failed_job_witness :
  let entry := <["retries" := VNum 0]> (sample_entry "j1" 1740830400000) in
  let q := mk [entry] false true in
  let w' := clock_read sample_world in
  well_scheduled (jobQueue q) /\
  exists t count,
    processNextJob (Some (failing_processor timeout_error)) (q, sample_system) =
      (Ok tt,
       (mk (List.filter (other_id entry) (sort (jobQueue q)) ++
            [requeued_job entry t (VStr "connect ETIMEDOUT") (clock w' (S (clock_reads w')))])
           false (checkInterval q),
        (sample_system.1, clock_read (clock_read (random_drawn w'))))) /\
    (clock w' (clock_reads w') <= t <= clock w' (clock_reads w') + 60000)%Z /\
    count + 1 == 1.
Proof.
  intros entry q w'.
  assert (Hparse : Date.parse (Date.iso_text 1740830400000) = Some 1740830400000%Z)
    by (vm_compute; reflexivity).
  pose proof (sample_entry_valid "j1" 1740830400000 Hparse) as Hplain.
  assert (Hscheduled : scheduled_time entry = Some 1740830400000%Z).
  { unfold scheduled_time, entry, field. rewrite lookup_insert_ne by done. exact Hplain. }
  assert (Hvalid : well_scheduled (jobQueue q)).
  { repeat constructor. eexists. exact Hscheduled. }
  split; [exact Hvalid|].
  destruct (processNextJob_requeues_failed_job (failing_processor timeout_error) q
              sample_system sample_system.1 w' entry [] timeout_error
              (VStr "connect ETIMEDOUT") 0 3 1740830400000 0)
    as (t & count & Hrun & _ & Hbounds & _ & _ & Hnext & _).
  - reflexivity.
  - exact Hvalid.
  - reflexivity.
  - exact Hscheduled.
  - vm_compute. discriminate.
  - vm_compute. exact I.
  - vm_compute. reflexivity.
  - reflexivity.
  - reflexivity.
  - vm_compute. reflexivity.
  - reflexivity.
  - vm_compute. reflexivity.
  - vm_compute. reflexivity.
  - reflexivity.
  - vm_compute. discriminate.
  - vm_compute. discriminate.
  - exists t, count. split; [exact Hrun|]. split; [exact Hbounds|exact Hnext].
Defined.

(** A due job without a [retries] property whose processor times out. *)
Lemma processNextJob_drops_exhausted_job_witness :
  let entry := sample_entry "j1" 1740830400000 in
  let q := mk [entry] false true in
  well_scheduled (jobQueue q) /\
  processNextJob (Some (failing_processor timeout_error)) (q, sample_system) =
    (Ok tt, (mk (List.filter (other_id entry) (sort (jobQueue q))) false (checkInterval q),
             (sample_system.1, clock_read sample_system.2))).
Proof.
  intros entry q.
  assert (Hparse : Date.parse (Date.iso_text 1740830400000) = Some 1740830400000%Z)
    by (vm_compute; reflexivity).
  pose proof (sample_entry_valid "j1" 1740830400000 Hparse) as Hscheduled.
  fold entry in Hscheduled.
  assert (Hvalid : well_scheduled (jobQueue q)).
  { repeat constructor. eexists. exact Hscheduled. }
  split; [exact Hvalid|].
  destruct (processNextJob_drops_exhausted_job (failing_processor timeout_error) q
              sample_system (sample_system.1, clock_read sample_system.2) entry []
              timeout_error 3 1740830400000) as [Hrun _].
  - reflexivity.
  - exact Hvalid.
  - reflexivity.
  - exact Hscheduled.
  - vm_compute. discriminate.
  - vm_compute. exact I.
  - reflexivity.
  - vm_compute. reflexivity.
  - left. vm_compute. reflexivity.
  - exact Hrun.
Defined.

End QueueRetry.

Section QueueAdd.
Import QueueManager.

(** [addJob] either refuses a job without a truthy [id], leaving queue and
    world as they were, or puts exactly one entry at the end of the queue
    and returns it.  The entry is the job with [queuedAt] stamped and a
    [scheduledFor]: the job's own when that is truthy, the current time
    otherwise; every other property is the job's. *)
Theorem addJob_appends_or_refuses (job : obj) (q : state) (l : RateLimiter.t) (w : world) :
  if truthy (field job "id") then
    exists queued w',
      addJob job (q, (l, w)) =
        (Ok queued, (mk (jobQueue q ++ [queued]) (isProcessing q) (checkInterval q), (l, w'))) /\
      queued !! "queuedAt" = Some (VStr (Date.iso_text (clock w (clock_reads w)))) /\
      queued !! "scheduledFor" =
        Some (if truthy (field job "scheduledFor") then field job "scheduledFor"
              else VStr (Date.iso_text (clock w (S (clock_reads w))))) /\
      (forall k, k <> "queuedAt" -> k <> "scheduledFor" -> queued !! k = job !! k)
  else
    addJob job (q, (l, w)) =
      (Throw (Error "Invalid job: must have an id property"), (q, (l, w))).
Proof.
  unfold addJob. destruct (truthy (field job "id")); [|reflexivity].
  unfold on_snd, now_iso, Date_now, set_jobQueue, modify, mbind, M_bind, mret, M_ret.
  simpl. destruct (truthy (field job "scheduledFor")); simpl.
  - eexists _, _. split; [reflexivity|].
    split; [rewrite lookup_insert_ne by done; apply lookup_insert_eq|].
    split; [apply lookup_insert_eq|].
    intros k Hq Hs. rewrite !lookup_insert_ne by done. reflexivity.
  - eexists _, _. split; [reflexivity|].
    split; [rewrite lookup_insert_ne by done; apply lookup_insert_eq|].
    split; [apply lookup_insert_eq|].
    intros k Hq Hs. rewrite !lookup_insert_ne by done. reflexivity.
Qed.

End QueueAdd.

Section Classification.
Import TaskProcessor.

(** On an error object whose [message] is a string the classifier never
    throws, and it answers transient exactly for a message that holds
    "Rate limit exceeded" or "timeout" or a [code] that is one of
    ETIMEDOUT, ECONNRESET and ECONNREFUSED. *)
Theorem isTransientError_on_string_message (o : obj) (message : string) :
  o !! "message" = Some (VStr message) ->
  isTransientError (VObj o) =
    Ok (includes "Rate limit exceeded" message ||
        (strict_eq (field o "code") (VStr "ETIMEDOUT") ||
         strict_eq (field o "code") (VStr "ECONNRESET") ||
         strict_eq (field o "code") (VStr "ECONNREFUSED")) ||
        includes "timeout" message).
Proof.
  intros Hm. unfold isTransientError, mbind, result_bind. simpl.
  replace (field o "message") with (VStr message) by (unfold field; rewrite Hm; reflexivity).
  simpl.
  destruct (String.eqb message EmptyString) eqn:Hempty; simpl.
  - apply String.eqb_eq in Hempty. subst message.
    destruct (strict_eq (field o "code") (VStr "ETIMEDOUT") ||
              strict_eq (field o "code") (VStr "ECONNRESET") ||
              strict_eq (field o "code") (VStr "ECONNREFUSED")); reflexivity.
  - destruct (includes "Rate limit exceeded" message); [reflexivity|]. simpl.
    destruct (strict_eq (field o "code") (VStr "ETIMEDOUT") ||
              strict_eq (field o "code") (VStr "ECONNRESET") ||
              strict_eq (field o "code") (VStr "ECONNREFUSED")); simpl; [reflexivity|].
    destruct (includes "timeout" message); reflexivity.
Qed.

Lemma isTransientError_on_string_message_witness :
  isTransientError (Error "socket hang up") =
    Ok (includes "Rate limit exceeded" "socket hang up" ||
        (strict_eq (field (<["name" := VStr "Error"]> {["message" := VStr "socket hang up"]})
                      "code") (VStr "ETIMEDOUT") ||
         strict_eq (field (<["name" := VStr "Error"]> {["message" := VStr "socket hang up"]})
                      "code") (VStr "ECONNRESET") ||
         strict_eq (field (<["name" := VStr "Error"]> {["message" := VStr "socket hang up"]})
                      "code") (VStr "ECONNREFUSED")) ||
        includes "timeout" "socket hang up").
Proof.
  apply (isTransientError_on_string_message
           (<["name" := VStr "Error"]> {["message" := VStr "socket hang up"]})
           "socket hang up").
  reflexivity.
Defined.

(** The limiter's refusal is a transient failure whatever wait it reports:
    a job that fails with it is recorded as ['retry']. *)
Theorem rate_limit_error_is_transient (waitTime : Z) (job : obj)
    (l : RateLimiter.t) (w : world) :
  isTransientError (RateLimiter.rate_limit_error waitTime) = Ok true /\
  exists snapshot w',
    handle_failure job (RateLimiter.rate_limit_error waitTime) (l, w) =
      (Throw (RateLimiter.rate_limit_error waitTime), (l, w')) /\
    saved w' = saved w ++ [snapshot] /\
    snapshot !! "status" = Some (VStr "retry").
Proof.
  assert (Hclass : isTransientError (RateLimiter.rate_limit_error waitTime) = Ok true).
  { reflexivity. }
  split; [exact Hclass|].
  destruct (handle_failure_classified job _ true l w Hclass)
    as (message & code & _ & _ & Hhandler).
  eexists _, _. split; [exact Hhandler|]. split; [reflexivity|].
  unfold failure_snapshot. rewrite !lookup_insert_ne by done. apply lookup_insert_eq.
Qed.

End Classification.

Section ProcessorResults.
Import TaskProcessor.

Ltac invert_run H :=
  repeat match type of H with
  | context [match ?c with _ => _ end] =>
      let E := fresh "E" in destruct c eqn:E; try discriminate H
  end.

(** What [processPdfJob] returns is its argument with a [result] of exactly
    four properties. *)
Lemma processPdfJob_returns fetchDocument gemini (job job' : obj) (st st' : system) :
  processPdfJob fetchDocument gemini job st = (Ok job', st') ->
  exists result : obj,
    job' = <["result" := VObj result]> job /\ dom result = result_keys.
Proof.
  unfold processPdfJob.
  destruct (negb (truthy (field job "documentUrl"))); [discriminate|].
  unfold mbind, M_bind, mret, M_ret, on_snd, eval, now_iso, Date_now.
  intros H. invert_run H.
  injection H as <- _. eexists. split; [reflexivity|].
  unfold result_keys. rewrite !dom_insert_L, dom_singleton_L. set_solver.
Qed.

Lemma handle_failure_throws job error st :
  exists error' st', handle_failure job error st = (Throw error', st').
Proof.
  destruct (isTransientError error) as [b|te] eqn:Hclass.
  - destruct st as [l w].
    destruct (handle_failure_classified job error b l w Hclass)
      as (message & code & _ & _ & Hhandler).
    eexists _, _. exact Hhandler.
  - eexists _, _. unfold handle_failure, eval, mbind, M_bind. rewrite Hclass. reflexivity.
Qed.

(** Whenever [processJob] returns, the job was of type ['pdf-processing']
    and what comes back is that job with status ['completed'], a new
    [updatedAt] and a [result] of exactly the properties [documentId],
    [extractedText], [analysis] and [processedAt] (so never a Gemini
    insight); every other property, the [id] among them, is the one the job
    came with. *)
Theorem processJob_returns_completed_job
    (fetchDocument gemini : value -> M world value)
    (job returned : obj) (st st' : system) :
  processJob fetchDocument gemini job st = (Ok returned, st') ->
  field job "type" = VStr "pdf-processing" /\
  returned !! "status" = Some (VStr "completed") /\
  (exists result : obj,
     returned !! "result" = Some (VObj result) /\ dom result = result_keys) /\
  (forall k, k <> "status" -> k <> "updatedAt" -> k <> "result" ->
     returned !! k = job !! k).
Proof.
  unfold processJob, try_catch.
  destruct (process_steps fetchDocument gemini job st) as [[done|error] st1] eqn:Hsteps.
  - intros H. injection H as -> ->.
    unfold process_steps in Hsteps.
    unfold JobManagement.updateJobStatus, JobIntegration.saveJob,
      JobIntegration.notifyJobStatusChange, now_iso, Date_now, on_snd in Hsteps.
    unfold mbind at 1 2 3 4, M_bind at 1 2 3 4, mret at 1, M_ret at 1 in Hsteps.
    simpl in Hsteps.
    destruct (strict_eq (field job "type") (VStr "pdf-processing")) eqn:Htype.
    + apply strict_eq_str in Htype.
      unfold mbind at 1, M_bind at 1 in Hsteps.
      match type of Hsteps with context [processPdfJob _ _ ?p ?s1] =>
        destruct (processPdfJob fetchDocument gemini p s1) as [[job'|e] s2] eqn:Hpdf end;
        [|discriminate Hsteps].
      destruct (processPdfJob_returns _ _ _ _ _ _ Hpdf) as (result & -> & Hdom).
      unfold mbind, M_bind, mret, M_ret in Hsteps. simpl in Hsteps.
      injection Hsteps as <- _.
      split; [exact Htype|].
      split; [rewrite lookup_insert_ne by done; apply lookup_insert_eq|].
      split.
      * exists result. split; [|exact Hdom].
        rewrite !lookup_insert_ne by done. apply lookup_insert_eq.
      * intros k Hs Hu Hr. rewrite !lookup_insert_ne by done. reflexivity.
    + unfold throw, mbind, M_bind in Hsteps. discriminate Hsteps.
  - intros H. destruct (handle_failure_throws job error st1) as (e' & s' & Hthrow).
    rewrite Hthrow in H. discriminate H.
Qed.

(** The sample PDF job against the repository's fetcher. *)
Lemma processJob_returns_completed_job_witness :
  let run := processJob DocumentIntegration.fetchDocument sample_gemini
               (sample_pdf_job ∅) sample_system in
  let returned := returned (∅ : obj) run.1 in
  field (sample_pdf_job ∅) "type" = VStr "pdf-processing" /\
  returned !! "status" = Some (VStr "completed") /\
  (exists result : obj,
     returned !! "result" = Some (VObj result) /\ dom result = result_keys) /\
  (forall k, k <> "status" -> k <> "updatedAt" -> k <> "result" ->
     returned !! k = sample_pdf_job ∅ !! k).
Proof.
  intros run returned.
  apply (processJob_returns_completed_job DocumentIntegration.fetchDocument sample_gemini
           (sample_pdf_job ∅) returned sample_system run.2).
  apply run_returned. vm_compute. reflexivity.
Defined.

(** A PDF job without a truthy [documentUrl] fails before the fetcher is
    asked: whatever the fetcher and the analysis service are, the job is
    saved as ['processing'] and then as ['failed'] with the message
    "Missing documentUrl for PDF processing job" and the code
    UNKNOWN_ERROR, and that error is thrown. *)
Theorem processJob_missing_documentUrl
    (fetchDocument gemini : value -> M world value)
    (job : obj) (l : RateLimiter.t) (w : world) :
  strict_eq (field job "type") (VStr "pdf-processing") = true ->
  truthy (field job "documentUrl") = false ->
  let error := Error "Missing documentUrl for PDF processing job" in
  let processing := <["updatedAt" := VStr (Date.iso_text (clock w (clock_reads w)))]>
                    (<["status" := VStr "processing"]> job) in
  let failed := failure_snapshot job false
                  (VStr "Missing documentUrl for PDF processing job") VUndefined
                  (clock w (S (clock_reads w))) (clock w (S (S (clock_reads w)))) in
  processJob fetchDocument gemini job (l, w) =
    (Throw error,
     (l, job_notified failed (job_saved failed (clock_read (clock_read
           (job_notified processing (job_saved processing (clock_read w)))))))) /\
  failed !! "status" = Some (VStr "failed") /\
  field failed "error" =
    VObj (<["message" := VStr "Missing documentUrl for PDF processing job"]>
          (<["code" := VStr "UNKNOWN_ERROR"]>
           (<["isTransient" := VBool false]>
            {["timestamp" := VStr (Date.iso_text (clock w (S (S (clock_reads w)))))]}))).
Proof.
  intros Htype Hurl error processing failed.
  assert (Hsteps : process_steps fetchDocument gemini job (l, w) =
            (Throw error,
             (l, job_notified processing (job_saved processing (clock_read w))))).
  { unfold process_steps. rewrite Htype.
    unfold JobManagement.updateJobStatus, JobIntegration.saveJob,
      JobIntegration.notifyJobStatusChange, now_iso, Date_now, on_snd.
    unfold mbind at 1 2 3 4, M_bind at 1 2 3 4, mret at 1, M_ret at 1. simpl.
    fold processing. unfold processPdfJob.
    replace (field processing "documentUrl") with (field job "documentUrl")
      by (unfold field, processing; rewrite !lookup_insert_ne by done; reflexivity).
    rewrite Hurl. reflexivity. }
  assert (Hclass : isTransientError error = Ok false) by reflexivity.
  split; [|split].
  - unfold processJob, try_catch. rewrite Hsteps.
    destruct (handle_failure_classified job error false l
                (job_notified processing (job_saved processing (clock_read w))) Hclass)
      as (message & code & Hm & Hc & Hhandler).
    injection Hm as <-. injection Hc as <-. exact Hhandler.
  - unfold failed, failure_snapshot. rewrite !lookup_insert_ne by done.
    apply lookup_insert_eq.
  - unfold failed, failure_snapshot, field. rewrite lookup_insert_eq. reflexivity.
Qed.

Lemma processJob_missing_documentUrl_witness :
  let job : obj := <["id" := VStr "j6"]> {["type" := VStr "pdf-processing"]} in
  let out := processJob (failing_fetch VNull) sample_gemini job sample_system in
  out.1 = Throw (Error "Missing documentUrl for PDF processing job") /\
  statuses (saved out.2.2) = [VStr "processing"; VStr "failed"].
Proof.
  intros job out.
  destruct (processJob_missing_documentUrl (failing_fetch VNull) sample_gemini job
              sample_system.1 sample_system.2 eq_refl eq_refl) as (Hrun & Hstatus & _).
  split; [|vm_compute; reflexivity].
  unfold out. change sample_system with (sample_system.1, sample_system.2).
  rewrite Hrun. reflexivity.
Defined.

(** A job that opts out with [analyzeContent: false] never reaches the
    analysis service: once the document is fetched and its text extracted
    the stage returns with the limiter untouched and no token spent, and
    the result carries the extracted text and no analysis of its own. *)
Theorem processPdfJob_skips_analysis_on_opt_out
    (fetchDocument gemini : value -> M world value)
    (job : obj) (l : RateLimiter.t) (w w1 w2 : world)
    (document documentId : value) (documentWithText : obj) :
  truthy (field job "documentUrl") = true ->
  field job "analyzeContent" = VBool false ->
  fetchDocument (field job "documentUrl") w = (Ok document, w1) ->
  get_prop document "id" = Ok documentId ->
  DocumentProcessing.extractTextFromDocument document w1 = (Ok documentWithText, w2) ->
  processPdfJob fetchDocument gemini job (l, w) =
    (Ok (<["result" := VObj
            (<["documentId" := documentId]>
             (<["extractedText" := field documentWithText "extractedText"]>
              (<["analysis" := field documentWithText "analysis"]>
               {["processedAt" := VStr (Date.iso_text (clock w2 (clock_reads w2)))]})))]> job),
     (l, clock_read w2)).
Proof.
  intros Hurl Hopt Hfetch Hid Hextract.
  unfold processPdfJob. rewrite Hurl. simpl.
  rewrite (bind_ok _ _ _ _ _ (on_snd_run _ _ _ _ _ Hfetch)).
  rewrite (bind_eval_ok _ _ _ _ Hid).
  rewrite (bind_ok _ _ _ _ _ (on_snd_run _ _ _ _ _ Hextract)).
  rewrite Hopt. reflexivity.
Qed.

Lemma processPdfJob_skips_analysis_on_opt_out_witness :
  let job := sample_pdf_job {["analyzeContent" := VBool false]} in
  let out := processPdfJob DocumentIntegration.fetchDocument
               (fun _ => throw (Error "the analysis service was called"))
               job sample_system in
  is_ok out.1 = true /\ out.2.1 = sample_system.1.
Proof.
  intros job out.
  set (fetched := DocumentIntegration.fetchDocument (field job "documentUrl") sample_world).
  set (document := returned VUndefined fetched.1).
  set (extracted := DocumentProcessing.extractTextFromDocument document fetched.2).
  assert (Hfetch : fetched = (Ok document, fetched.2))
    by (apply run_returned; vm_compute; reflexivity).
  assert (Hextract : extracted = (Ok (returned (∅ : obj) extracted.1), extracted.2))
    by (apply run_returned; vm_compute; reflexivity).
  assert (Hid : get_prop document "id" = Ok (VStr "doc-1")) by (vm_compute; reflexivity).
  unfold out. change sample_system with (sample_system.1, sample_world).
  rewrite (processPdfJob_skips_analysis_on_opt_out DocumentIntegration.fetchDocument
             (fun _ => throw (Error "the analysis service was called")) job
             sample_system.1 sample_world fetched.2 extracted.2 document (VStr "doc-1")
             (returned (∅ : obj) extracted.1)
             ltac:(vm_compute; reflexivity) ltac:(vm_compute; reflexivity)
             Hfetch Hid Hextract).
  split; reflexivity.
Defined.

End ProcessorResults.

Section Documents.
Import DocumentProcessing DocumentIntegration.

(** [extractTextFromDocument] on a document object throws only for a
    [content] that is truthy and not a string; otherwise it returns the
    document with the text and its metadata added, where absent or empty
    content gives the text "No content available for extraction", and
    [charCount] is the length of the text, at most 59. *)
Theorem extractTextFromDocument_text_or_unavailable (o : obj) (w : world) :
  match field o "content" with
  | VStr content =>
      let text := if String.eqb content EmptyString
                  then "No content available for extraction"
                  else "Simulated extraction from " +:+ String.substring 0 30 content +:+ "..." in
      exists metadata : obj,
        extractTextFromDocument (VObj o) w =
          (Ok (<["metadata" := VObj metadata]> (<["extractedText" := VStr text]> o)),
           clock_read w) /\
        metadata !! "charCount" = Some (VNum (inject_Z (Z.of_nat (String.length text)))) /\
        (String.length text <= 59)%nat
  | content =>
      if truthy content
      then extractTextFromDocument (VObj o) w =
             (Throw (TypeError "document.content.substring is not a function"), w)
      else exists metadata : obj,
             extractTextFromDocument (VObj o) w =
               (Ok (<["metadata" := VObj metadata]>
                    (<["extractedText" := VStr "No content available for extraction"]> o)),
                clock_read w)
  end.
Proof.
  unfold extractTextFromDocument, eval, now_iso, Date_now, mbind, M_bind, mret, M_ret.
  simpl.
  destruct (field o "content") as [| |b|q| |content|items|fields] eqn:Hc; simpl;
    try (eexists; reflexivity).
  - destruct b; simpl; [reflexivity|eexists; reflexivity].
  - destruct (Qeq_bool q 0); simpl; [eexists; reflexivity|reflexivity].
  - destruct (String.eqb content EmptyString) eqn:Hempty; simpl.
    + eexists. split; [reflexivity|]. split; [|lia].
      rewrite lookup_insert_ne by done. rewrite lookup_insert_eq. reflexivity.
    + eexists. split; [reflexivity|]. split.
      * rewrite lookup_insert_ne by done. rewrite lookup_insert_eq. reflexivity.
      * assert (Hlen : forall n s, (String.length (String.substring 0 n s) <= n)%nat).
        { induction n as [|n IH]; intros [|c s']; simpl; try lia.
          specialize (IH s'). lia. }
        assert (Happ : forall a b, String.length (a +:+ b)
                                   = (String.length a + String.length b)%nat).
        { induction a as [|c a IH]; intros b; simpl; [reflexivity|]. rewrite IH. reflexivity. }
        change (String.length ("Simulated extraction from " +:+
                  (String.substring 0 30 content +:+ "...")) <= 59)%nat.
        rewrite !Happ. specialize (Hlen 30%nat content). simpl. lia.
Qed.

(** The simulated pipeline extracts the same text from every document: the
    fetcher answers any string URL, the extraction of what it answers never
    fails, and the text is the first thirty characters of the sample
    content, which do not reach the document's name. *)
Theorem fetchDocument_then_extract (url : string) (w : world) :
  exists document w1 (documentWithText : obj) w2,
    fetchDocument (VStr url) w = (Ok document, w1) /\
    get_prop document "id" =
      Ok (VStr (strip_extension (List.last (split "/" url) EmptyString))) /\
    extractTextFromDocument document w1 = (Ok documentWithText, w2) /\
    documentWithText !! "extractedText" =
      Some (VStr "Simulated extraction from This is sample content for doc...").
Proof.
  unfold fetchDocument, Math_random, now_iso, Date_now, mbind, M_bind, mret, M_ret.
  eexists _, _, _, _. split; [reflexivity|]. split; [reflexivity|].
  unfold extractTextFromDocument, eval, now_iso, Date_now, mbind, M_bind, mret, M_ret.
  simpl. split; [reflexivity|].
  rewrite lookup_insert_ne by done. apply lookup_insert_eq.
Qed.

Lemma list_ascii_of_string_app a b :
  list_ascii_of_string (a +:+ b) = list_ascii_of_string a ++ list_ascii_of_string b.
Proof. induction a as [|c a IH]; simpl; [reflexivity|]. rewrite IH. reflexivity. Qed.

Lemma last_dot_found ext_rev stem_rev :
  forallb (fun c => negb (Ascii.eqb c ".")) ext_rev = true ->
  last_dot (ext_rev ++ "."%char :: stem_rev) = Some (ext_rev, stem_rev).
Proof.
  induction ext_rev as [|c rest IH]; simpl; [reflexivity|].
  intros H. apply andb_true_iff in H as [Hc Hrest].
  apply negb_true_iff in Hc. rewrite Hc, (IH Hrest). reflexivity.
Qed.

Lemma last_dot_absent chars :
  forallb (fun c => negb (Ascii.eqb c ".")) chars = true -> last_dot chars = None.
Proof.
  induction chars as [|c rest IH]; simpl; [reflexivity|].
  intros H. apply andb_true_iff in H as [Hc Hrest].
  apply negb_true_iff in Hc. rewrite Hc, (IH Hrest). reflexivity.
Qed.

(** The document id is the file name without its last extension: a dot
    followed by a non-empty run free of dots and slashes is cut off with
    what follows it, and a name without a dot is kept whole. *)
Theorem strip_extension_cuts_last_extension (stem ext : string) :
  ext <> EmptyString ->
  free_of "." "/" ext = true ->
  strip_extension (stem +:+ "." +:+ ext) = stem /\
  strip_extension ext = ext.
Proof.
  intros Hne Hfree. unfold free_of in Hfree.
  assert (Hdot : forall l, forallb (fun c => negb (Ascii.eqb c "." || Ascii.eqb c "/")) l = true ->
            forallb (fun c => negb (Ascii.eqb c ".")) l = true /\
            existsb (fun c => Ascii.eqb c "/") l = false).
  { induction l as [|c l IH]; simpl; [auto|].
    intros H. apply andb_true_iff in H as [Hc Hl]. destruct (IH Hl) as [H1 H2].
    apply negb_true_iff, orb_false_iff in Hc as [Hc1 Hc2].
    rewrite Hc1, Hc2, H1, H2. auto. }
  assert (Hrev : forallb (fun c => negb (Ascii.eqb c "." || Ascii.eqb c "/"))
                   (rev (list_ascii_of_string ext)) = true).
  { rewrite forallb_forall in Hfree |- *. intros c Hc. apply Hfree.
    apply in_rev. exact Hc. }
  destruct (Hdot _ Hrev) as [Hnodot Hnoslash].
  split.
  - unfold strip_extension.
    rewrite list_ascii_of_string_app. simpl list_ascii_of_string.
    rewrite rev_app_distr. simpl rev. rewrite <- app_assoc. simpl app.
    rewrite (last_dot_found _ _ Hnodot).
    destruct (rev (list_ascii_of_string ext)) as [|c ext_rev] eqn:Hext.
    + exfalso. apply Hne.
      apply (f_equal (@rev ascii)) in Hext. rewrite rev_involutive in Hext. simpl in Hext.
      rewrite <- (string_of_list_ascii_of_string ext), Hext. reflexivity.
    + rewrite Hnoslash. rewrite rev_involutive.
      apply string_of_list_ascii_of_string.
  - unfold strip_extension. rewrite (last_dot_absent _ Hnodot). reflexivity.
Qed.

Lemma strip_extension_cuts_last_extension_witness :
  strip_extension ("report.final" +:+ "." +:+ "pdf") = "report.final" /\
  strip_extension "pdf" = "pdf".
Proof.
  apply (strip_extension_cuts_last_extension "report.final" "pdf").
  - discriminate.
  - reflexivity.
Defined.

Lemma filter_random_sublist items : forall w,
  exists kept w',
    filter_random items w = (Ok kept, w') /\
    sublist kept items /\
    random w' = random w /\
    random_draws w' = (random_draws w + List.length items)%nat.
Proof.
  induction items as [|x rest IH]; intros w; simpl.
  - exists [], w. split; [reflexivity|]. split; [constructor|]. split; [reflexivity|lia].
  - unfold Math_random, mbind, M_bind, mret, M_ret. simpl.
    destruct (IH (random_drawn w)) as (kept & w' & -> & Hsub & Hr & Hd).
    eexists _, _. split; [reflexivity|].
    split; [|split; [exact Hr|rewrite Hd; simpl; lia]].
    destruct (Qlt_bool (1 # 2) (random w (random_draws w))).
    + apply sublist_skip. exact Hsub.
    + apply sublist_cons. exact Hsub.
Qed.

Lemma Qfloor_nonneg (x : Q) : (0 <= x)%Q -> 0 <= Qfloor x.
Proof.
  intros H. pose proof (Qfloor_resp_le _ _ H) as Hf.
  change 0%Q with (inject_Z 0) in Hf. rewrite Qfloor_Z in Hf. exact Hf.
Qed.

Lemma Qfloor_below (x : Q) (n : Z) : (x < inject_Z n)%Q -> Qfloor x < n.
Proof.
  intros H. rewrite Zlt_Qlt. eapply Qle_lt_trans; [apply Qfloor_le|exact H].
Qed.

(** With draws in the unit interval the simulated analysis stays within
    its ranges: the sentiment is one of the three labels, the keywords are
    a selection of the four samples in their order, and the confidence is
    a number of hundredths between 0 and 1.  It takes six random draws. *)
Theorem analyzeDocument_within_ranges (documentWithText : obj) (w : world) :
  random_in_unit w ->
  truthy (field documentWithText "extractedText") = true ->
  exists (analysis : obj) sentiment keywords (hundredths : Z) w',
    analyzeDocument documentWithText w =
      (Ok (<["analysis" := VObj analysis]> documentWithText), w') /\
    analysis !! "sentiment" = Some sentiment /\ In sentiment sentiments /\
    analysis !! "keywords" = Some (VArr keywords) /\ sublist keywords sampleKeywords /\
    analysis !! "confidence" = Some (VNum (inject_Z hundredths / 100)) /\
    0 <= hundredths <= 100 /\
    random_draws w' = (random_draws w + 6)%nat.
Proof.
  intros Hunit Htext. unfold analyzeDocument. rewrite Htext.
  change (negb true) with false. cbv iota.
  unfold mbind, M_bind. unfold Math_random at 1. cbv beta iota.
  match goal with |- context [filter_random ?l ?w1] =>
    destruct (filter_random_sublist l w1) as (kept & w2 & Hrun & Hsub & Hr & Hd) end.
  rewrite Hrun.
  unfold Math_random, now_iso, Date_now, mbind, M_bind, mret, M_ret.
  destruct (Hunit (random_draws w)) as [Hu0 Hu1].
  destruct (Hunit (random_draws w2)) as [Hc0 Hc1].
  simpl in Hr. rewrite <- Hr in Hc0, Hc1.
  set (u := random w (random_draws w)) in *.
  set (c := random w2 (random_draws w2)) in *.
  eexists _, _, kept, (round (c * 100)), _.
  split; [reflexivity|].
  split; [rewrite lookup_insert_ne by done; apply lookup_insert_eq|].
  split.
  { assert (Hi0 : 0 <= Qfloor (u * 3)).
    { apply Qfloor_nonneg. apply Qmult_le_0_compat; [exact Hu0|discriminate]. }
    assert (Hi3 : Qfloor (u * 3) < 3).
    { apply Qfloor_below. change (inject_Z 3) with (1 * 3)%Q.
      apply Qmult_lt_compat_r; [reflexivity|exact Hu1]. }
    destruct (Qfloor (u * 3) <? 0) eqn:E; [apply Z.ltb_lt in E; lia|].
    assert (Hcases : Qfloor (u * 3) = 0 \/ Qfloor (u * 3) = 1 \/ Qfloor (u * 3) = 2) by lia.
    destruct Hcases as [-> | [-> | ->]]; simpl; auto. }
  split; [do 2 rewrite lookup_insert_ne by done; apply lookup_insert_eq|].
  split; [exact Hsub|].
  split; [do 3 rewrite lookup_insert_ne by done; apply lookup_insert_eq|].
  split.
  { unfold round. split.
    - apply Qfloor_nonneg.
      apply (Qle_trans _ (0 + (1 # 2))); [discriminate|].
      apply Qplus_le_l. apply Qmult_le_0_compat; [exact Hc0|discriminate].
    - assert (Qfloor (c * 100 + (1 # 2)) < 101); [|lia].
      apply Qfloor_below. apply (Qlt_trans _ (1 * 100 + (1 # 2)));
        [|reflexivity].
      apply Qplus_lt_l. apply Qmult_lt_compat_r; [reflexivity|exact Hc1]. }
  simpl. rewrite Hd. simpl. lia.
Qed.

Lemma analyzeDocument_within_ranges_witness :
  let documentWithText : obj := {["extractedText" := VStr "Simulated extraction from ..."]} in
  random_in_unit sample_world /\
  exists (analysis : obj) w',
    analyzeDocument documentWithText sample_world =
      (Ok (<["analysis" := VObj analysis]> documentWithText), w') /\
    random_draws w' = 6%nat.
Proof.
  intros documentWithText.
  assert (Hunit : random_in_unit sample_world).
  { intros n. split; [discriminate|reflexivity]. }
  destruct (analyzeDocument_within_ranges documentWithText sample_world Hunit eq_refl)
    as (analysis & sentiment & keywords & hundredths & w' & Hrun & _ & _ & _ & _ & _ & _ & Hdraws).
  split; [exact Hunit|]. exists analysis, w'. split; [exact Hrun|exact Hdraws].
Defined.

End Documents.

Section Identifiers.
Import JobManagement.

Lemma to_int32_nibble (u : Q) :
  (0 <= u)%Q -> (u < 1)%Q -> 0 <= to_int32 (u * 16) < 16.
Proof.
  intros H0 H1. unfold to_int32, Date.truncate.
  assert (Hpos : (0 <= u * 16)%Q) by (apply Qmult_le_0_compat; [exact H0|discriminate]).
  assert (Hle : Qle_bool 0 (u * 16) = true) by (apply Qle_bool_iff; exact Hpos).
  rewrite Hle.
  pose proof (Qfloor_nonneg _ Hpos) as Hf0.
  assert (Hf1 : Qfloor (u * 16) < 16).
  { apply Qfloor_below. change (inject_Z 16) with (1 * 16)%Q.
    apply Qmult_lt_compat_r; [reflexivity|exact H1]. }
  rewrite Z.mod_small by lia. lia.
Qed.

Lemma nibble_cases (r : Z) : 0 <= r < 16 ->
  In r [0; 1; 2; 3; 4; 5; 6; 7; 8; 9; 10; 11; 12; 13; 14; 15].
Proof. intros H. simpl. lia. Qed.

Lemma replace_xy_digit (c : ascii) (w : world) :
  random_in_unit w ->
  exists d,
    replace_xy c w = (Ok (String d EmptyString), random_drawn w) /\
    one_of "0123456789abcdef" d = true /\
    (Ascii.eqb c "x" = false -> one_of "89ab" d = true).
Proof.
  intros Hunit. destruct (Hunit (random_draws w)) as [H0 H1].
  unfold replace_xy, Math_random, mbind, M_bind, mret, M_ret.
  pose proof (nibble_cases _ (to_int32_nibble _ H0 H1)) as Hr.
  set (r := to_int32 (random w (random_draws w) * 16)) in *.
  destruct (Ascii.eqb c "x");
    simpl in Hr; repeat (destruct Hr as [<- | Hr]; [eexists; split; [reflexivity|]; split; [reflexivity|try discriminate; reflexivity]|]);
    contradiction.
Qed.

Lemma replace_all_xy_draws template : forall w,
  exists s w', replace_all_xy template w = (Ok s, w') /\ draws_only (count_xy template) w w'.
Proof.
  induction template as [|c rest IH]; intros w; simpl.
  - exists EmptyString, w. split; [reflexivity|].
    unfold draws_only. destruct w; simpl. f_equal. lia.
  - destruct (Ascii.eqb c "x" || Ascii.eqb c "y").
    + unfold replace_xy, Math_random, mbind, M_bind, mret, M_ret. simpl.
      destruct (IH (random_drawn w)) as (s & w' & -> & Hdraws).
      eexists _, _. split; [reflexivity|].
      rewrite Hdraws. unfold draws_only. simpl. f_equal. lia.
    + unfold mbind, M_bind, mret, M_ret. simpl.
      destruct (IH w) as (s & w' & -> & Hdraws).
      eexists _, _. split; [reflexivity|exact Hdraws].
Qed.

Lemma replace_all_xy_follows template : forall w,
  random_in_unit w ->
  exists s w',
    replace_all_xy template w = (Ok s, w') /\
    follows_template template s = true.
Proof.
  induction template as [|c rest IH]; intros w Hunit; simpl.
  - exists EmptyString, w. split; reflexivity.
  - destruct (Ascii.eqb c "x" || Ascii.eqb c "y") eqn:Hxy.
    + destruct (replace_xy_digit c w Hunit) as (d & Hrun & Hhex & Hy).
      rewrite (bind_ok _ _ _ _ _ Hrun).
      assert (Hunit1 : random_in_unit (random_drawn w)) by exact Hunit.
      destruct (IH _ Hunit1) as (s & w' & Hrest & Hfollows).
      rewrite (bind_ok _ _ _ _ _ Hrest).
      exists (String d s), w'. split; [reflexivity|].
      simpl. rewrite Hfollows, Hhex.
      destruct (Ascii.eqb c "x") eqn:Hx; [reflexivity|].
      simpl in Hxy. rewrite Hxy, (Hy eq_refl). reflexivity.
    + apply orb_false_iff in Hxy as [Hx Hy].
      unfold mbind at 1, M_bind at 1, mret at 1, M_ret at 1.
      destruct (IH _ Hunit) as (s & w' & Hrest & Hfollows).
      rewrite (bind_ok _ _ _ _ _ Hrest).
      exists (String c s), w'. split; [reflexivity|].
      simpl. rewrite Hx, Hy, Hfollows, Ascii.eqb_refl. reflexivity.
Qed.

Lemma follows_template_length template : forall s,
  follows_template template s = true -> String.length s = String.length template.
Proof.
  induction template as [|t rest IH]; intros [|c s]; simpl; try discriminate; [reflexivity|].
  intros H. apply andb_true_iff in H as [_ H]. rewrite (IH _ H). reflexivity.
Qed.

(** With draws in the unit interval [generateId] returns a version-4 UUID:
    36 characters, lower-case hexadecimal digits in five groups separated
    by dashes, the version digit 4 and a variant digit among 8, 9, a, b.
    It takes 31 random draws and touches nothing else. *)
Theorem generateId_is_uuid_v4 (w : world) :
  random_in_unit w ->
  exists id w',
    generateId w = (Ok id, w') /\
    follows_template "xxxxxxxx-xxxx-4xxx-yxxx-xxxxxxxxxxxx" id = true /\
    String.length id = 36%nat /\
    draws_only 31 w w'.
Proof.
  intros Hunit.
  destruct (replace_all_xy_follows "xxxxxxxx-xxxx-4xxx-yxxx-xxxxxxxxxxxx" w Hunit)
    as (id & w' & Hrun & Hfollows).
  destruct (replace_all_xy_draws "xxxxxxxx-xxxx-4xxx-yxxx-xxxxxxxxxxxx" w)
    as (id' & w'' & Hrun' & Hdraws).
  rewrite Hrun in Hrun'. injection Hrun' as <- <-.
  exists id, w'. split; [exact Hrun|]. split; [exact Hfollows|].
  split; [exact (follows_template_length _ _ Hfollows)|exact Hdraws].
Qed.

Lemma generateId_is_uuid_v4_witness :
  random_in_unit sample_world /\
  exists id w',
    generateId sample_world = (Ok id, w') /\
    follows_template "xxxxxxxx-xxxx-4xxx-yxxx-xxxxxxxxxxxx" id = true /\
    String.length id = 36%nat.
Proof.
  assert (Hunit : random_in_unit sample_world).
  { intros n. split; [discriminate|reflexivity]. }
  destruct (generateId_is_uuid_v4 sample_world Hunit)
    as (id & w' & Hrun & Hfollows & Hlength & _).
  split; [exact Hunit|]. exists id, w'.
  split; [exact Hrun|]. split; [exact Hfollows|exact Hlength].
Defined.

End Identifiers.

Section Routes.
Import JobManagement JobIntegration JobRoutes.

Lemma field_insert (o : obj) k v : field (<[k := v]> o) k = v.
Proof. unfold field. rewrite lookup_insert_eq. reflexivity. Qed.

Lemma field_insert_ne (o : obj) k k' v : k <> k' -> field (<[k := v]> o) k' = field o k'.
Proof. intros H. unfold field. rewrite lookup_insert_ne by exact H. reflexivity. Qed.

Lemma field_singleton k v : field {[k := v]} k = v.
Proof. unfold field. rewrite lookup_singleton_eq. reflexivity. Qed.

Lemma get_prop_opt_obj (o : obj) k : get_prop_opt (VObj o) k = field o k.
Proof. reflexivity. Qed.

Lemma createJob_run (jobData : obj) (w : world) :
  exists id createdAt updatedAt w',
    createJob jobData w =
      (Ok (jobData ∪ <["id" := VStr id]> (<["status" := VStr "pending"]>
             (<["createdAt" := createdAt]> {["updatedAt" := updatedAt]}))), w') /\
    saved w' = saved w /\ notified w' = notified w.
Proof.
  destruct (replace_all_xy_draws "xxxxxxxx-xxxx-4xxx-yxxx-xxxxxxxxxxxx" w)
    as (id & w1 & Hid & Hdraws).
  unfold createJob, generateId. rewrite (bind_ok _ _ _ _ _ Hid).
  unfold now_iso, Date_now, mbind, M_bind, mret, M_ret. simpl.
  eexists _, _, _, _. split; [reflexivity|].
  rewrite Hdraws. split; reflexivity.
Qed.

Lemma findJobById_run jobId store w :
  findJobById jobId (store, w) =
    (Ok (match store !! jobId with Some job => VObj job | None => VNull end), (store, w)).
Proof.
  unfold findJobById, try_catch, jobStore_get, gets, on_snd,
    JobIntegration.fetchJobFromFirebase, mbind, M_bind, mret, M_ret.
  simpl. destruct (store !! jobId); reflexivity.
Qed.

Lemma on_app_run {A} (m : M app A) store qst l w r store' w' :
  m (store, w) = (r, (store', w')) ->
  on_app m (store, (qst, (l, w))) = (r, (store', (qst, (l, w')))).
Proof. intros H. unfold on_app. simpl. rewrite H. reflexivity. Qed.

Lemma get_prop_truthy v k : truthy v = true -> exists x, get_prop v k = Ok x.
Proof. destruct v; simpl; try discriminate; eauto. Qed.

Lemma cancelJob_refused req store w (job : obj) :
  store !! jobId req = Some job ->
  strict_eq (field job "status") (VStr "pending") = false ->
  cancelJob req (store, w) = (Ok (cancel_refused (field job "status")), (store, w)).
Proof.
  intros Hstored Hne. unfold cancelJob, try_catch.
  rewrite (bind_ok _ _ _ _ _ (findJobById_run _ _ _)), Hstored.
  unfold eval, mbind, M_bind, mret, M_ret. simpl. rewrite Hne. reflexivity.
Qed.

Lemma addJob_run (job : obj) (qst : QueueManager.state) (l : RateLimiter.t) (w : world) :
  truthy (field job "id") = true ->
  exists (queued : obj) w',
    QueueManager.addJob job (qst, (l, w)) =
      (Ok queued,
       (QueueManager.mk (QueueManager.jobQueue qst ++ [queued])
          (QueueManager.isProcessing qst) (QueueManager.checkInterval qst), (l, w'))) /\
    saved w' = saved w /\ notified w' = notified w /\
    (forall k, k <> "queuedAt" -> k <> "scheduledFor" -> queued !! k = job !! k).
Proof.
  intros Hid. unfold QueueManager.addJob. rewrite Hid.
  change (negb true) with false. cbv iota.
  unfold QueueManager.set_jobQueue, modify, on_snd, now_iso, Date_now,
    mbind, M_bind, mret, M_ret.
  cbn [fst snd].
  destruct (truthy (field job "scheduledFor")); cbn [fst snd];
    (eexists _, _; split; [reflexivity|]; split; [reflexivity|]; split; [reflexivity|];
     intros k Hq Hs; rewrite !lookup_insert_ne by congruence; reflexivity).
Qed.

(** A submitted job can be fetched back: the answer is 201 with the id the
    job is stored under and its status URL, the stored job holds every
    property of the request body and, beside them, only the four defaults,
    it was sent to the persistent store once, and the job route answers a
    request for that id with this very job. *)
Theorem submitJob_then_getJob (req : request) (store : gmap string obj) (w : world) :
  (forall v, spread (body req) !! "id" = Some v -> exists s, v = VStr s) ->
  exists id (job : obj) st',
    submitJob req (store, w) =
      (Ok (mkResponse 201
             (<["id" := VStr id]> (<["status" := field job "status"]>
                {["statusUrl" := VStr ("/api/v1/jobs/" +:+ id +:+ "/status")]}))), st') /\
    spread (body req) ⊆ job /\
    dom job = dom (spread (body req)) ∪ default_names /\
    st'.1 = <[id := job]> store /\
    saved st'.2 = saved w ++ [job] /\
    forall req', jobId req' = id -> getJob req' st' = (Ok (mkResponse 200 job), st').
Proof.
  intros Hid.
  destruct (createJob_run (spread (body req)) w)
    as (fresh & createdAt & updatedAt & w1 & Hcreate & Hsaved & _).
  set (job := spread (body req) ∪ _) in Hcreate.
  assert (Hfield : exists id, field job "id" = VStr id).
  { unfold field, job. rewrite lookup_union.
    destruct (spread (body req) !! "id") as [v|] eqn:E.
    - destruct (Hid v eq_refl) as (s & ->). exists s. reflexivity.
    - exists fresh. reflexivity. }
  destruct Hfield as (id & Hfield).
  exists id, job. unfold submitJob, try_catch.
  rewrite (bind_ok _ _ _ _ _ (on_snd_run _ store _ _ _ Hcreate)).
  unfold saveJob, jobStore_set, modify, on_snd, mbind, M_bind, mret, M_ret. simpl.
  rewrite Hfield. simpl.
  eexists. split; [reflexivity|].
  split; [apply map_union_subseteq_l|].
  split.
  { unfold job, default_names. rewrite dom_union_L. do 3 rewrite dom_insert_L.
    rewrite dom_singleton_L. set_solver. }
  split; [reflexivity|]. split; [simpl; rewrite Hsaved; reflexivity|].
  intros req' <-. unfold getJob, try_catch.
  rewrite (bind_ok _ _ _ _ _ (findJobById_run _ _ _)).
  rewrite lookup_insert_eq. reflexivity.
Qed.

Lemma submitJob_then_getJob_witness :
  let req := mkRequest EmptyString VUndefined (VObj {["type" := VStr "pdf-processing"]}) in
  (forall v, spread (body req) !! "id" = Some v -> exists s, v = VStr s) /\
  exists id (job : obj) st',
    (submitJob req (∅, sample_world)).2 = st' /\
    getJob (mkRequest id VUndefined VUndefined) st' = (Ok (mkResponse 200 job), st') /\
    job !! "type" = Some (VStr "pdf-processing").
Proof.
  intros req.
  assert (Hid : forall v, spread (body req) !! "id" = Some v -> exists s, v = VStr s).
  { intros v H. cbn [req body spread] in H.
    rewrite lookup_singleton_ne in H by done. discriminate H. }
  destruct (submitJob_then_getJob req ∅ sample_world Hid)
    as (id & job & st' & Hrun & Hsub & _ & _ & _ & Hget).
  split; [exact Hid|]. exists id, job, st'.
  split; [rewrite Hrun; reflexivity|]. split; [apply Hget; reflexivity|].
  apply (lookup_weaken _ _ _ _ (lookup_singleton_eq _ _) Hsub).
Defined.

(** Cancelling a stored pending job: the answer is 200, the job is stored,
    saved and notified with the status ['cancelled'] and a [cancellation]
    record, every other property but [updatedAt] is kept, and the same
    request made again is refused with 400 and changes nothing. *)
Theorem cancelJob_cancels_pending_once (req : request) (store : gmap string obj)
    (w : world) (job : obj) (reason : value) :
  store !! jobId req = Some job ->
  field job "status" = VStr "pending" ->
  get_prop (body req) "reason" = Ok reason ->
  exists (cancelled : obj) cancelledAt st',
    cancelJob req (store, w) =
      (Ok (mkResponse 200
             (<["id" := VStr (jobId req)]> (<["status" := VStr "cancelled"]>
                (<["message" := VStr "Job cancelled successfully"]>
                   {["cancelledAt" := cancelledAt]})))), st') /\
    st'.1 = <[jobId req := cancelled]> store /\
    saved st'.2 = saved w ++ [cancelled] /\
    notified st'.2 = notified w ++ [cancelled] /\
    cancelled !! "status" = Some (VStr "cancelled") /\
    get_prop_opt (field cancelled "cancellation") "reason" = or reason (VStr "User cancelled") /\
    (forall k, k <> "status" -> k <> "updatedAt" -> k <> "cancellation" ->
       cancelled !! k = job !! k) /\
    cancelJob req st' = (Ok (cancel_refused (VStr "cancelled")), st').
Proof.
  intros Hstored Hpending Hreason. unfold cancelJob at 1, try_catch.
  rewrite (bind_ok _ _ _ _ _ (findJobById_run _ _ _)), Hstored.
  unfold eval, updateJobStatus, saveJob, notifyJobStatusChange, now_iso, Date_now,
    modify, on_snd, mbind, M_bind, mret, M_ret.
  simpl. rewrite Hpending, Hreason. simpl.
  eexists _, _, _. split; [reflexivity|].
  split; [reflexivity|]. split; [reflexivity|]. split; [reflexivity|].
  split; [do 2 rewrite lookup_insert_ne by done; apply lookup_insert_eq|].
  split.
  { rewrite field_insert, get_prop_opt_obj.
    do 2 rewrite field_insert_ne by done. apply field_singleton. }
  split.
  { intros k Hs Hu Hc. rewrite !lookup_insert_ne by congruence. reflexivity. }
  match goal with |- cancelJob req (?s, ?w') = _ =>
    rewrite (cancelJob_refused req s w' _ (lookup_insert_eq _ _ _)) end.
  - do 2 rewrite field_insert_ne by done. rewrite field_insert. reflexivity.
  - do 2 rewrite field_insert_ne by done. rewrite field_insert. reflexivity.
Qed.

Lemma cancelJob_cancels_pending_once_witness :
  let job : obj := <["id" := VStr "j7"]> {["status" := VStr "pending"]} in
  let store : gmap string obj := {["j7" := job]} in
  let req := mkRequest "j7" VUndefined (VObj ∅) in
  store !! jobId req = Some job /\
  field job "status" = VStr "pending" /\
  get_prop (body req) "reason" = Ok VUndefined /\
  exists st',
    (cancelJob req (store, sample_world)).2 = st' /\
    cancelJob req st' = (Ok (cancel_refused (VStr "cancelled")), st').
Proof.
  intros job store req.
  assert (Hstored : store !! jobId req = Some job) by apply lookup_singleton_eq.
  assert (Hpending : field job "status" = VStr "pending").
  { unfold job. rewrite field_insert_ne by done. apply field_singleton. }
  assert (Hreason : get_prop (body req) "reason" = Ok VUndefined) by reflexivity.
  destruct (cancelJob_cancels_pending_once req store sample_world job VUndefined
              Hstored Hpending Hreason)
    as (cancelled & cancelledAt & st' & Hrun & _ & _ & _ & _ & _ & _ & Hagain).
  split; [exact Hstored|]. split; [exact Hpending|]. split; [exact Hreason|].
  exists st'. split; [rewrite Hrun; reflexivity|exact Hagain].
Defined.

(** A job id the store does not hold is answered with 404 by every route
    that takes one, and nothing changes: no state, no clock reading. *)
Theorem unknown_job_is_not_found (req : request) (store : gmap string obj) (w : world)
    (qst : QueueManager.state) (l : RateLimiter.t) (queueManager : bool) :
  store !! jobId req = None ->
  getJob req (store, w) = (Ok (not_found (jobId req)), (store, w)) /\
  getJobStatus req (store, w) = (Ok (not_found (jobId req)), (store, w)) /\
  cancelJob req (store, w) = (Ok (not_found (jobId req)), (store, w)) /\
  retryJob queueManager req (store, (qst, (l, w))) =
    (Ok (not_found (jobId req)), (store, (qst, (l, w)))).
Proof.
  intros Hnone.
  pose proof (findJobById_run (jobId req) store w) as Hfind. rewrite Hnone in Hfind.
  split; [|split; [|split]].
  - unfold getJob, try_catch. rewrite (bind_ok _ _ _ _ _ Hfind). reflexivity.
  - unfold getJobStatus, try_catch. rewrite (bind_ok _ _ _ _ _ Hfind). reflexivity.
  - unfold cancelJob, try_catch. rewrite (bind_ok _ _ _ _ _ Hfind). reflexivity.
  - unfold retryJob, try_catch.
    rewrite (bind_ok _ _ _ _ _ (on_app_run _ _ qst l _ _ _ _ Hfind)). reflexivity.
Qed.

Lemma unknown_job_is_not_found_witness :
  let req := mkRequest "missing" VUndefined (VObj ∅) in
  (∅ : gmap string obj) !! jobId req = None /\
  cancelJob req (∅, sample_world) = (Ok (not_found "missing"), (∅, sample_world)).
Proof.
  intros req.
  assert (Hnone : (∅ : gmap string obj) !! jobId req = None) by apply lookup_empty.
  destruct (unknown_job_is_not_found req ∅ sample_world idle_queue sample_system.1 true Hnone)
    as (_ & _ & Hcancel & _).
  split; [exact Hnone|exact Hcancel].
Defined.

(** The status route answers 200 for every stored job and changes nothing.
    The answer carries the job's id and status and a progress of 0, 50 or
    100 for a pending, processing or completed job; it has a [result] only
    for a completed job with one and an [error] only for a failed job with
    one. *)
Theorem getJobStatus_of_stored_job (req : request) (store : gmap string obj) (w : world)
    (job : obj) :
  store !! jobId req = Some job ->
  exists (statusResponse : obj) progress,
    getJobStatus req (store, w) = (Ok (mkResponse 200 statusResponse), (store, w)) /\
    statusResponse !! "id" = Some (field job "id") /\
    statusResponse !! "status" = Some (field job "status") /\
    statusResponse !! "progress" = Some progress /\
    calculateJobProgress (VObj job) = Ok progress /\
    (field job "status" = VStr "pending" -> progress = VNum 0) /\
    (field job "status" = VStr "processing" -> progress = VNum 50) /\
    (field job "status" = VStr "completed" -> progress = VNum 100) /\
    (is_Some (statusResponse !! "result") <->
       field job "status" = VStr "completed" /\ truthy (field job "result") = true) /\
    (is_Some (statusResponse !! "error") <->
       field job "status" = VStr "failed" /\ truthy (field job "error") = true).
Proof.
  intros Hstored.
  pose proof (findJobById_run (jobId req) store w) as Hfind. rewrite Hstored in Hfind.
  unfold getJobStatus, try_catch. rewrite (bind_ok _ _ _ _ _ Hfind).
  assert (Hprogress : exists progress, calculateJobProgress (VObj job) = Ok progress /\
    (field job "status" = VStr "pending" -> progress = VNum 0) /\
    (field job "status" = VStr "processing" -> progress = VNum 50) /\
    (field job "status" = VStr "completed" -> progress = VNum 100)).
  { unfold calculateJobProgress. simpl.
    destruct (strict_eq (field job "status") (VStr "pending")) eqn:E1.
    { apply strict_eq_str in E1. rewrite E1. eexists. split; [reflexivity|].
      split; [reflexivity|]. split; discriminate. }
    destruct (strict_eq (field job "status") (VStr "processing")) eqn:E2.
    { apply strict_eq_str in E2. rewrite E2. eexists. split; [reflexivity|].
      split; [discriminate|]. split; [reflexivity|discriminate]. }
    destruct (strict_eq (field job "status") (VStr "completed")) eqn:E3.
    { apply strict_eq_str in E3. rewrite E3. eexists. split; [reflexivity|].
      split; [discriminate|]. split; [discriminate|reflexivity]. }
    assert (Hrest : forall p,
      (field job "status" = VStr "pending" -> p = VNum 0) /\
      (field job "status" = VStr "processing" -> p = VNum 50) /\
      (field job "status" = VStr "completed" -> p = VNum 100)).
    { intros p. split; [|split]; intros H; rewrite H in *; discriminate. }
    destruct (strict_eq (field job "status") (VStr "failed") ||
              strict_eq (field job "status") (VStr "cancelled"));
      eexists; (split; [reflexivity|apply Hrest]). }
  destruct Hprogress as (progress & Hcalc & Hp0 & Hp50 & Hp100).
  exists
    (let base : obj :=
       <["id" := field job "id"]> (<["status" := field job "status"]>
         (<["type" := field job "type"]> (<["progress" := progress]>
           (<["createdAt" := field job "createdAt"]>
              {["updatedAt" := field job "updatedAt"]})))) in
     let withResult : obj :=
       if strict_eq (field job "status") (VStr "completed") && truthy (field job "result")
       then <["result" := VObj (<["summary" :=
                 get_prop_opt (get_prop_opt (field job "result") "analysis") "summary"]>
               {["processedAt" := get_prop_opt (field job "result") "processedAt"]})]> base
       else base in
     if strict_eq (field job "status") (VStr "failed") && truthy (field job "error")
     then <["error" := VObj (<["message" := get_prop_opt (field job "error") "message"]>
               {["timestamp" := get_prop_opt (field job "error") "timestamp"]})]> withResult
     else withResult), progress.
  split.
  { unfold eval, mbind, M_bind, mret, M_ret.
    change (negb (truthy (VObj job))) with false. cbv beta iota.
    rewrite Hcalc.
    repeat match goal with |- context [get_prop (VObj job) ?k] =>
      change (get_prop (VObj job) k) with (Ok (A := value) (field job k)) end.
    cbv beta iota.
    destruct (strict_eq (field job "status") (VStr "completed")) eqn:Ec;
      destruct (truthy (field job "result")) eqn:Er;
      destruct (strict_eq (field job "status") (VStr "failed")) eqn:Ef;
      destruct (truthy (field job "error")) eqn:Ee; simpl andb; cbv beta iota;
      try (destruct (get_prop_truthy _ "analysis" Er) as (a & Ha);
           destruct (get_prop_truthy _ "processedAt" Er) as (b & Hb);
           unfold get_prop_opt; rewrite ?Ha, ?Hb; cbv beta iota);
      try (destruct (get_prop_truthy _ "message" Ee) as (c & Hc);
           destruct (get_prop_truthy _ "timestamp" Ee) as (d & Hd);
           unfold get_prop_opt; rewrite ?Hc, ?Hd; cbv beta iota);
      reflexivity. }
  cbv zeta.
  destruct (strict_eq (field job "status") (VStr "completed")) eqn:Ec;
    destruct (truthy (field job "result")) eqn:Er;
    destruct (strict_eq (field job "status") (VStr "failed")) eqn:Ef;
    destruct (truthy (field job "error")) eqn:Ee; simpl andb; cbv beta iota;
    try (apply strict_eq_str in Ec); try (apply strict_eq_str in Ef);
    try (rewrite Ec in Ef; discriminate Ef).
  all: split; [rewrite ?lookup_insert_ne by done; apply lookup_insert_eq|].
  all: split; [rewrite ?lookup_insert_ne by done; apply lookup_insert_eq|].
  all: split; [rewrite ?lookup_insert_ne by done; apply lookup_insert_eq|].
  all: split; [exact Hcalc|]. 
  all: split; [exact Hp0|]. all: split; [exact Hp50|]. all: split; [exact Hp100|].
  all: repeat (rewrite lookup_insert_eq || rewrite lookup_insert_ne by done).
  all: try rewrite lookup_singleton_ne by done.
  all: split; split.
  all: first
    [ intros [? H]; discriminate H
    | intros _; split; [assumption|reflexivity]
    | intros _; eexists; reflexivity
    | intros [H1 H2]; first [congruence | rewrite H1 in *; discriminate] ].
Qed.

Lemma getJobStatus_of_stored_job_witness :
  let job : obj := <["id" := VStr "j8"]> {["status" := VStr "processing"]} in
  let store : gmap string obj := {["j8" := job]} in
  let req := mkRequest "j8" VUndefined VUndefined in
  store !! jobId req = Some job /\
  exists statusResponse : obj,
    getJobStatus req (store, sample_world) =
      (Ok (mkResponse 200 statusResponse), (store, sample_world)) /\
    statusResponse !! "progress" = Some (VNum 50).
Proof.
  intros job store req.
  assert (Hstored : store !! jobId req = Some job) by apply lookup_singleton_eq.
  assert (Hstatus : field job "status" = VStr "processing").
  { unfold job. rewrite field_insert_ne by done. apply field_singleton. }
  destruct (getJobStatus_of_stored_job req store sample_world job Hstored)
    as (statusResponse & progress & Hrun & _ & _ & Hprogress & _ & _ & H50 & _).
  split; [exact Hstored|]. exists statusResponse.
  split; [exact Hrun|]. rewrite <- (H50 Hstatus). exact Hprogress.
Defined.

(** Retrying a stored job that failed (or waits for a retry): the answer is
    200 and the job is stored, saved and notified as pending, with no
    retries, no error and no progress, and with the status it had recorded
    under [retryInfo]; every other property but [updatedAt] is kept.  With
    a queue manager the job is appended to the queue, without one the queue
    is left alone though the answer is the same. *)
Theorem retryJob_resets_and_requeues (queueManager : bool) (req : request)
    (store : gmap string obj) (qst : QueueManager.state) (l : RateLimiter.t)
    (w : world) (job : obj) :
  store !! jobId req = Some job ->
  field job "status" = VStr "failed" \/ field job "status" = VStr "retry" ->
  truthy (field job "id") = true ->
  exists (retried queued : obj) retriedAt st',
    retryJob queueManager req (store, (qst, (l, w))) =
      (Ok (mkResponse 200
             (<["id" := VStr (jobId req)]> (<["status" := VStr "pending"]>
                (<["message" := VStr "Job scheduled for retry"]>
                   {["retriedAt" := retriedAt]})))), st') /\
    st'.1 = <[jobId req := retried]> store /\
    saved st'.2.2.2 = saved w ++ [retried] /\
    notified st'.2.2.2 = notified w ++ [retried] /\
    field retried "status" = VStr "pending" /\
    field retried "retries" = VNum 0 /\
    field retried "error" = VUndefined /\
    field retried "progress" = VNum 0 /\
    get_prop_opt (field retried "retryInfo") "originalStatus" = field job "status" /\
    (forall k, ~ In k ["status"; "retries"; "error"; "progress"; "updatedAt"; "retryInfo"] ->
       retried !! k = job !! k) /\
    QueueManager.jobQueue st'.2.1 =
      (if queueManager then QueueManager.jobQueue qst ++ [queued]
       else QueueManager.jobQueue qst) /\
    field queued "id" = field job "id" /\
    field queued "retries" = VNum 0.
Proof.
  intros Hstored Hstatus Hid.
  pose proof (findJobById_run (jobId req) store w) as Hfind. rewrite Hstored in Hfind.
  assert (Hretryable : strict_eq (field job "status") (VStr "failed") ||
                       strict_eq (field job "status") (VStr "retry") = true).
  { destruct Hstatus as [-> | ->]; reflexivity. }
  unfold retryJob, try_catch.
  rewrite (bind_ok _ _ _ _ _ (on_app_run _ _ qst l _ _ _ _ Hfind)).
  change (negb (truthy (VObj job))) with false. cbv iota.
  rewrite (bind_eval_ok (get_prop (VObj job) "status") _ _ (field job "status") eq_refl).
  cbv beta. rewrite Hretryable. change (negb true) with false. cbv iota.
  unfold updateJobStatus, saveJob, notifyJobStatusChange, now_iso, Date_now,
    modify, on_app, on_snd, eval, mbind, M_bind, mret, M_ret.
  cbn [fst snd get_prop spread].
  match goal with |- context [<[jobId req := ?j]> store] => set (retried := j) end.
  assert (Hkept : forall k,
    ~ In k ["status"; "retries"; "error"; "progress"; "updatedAt"; "retryInfo"] ->
    retried !! k = job !! k).
  { intros k Hk. simpl in Hk. unfold retried.
    rewrite !lookup_insert_ne by (intros <-; tauto). reflexivity. }
  assert (Hrid : field retried "id" = field job "id").
  { unfold field. rewrite Hkept; [reflexivity|]. simpl. intuition discriminate. }
  assert (Hfields : field retried "status" = VStr "pending" /\
    field retried "retries" = VNum 0 /\ field retried "error" = VUndefined /\
    field retried "progress" = VNum 0 /\
    get_prop_opt (field retried "retryInfo") "originalStatus" = field job "status").
  { unfold retried.
    split; [rewrite field_insert_ne by done; apply field_insert|].
    split; [do 6 rewrite field_insert_ne by done; apply field_insert|].
    split; [do 5 rewrite field_insert_ne by done; apply field_insert|].
    split; [do 4 rewrite field_insert_ne by done; apply field_insert|].
    do 2 rewrite field_insert_ne by done. rewrite field_insert, get_prop_opt_obj.
    apply field_insert. }
  clearbody retried.
  destruct queueManager; cbn [fst snd].
  - match goal with |- context [QueueManager.addJob retried (qst, (l, ?w1))] =>
      destruct (addJob_run retried qst l w1) as (queued & w' & Hadd & Hs & Hn & Hq);
        [rewrite Hrid; exact Hid|] end.
    rewrite Hadd. cbn [fst snd].
    exists retried, queued. eexists _, _. split; [reflexivity|].
    cbn [fst snd QueueManager.jobQueue].
    split; [reflexivity|]. split; [rewrite Hs; reflexivity|].
    split; [rewrite Hn; reflexivity|].
    destruct Hfields as (H1 & H2 & H3 & H4 & H5).
    repeat (split; [assumption|]). split; [reflexivity|].
    unfold field in *. rewrite !Hq by done. split; assumption.
  - exists retried, retried. eexists _, _. split; [reflexivity|].
    cbn [fst snd QueueManager.jobQueue].
    split; [reflexivity|]. split; [reflexivity|]. split; [reflexivity|].
    destruct Hfields as (H1 & H2 & H3 & H4 & H5).
    repeat (split; [assumption|]). split; [reflexivity|]. split; assumption.
Qed.

Lemma retryJob_resets_and_requeues_witness :
  let job : obj := <["id" := VStr "j9"]> {["status" := VStr "failed"]} in
  let store : gmap string obj := {["j9" := job]} in
  let req := mkRequest "j9" VUndefined VUndefined in
  store !! jobId req = Some job /\
  (field job "status" = VStr "failed" \/ field job "status" = VStr "retry") /\
  truthy (field job "id") = true /\
  exists (queued : obj) st',
    (retryJob true req (store, (idle_queue, (sample_system.1, sample_world)))).2 = st' /\
    QueueManager.jobQueue st'.2.1 = [queued] /\
    field queued "retries" = VNum 0.
Proof.
  intros job store req.
  assert (Hstored : store !! jobId req = Some job) by apply lookup_singleton_eq.
  assert (Hstatus : field job "status" = VStr "failed").
  { unfold job. rewrite field_insert_ne by done. apply field_singleton. }
  assert (Hid : truthy (field job "id") = true).
  { unfold job. rewrite field_insert. reflexivity. }
  destruct (retryJob_resets_and_requeues true req store idle_queue sample_system.1
              sample_world job Hstored (or_introl Hstatus) Hid)
    as (retried & queued & retriedAt & st' & Hrun & _ & _ & _ & _ & _ & _ & _ & _ & _ &
        Hqueue & _ & Hretries).
  split; [exact Hstored|]. split; [left; exact Hstatus|]. split; [exact Hid|].
  exists queued, st'. split; [|split; [exact Hqueue|exact Hretries]].
  rewrite Hrun. reflexivity.
Defined.

End Routes.

Section Authentication.
Import AuthMiddleware.

Lemma split_nonempty sep s : split sep s <> [].
Proof.
  destruct s as [|c rest]; simpl; [discriminate|].
  destruct (Ascii.eqb c sep); [discriminate|].
  destruct (split sep rest); discriminate.
Qed.

Lemma split_lacks sep s : lacks sep s = true -> split sep s = [s].
Proof.
  unfold lacks. induction s as [|c rest IH]; simpl; [reflexivity|].
  intros H. apply andb_true_iff in H as [Hc Hrest]. apply negb_true_iff in Hc.
  rewrite Hc, (IH Hrest). reflexivity.
Qed.

Lemma split_app_sep sep a rest :
  lacks sep a = true -> split sep (a +:+ String sep rest) = a :: split sep rest.
Proof.
  unfold lacks. induction a as [|c a IH]; simpl.
  - intros _. rewrite Ascii.eqb_refl. reflexivity.
  - intros H. apply andb_true_iff in H as [Hc Ha]. apply negb_true_iff in Hc.
    rewrite Hc, (IH Ha). reflexivity.
Qed.

Lemma split_joins sep s :
  String.concat (String sep EmptyString) (split sep s) = s /\
  Forall (fun part => lacks sep part = true) (split sep s).
Proof.
  induction s as [|c rest [IHjoin IHlacks]]; simpl.
  - split; [reflexivity|]. constructor; [reflexivity|constructor].
  - destruct (Ascii.eqb c sep) eqn:E.
    + apply Ascii.eqb_eq in E. subst c. split.
      * pose proof (split_nonempty sep rest) as Hne.
        destruct (split sep rest) as [|seg segs]; [contradiction|].
        simpl in *. rewrite IHjoin. reflexivity.
      * constructor; [reflexivity|exact IHlacks].
    + destruct (split sep rest) as [|seg segs] eqn:Hsplit.
      { exfalso. exact (split_nonempty sep rest Hsplit). }
      split.
      * destruct segs as [|seg' segs']; simpl in *; rewrite <- IHjoin; reflexivity.
      * inversion IHlacks as [|? ? Hseg Hsegs]; subst.
        constructor; [|exact Hsegs].
        unfold lacks in *. simpl. rewrite E, Hseg. reflexivity.
Qed.

Lemma length_pos_nonempty s : (0 <? String.length s)%nat = true <-> s <> EmptyString.
Proof.
  destruct s; simpl; split; try discriminate; try reflexivity.
  intros H. contradiction.
Qed.

(** The simulated token check accepts exactly the strings made of three
    non-empty parts joined by two dots. *)
Theorem isValidSimulatedToken_three_parts (token : string) :
  isValidSimulatedToken token = true <->
  exists header payload signature,
    token = header +:+ "." +:+ payload +:+ "." +:+ signature /\
    jwt_part header /\ jwt_part payload /\ jwt_part signature.
Proof.
  unfold isValidSimulatedToken, jwt_part. split.
  - intros H. apply andb_true_iff in H as [Hlen Hall].
    apply Nat.eqb_eq in Hlen.
    destruct (split_joins "." token) as [Hjoin Hlacks].
    destruct (split "." token) as [|a [|b [|c [|d rest]]]]; try discriminate Hlen.
    simpl in Hall, Hjoin.
    apply andb_true_iff in Hall as [Ha Hall].
    apply andb_true_iff in Hall as [Hb Hall].
    apply andb_true_iff in Hall as [Hc _].
    inversion Hlacks as [|? ? La Lrest]; subst.
    inversion Lrest as [|? ? Lb Lrest']; subst.
    inversion Lrest' as [|? ? Lc _]; subst.
    exists a, b, c. split; [reflexivity|].
    rewrite <- !length_pos_nonempty. auto.
  - intros (a & b & c & -> & [Ha La] & [Hb Lb] & [Hc Lc]).
    change (a +:+ "." +:+ b +:+ "." +:+ c)
      with (a +:+ String "." (b +:+ String "." c)).
    rewrite (split_app_sep _ _ _ La), (split_app_sep _ _ _ Lb), (split_lacks _ _ Lc).
    simpl. apply length_pos_nonempty in Ha, Hb, Hc. rewrite Ha, Hb, Hc. reflexivity.
Qed.

Lemma substring_all s : String.substring 0 (String.length s) s = s.
Proof. induction s as [|c s IH]; simpl; [reflexivity|]. rewrite IH. reflexivity. Qed.

Lemma prefix_split p : forall s,
  String.prefix p s = true ->
  s = p +:+ String.substring (String.length p) (String.length s - String.length p) s.
Proof.
  induction p as [|a p IH]; intros s H; simpl.
  - rewrite Nat.sub_0_r, substring_all. reflexivity.
  - destruct s as [|b s]; simpl in H; [discriminate|].
    destruct (ascii_dec a b) as [<-|]; [|discriminate].
    change (String a s = String a (p +:+ String.substring (String.length p)
              (String.length s - String.length p) s)).
    rewrite <- (IH s H). reflexivity.
Qed.

Lemma prefix_app p s : String.prefix p (p +:+ s) = true.
Proof.
  induction p as [|a p IH]; simpl; [destruct s; reflexivity|].
  destruct (ascii_dec a a); [exact IH|contradiction].
Qed.

Lemma substring_app p s :
  String.substring (String.length p) (String.length (p +:+ s) - String.length p) (p +:+ s) = s.
Proof.
  induction p as [|a p IH]; simpl.
  - rewrite Nat.sub_0_r. apply substring_all.
  - exact IH.
Qed.

(** Who the middleware lets through: the health path, without a user, and
    otherwise exactly the requests whose header is ["Bearer "] followed by
    the test token or by a token of three dotted parts; these go on as the
    test user. *)
Theorem authenticate_admits (req : request) :
  (path req = "/health" -> authenticate req = Next None) /\
  (path req <> "/health" ->
   forall user,
     authenticate req = Next user <->
     user = Some test_user /\
     exists token,
       authorization req = Some ("Bearer " +:+ token) /\
       (token = VALID_TEST_TOKEN \/ isValidSimulatedToken token = true)).
Proof.
  unfold authenticate. split.
  - intros ->. reflexivity.
  - intros Hpath user.
    destruct (String.eqb (path req) "/health") eqn:E;
      [apply String.eqb_eq in E; contradiction|].
    destruct (authorization req) as [authHeader|].
    2: { split; [discriminate|]. intros [_ (token & H & _)]. discriminate H. }
    split.
    + destruct (String.eqb authHeader EmptyString); [discriminate|].
      destruct (String.prefix "Bearer " authHeader) eqn:Hprefix; [|discriminate].
      simpl negb. cbv iota.
      pose proof (prefix_split _ _ Hprefix) as Hsplit.
      change (String.length "Bearer ") with 7%nat in Hsplit.
      set (token := String.substring 7 (String.length authHeader - 7) authHeader) in *.
      destruct (String.eqb token VALID_TEST_TOKEN || isValidSimulatedToken token) eqn:Hok;
        [|discriminate].
      intros H. injection H as <-. split; [reflexivity|].
      exists token. split; [rewrite Hsplit at 1; reflexivity|].
      apply orb_true_iff in Hok as [Hok|Hok]; [left; apply String.eqb_eq; exact Hok|right; exact Hok].
    + intros [-> (token & H & Hok)]. injection H as ->.
      change (String.eqb ("Bearer " +:+ token) EmptyString) with false. cbv iota.
      rewrite (prefix_app "Bearer " token). simpl negb. cbv iota.
      pose proof (substring_app "Bearer " token) as Hsub.
      change (String.length "Bearer ") with 7%nat in Hsub. rewrite Hsub.
      assert (Hb : String.eqb token VALID_TEST_TOKEN || isValidSimulatedToken token = true).
      { apply orb_true_iff. destruct Hok as [->|Hok]; [left; apply String.eqb_refl|right; exact Hok]. }
      rewrite Hb. reflexivity.
Qed.

End Authentication.
